(** * BabyMonitoringSystem: a shallow embedding of the two sketches

    [BabySide.ino] (the sensor node), [ParentSide.ino] (the monitor node)
    and [Songs.h], with the properties of the message link, the alarm state
    machine, the menu navigation and the sensor queue.

    Conventions.
    - A C [int] is a [Z] with its 32-bit wrap-around written out ([wrap32]).
    - A C [float] is a binary32 number of [SpecFloat] ([prec = 24],
      [emax = 128]); comparisons are the IEEE ones ([SFltb], [SFeqb]).
    - A [char] buffer is a [list ascii]; an access outside the buffer is an
      error result ([None]), since C gives it no meaning.
    - The collaborators (display, radio, buzzer, serial port, delays) are
      recorded as a trace of calls, in program order.
    - The global variables of a sketch are the fields of its [State]. *)

From Stdlib Require Import ZArith NArith List String Ascii Lia.
From Stdlib Require Import SpecFloat.
From stdpp Require Import base list strings.
Import ListNotations.

Local Open Scope Z_scope.

(* ================================================================== *)
(** * Machine integers *)

Module Int32.

Definition modulus : Z := 2 ^ 32.
Definition half_modulus : Z := 2 ^ 31.
Definition INT_MAX : Z := half_modulus - 1.
Definition INT_MIN : Z := - half_modulus.

(** The value of a 32-bit two's complement [int] holding [z]. *)
Definition wrap32 (z : Z) : Z :=
  (z + half_modulus) mod modulus - half_modulus.

(** The value of a 32-bit [unsigned long] holding [z]. *)
Definition wrapu32 (z : Z) : Z := z mod modulus.

End Int32.

(* ================================================================== *)
(** * Binary32 floats *)

Module Float32.

Definition float : Type := spec_float.

Definition prec : Z := 24.
Definition emax : Z := 128.

(** Conversion of an integer to [float], as C does for [value > 90] with
    a [float] on the left or for [sensor.value = analogRead(pin)]. *)
Definition of_Z (z : Z) : float := binary_normalize prec emax z 0 false.

(** The C comparisons on [float]. A NaN compares false with [<] and [>]
    and true with [!=]. *)
Definition lt (a b : float) : bool := SFltb a b.
Definition gt (a b : float) : bool := SFltb b a.
Definition ne (a b : float) : bool := negb (SFeqb a b).

(** A float is well formed when its mantissa and exponent are those of a
    binary32 number. *)
Definition valid (v : float) : bool := valid_binary prec emax v.

(** [hundredths m e] is [m * 2^e * 100] rounded to the nearest integer,
    a tie going up: the magnitude, in hundredths, that a two-decimal
    rendering of the float shows. *)
Definition hundredths (m : positive) (e : Z) : Z :=
  if 0 <=? e then Zpos m * 2 ^ e * 100
  else (Zpos m * 200 + 2 ^ (- e)) / 2 ^ (- e + 1).

(** The float nearest to [num / 10^k], with sign [neg]. *)
Definition of_decimal (neg : bool) (num : Z) (k : Z) : float :=
  if num =? 0 then S754_zero neg
  else
    let q := SFdiv prec emax (of_Z num) (of_Z (10 ^ k)) in
    if neg then SFopp q else q.

(** The value a reading keeps once it has gone through its two-decimal
    text: what "up to the textual representation" means for a float. *)
Definition round2 (v : float) : float :=
  match v with
  | S754_nan => S754_nan
  | S754_infinity _ => S754_infinity false
  | S754_zero _ => S754_zero false
  | S754_finite s m e => of_decimal s (hundredths m e) 2
  end.

(** Some literals. *)
Definition f59_9 : float := S754_finite false 15702426 (-18).
Definition f60_0 : float := of_Z 60.
Definition f90_0 : float := of_Z 90.
Definition f90_1 : float := S754_finite false 11809587 (-17).
Definition f95_0 : float := of_Z 95.

End Float32.

(* ================================================================== *)
(** * The C library functions the sketches call *)

Module CLib.

Definition NUL : ascii := "000"%char.

Definition code (c : ascii) : Z := Z.of_N (N_of_ascii c).

Definition isdigit (c : ascii) : bool := (48 <=? code c) && (code c <=? 57).

(** [' '], ['\t'], ['\n'], ['\v'], ['\f'], ['\r']. *)
Definition isspace (c : ascii) : bool :=
  (code c =? 32) || ((9 <=? code c) && (code c <=? 13)).

Definition digit_val (c : ascii) : Z := code c - 48.

Definition digit_char (d : Z) : ascii := ascii_of_N (Z.to_N (48 + d)).

(** The C string held in a buffer: the characters before the first NUL.
    A buffer without NUL is read to its end. *)
Fixpoint cstr (buf : list ascii) : list ascii :=
  match buf with
  | [] => []
  | c :: t => if decide (c = NUL) then [] else c :: cstr t
  end.

(** [strcmp]: the difference of the first two characters that differ,
    0 when both strings end together. *)
Fixpoint strcmp (s1 s2 : list ascii) : Z :=
  match s1, s2 with
  | [], [] => 0
  | [], c2 :: _ => - code c2
  | c1 :: _, [] => code c1
  | c1 :: t1, c2 :: t2 =>
      if decide (c1 = c2)
      then (if decide (c1 = NUL) then 0 else strcmp t1 t2)
      else code c1 - code c2
  end.

(** [memcpy(dst, src, n)] on a destination buffer: [None] when [n] bytes
    do not fit in [dst] or are not all there in [src]. *)
Definition memcpy (dst src : list ascii) (n : Z) : option (list ascii) :=
  if (0 <=? n) && (n <=? Z.of_nat (length dst)) && (n <=? Z.of_nat (length src))
  then Some (take (Z.to_nat n) src ++ drop (Z.to_nat n) dst)
  else None.

(** [buf[i] = c]: [None] when [i] is not an index of [buf]. *)
Definition store (buf : list ascii) (i : Z) (c : ascii) : option (list ascii) :=
  if (0 <=? i) && (i <? Z.of_nat (length buf))
  then Some (<[Z.to_nat i := c]> buf)
  else None.

(** ** strtok *)

Fixpoint skip_delims (delim : ascii) (s : list ascii) : list ascii :=
  match s with
  | c :: t => if decide (c = delim) then skip_delims delim t else s
  | [] => []
  end.

(** The token at the head of [s] and what follows its delimiter. *)
Fixpoint span_token (delim : ascii) (s : list ascii) : list ascii * list ascii :=
  match s with
  | [] => ([], [])
  | c :: t =>
      if decide (c = delim) then ([], t)
      else let '(tok, rest) := span_token delim t in (c :: tok, rest)
  end.

(** [strtok] on the string [s] (the argument, or the saved position when
    the argument is NULL): the token and the new saved position, [None]
    for the NULL result (the saved position is then the end of the
    string). *)
Definition strtok (s : list ascii) (delim : ascii)
  : option (list ascii) * list ascii :=
  match skip_delims delim s with
  | [] => (None, [])
  | s1 => let '(tok, rest) := span_token delim s1 in (Some tok, rest)
  end.

(** ** Numerals *)

(** Reads the leading decimal digits of [s] onto [acc]: the number, how
    many digits were read, and the rest of the string. *)
Fixpoint read_digits (s : list ascii) (acc : Z) (cnt : Z)
  : Z * Z * list ascii :=
  match s with
  | c :: t =>
      if isdigit c then read_digits t (acc * 10 + digit_val c) (cnt + 1)
      else (acc, cnt, s)
  | [] => (acc, cnt, [])
  end.

Fixpoint skip_spaces (s : list ascii) : list ascii :=
  match s with
  | c :: t => if isspace c then skip_spaces t else s
  | [] => []
  end.

Definition read_sign (s : list ascii) : bool * list ascii :=
  match s with
  | "-"%char :: t => (true, t)
  | "+"%char :: t => (false, t)
  | _ => (false, s)
  end.

(** [atoi]: optional blanks, an optional sign, decimal digits; the
    result of [strtol], which saturates, converted to [int]. *)
Definition atoi (s : list ascii) : Z :=
  let '(neg, s1) := read_sign (skip_spaces s) in
  let '(n, _, _) := read_digits s1 0 0 in
  let v := if neg then - n else n in
  Z.max Int32.INT_MIN (Z.min Int32.INT_MAX v).

Definition starts_with (p s : list ascii) : bool :=
  bool_decide (take (length p) s = p).

(** [atof] on the numerals the sensor node prints: optional blanks, an
    optional sign, then ["nan"], ["inf"] or decimal digits with an
    optional fraction. Reading stops at the first character that is not
    part of such a numeral; exponents and hexadecimal numerals, which the
    sensor node never prints, are not read. *)
Definition atof (s : list ascii) : Float32.float :=
  let '(neg, s1) := read_sign (skip_spaces s) in
  if starts_with (list_ascii_of_string "nan") s1 then S754_nan
  else if starts_with (list_ascii_of_string "inf") s1 then S754_infinity neg
  else
    let '(ip, _, s2) := read_digits s1 0 0 in
    match s2 with
    | "."%char :: s3 =>
        let '(num, k, _) := read_digits s3 ip 0 in
        Float32.of_decimal neg num k
    | _ => Float32.of_decimal neg ip 0
    end.

End CLib.

(* ================================================================== *)
(** * The Arduino [String] conversions *)

Module ArduinoString.

Import CLib.

(** The decimal digits of [n >= 0], most significant first; [fuel]
    bounds the number of digits. *)
Fixpoint dec_fuel (fuel : nat) (n : Z) : list ascii :=
  match fuel with
  | O => []
  | S f =>
      (if n / 10 =? 0 then [] else dec_fuel f (n / 10))
        ++ [digit_char (n mod 10)]
  end.

Definition dec (n : Z) : list ascii :=
  dec_fuel (S (Z.to_nat (Z.log2 n))) n.

(** [String(int)]. *)
Definition String_int (n : Z) : list ascii :=
  if n <? 0 then "-"%char :: dec (- n) else dec n.

(** [String(float)], which prints two decimal places: [dtostrf(value, 4,
    2, buf)] adds half a hundredth to the magnitude and prints its
    integer part and two decimals; ["nan"] and ["inf"] for the values
    that are not numbers. A zero of either sign prints without sign. *)
Definition String_float (v : Float32.float) : list ascii :=
  match v with
  | S754_nan => list_ascii_of_string "nan"
  | S754_infinity _ => list_ascii_of_string "inf"
  | S754_zero _ => list_ascii_of_string "0.00"
  | S754_finite s m e =>
      let h := Float32.hundredths m e in
      (if s then ["-"%char] else [])
        ++ dec (h / 100)
        ++ ["."%char; digit_char (h / 10 mod 10); digit_char (h mod 10)]
  end.

End ArduinoString.

(* ================================================================== *)
(** * The collaborators: display, radio, buzzer, serial port, delays *)

Module Board.

Inductive Event : Type :=
| LcdClear
| LcdSetCursor (col row : Z)
| LcdPrint (text : string)
| LcdPrintFloat (v : Float32.float)
| EspNowSend (payload : list ascii)
| Tone (pin freq : Z)
| NoTone (pin : Z)
| VTaskDelay (ticks : Z)
| SerialPrintln (text : string).

(** The tick period of the ESP32 Arduino core, whose scheduler runs at
    1000 Hz. *)
Definition portTICK_PERIOD_MS : Z := 1.

Definition BUZZER_PIN : Z := 9.

(** What [digitalRead(SW_PIN)], [analogRead(X_PIN)] and
    [analogRead(Y_PIN)] return during one pass of the display task. *)
Record Inputs : Type := {
  sw : bool;
  x_adc : Z;
  y_adc : Z
}.

End Board.

(* ================================================================== *)
(** * FreeRTOS queues *)

Module FreeRTOS.

Definition portMAX_DELAY : Z := 0xFFFFFFFF.

Record Queue (A : Type) : Type := {
  uxLength : nat;
  items : list A
}.
Arguments uxLength {A} _.
Arguments items {A} _.

Definition xQueueCreate {A : Type} (n : nat) : Queue A :=
  {| uxLength := n; items := [] |}.

Definition is_full {A : Type} (q : Queue A) : bool :=
  (uxLength q <=? length (items q))%nat.

(** The three ways a send can go: the item is posted at the back; the
    task stays blocked in the call; the call gives up and returns
    [errQUEUE_FULL]. *)
Inductive SendResult (A : Type) : Type :=
| Posted (q : Queue A)
| SendBlocked
| ErrQueueFull.
Arguments Posted {A} _.
Arguments SendBlocked {A}.
Arguments ErrQueueFull {A}.

(** [xQueueSend(q, &item, ticks)] at an instant where the caller runs:
    with room the copy of the item is posted; on a full queue a caller
    that waits [portMAX_DELAY] stays blocked for as long as the queue is
    full, any other caller gets [errQUEUE_FULL] once its wait is over. *)
Definition xQueueSend {A : Type} (q : Queue A) (item : A) (ticks : Z)
  : SendResult A :=
  if is_full q then
    if ticks =? portMAX_DELAY then SendBlocked else ErrQueueFull
  else Posted {| uxLength := uxLength q; items := items q ++ [item] |}.

(** [xQueueSendFromISR] never waits. *)
Definition xQueueSendFromISR {A : Type} (q : Queue A) (item : A)
  : SendResult A :=
  xQueueSend q item 0.

Inductive ReceiveResult (A : Type) : Type :=
| Received (item : A) (q : Queue A)
| ReceiveBlocked
| ErrQueueEmpty.
Arguments Received {A} _ _.
Arguments ReceiveBlocked {A}.
Arguments ErrQueueEmpty {A}.

Definition xQueueReceive {A : Type} (q : Queue A) (ticks : Z)
  : ReceiveResult A :=
  match items q with
  | x :: rest => Received x {| uxLength := uxLength q; items := rest |}
  | [] => if ticks =? portMAX_DELAY then ReceiveBlocked else ErrQueueEmpty
  end.

End FreeRTOS.

(* ================================================================== *)
(** * Songs.h *)

Module Songs.

Import Board.

Definition song1Notes : list Z :=
  [ 261; 261; 392; 392; 440; 440; 392;
    349; 349; 329; 329; 294; 294; 261;
    392; 392; 349; 349; 329; 329; 294;
    392; 392; 349; 349; 329; 329; 294;
    261; 261; 392; 392; 440; 440; 392;
    349; 349; 329; 329; 294; 294; 261 ].

Definition song1NoteDurations : list Z :=
  [ 4; 4; 4; 4; 4; 4; 2;
    4; 4; 4; 4; 4; 4; 2;
    4; 4; 4; 4; 4; 4; 2;
    4; 4; 4; 4; 4; 4; 2;
    4; 4; 4; 4; 4; 4; 2;
    4; 4; 4; 4; 4; 4; 2 ].

Definition song2Notes : list Z :=
  [ 330; 294; 262; 294; 330; 330; 330;
    294; 294; 294; 330; 392; 392;
    330; 294; 262; 294; 330; 330; 330;
    330; 294; 294; 330; 294; 262 ].

Definition song2NoteDurations : list Z :=
  [ 4; 4; 4; 4; 4; 4; 2;
    4; 4; 2; 4; 4; 2;
    4; 4; 4; 4; 4; 4; 4;
    4; 4; 4; 4; 4; 1 ].

Definition song3Notes : list Z :=
  [ 262; 349; 349; 349; 349; 440; 262; 440; 349; 0;
    392; 392; 392; 330; 294; 262;
    262; 349; 349; 349; 349; 440; 262; 440; 349; 0;
    392; 262; 349 ].

Definition song3NoteDurations : list Z :=
  [ 4; 4; 8; 8; 4; 4; 4; 4; 4; 4;
    4; 4; 2; 4; 4; 4;
    4; 4; 8; 8; 4; 4; 4; 4; 2; 4;
    2; 2; 1 ].

(** One turn of the loop of [playNotes]. *)
Definition playNote (buzzerPin : Z) (note duration : Z) : list Event :=
  let noteDuration := Z.quot 1000 duration in
  [ Tone buzzerPin note;
    VTaskDelay (Z.quot noteDuration portTICK_PERIOD_MS);
    NoTone buzzerPin;
    VTaskDelay (Z.quot 200 portTICK_PERIOD_MS) ].

(** [playNotes]: the loop over [thisNote < length]; the two arrays are
    read at the same index, and [length] is the [sizeof] of the notes
    array, so every index is one of both arrays. *)
Definition playNotes (buzzerPin : Z) (notes durations : list Z)
           (length : nat) : list Event :=
  flat_map (fun nd => playNote buzzerPin (fst nd) (snd nd))
           (take length (zip notes durations)).

Definition playSong (buzzerPin : Z) (songNum : Z) : list Event :=
  if songNum =? 1 then
    playNotes buzzerPin song1Notes song1NoteDurations (length song1Notes)
  else if songNum =? 2 then
    playNotes buzzerPin song2Notes song2NoteDurations (length song2Notes)
  else if songNum =? 3 then
    playNotes buzzerPin song3Notes song3NoteDurations (length song3Notes)
  else [ SerialPrintln "Invalid selection. Please enter 1, 2, or 3." ].

End Songs.

(* ================================================================== *)
(** * BabySide.ino: the sensor node *)

Module BabySide.

Import Board FreeRTOS CLib.

Inductive sensorIDs : Type := NOISE | TEMP | HUMIDITY | MOTION | WATER | LIGHT.

(** The value of the enumerator. *)
Definition id_num (s : sensorIDs) : Z :=
  match s with
  | NOISE => 0 | TEMP => 1 | HUMIDITY => 2
  | MOTION => 3 | WATER => 4 | LIGHT => 5
  end.

Record SensorInfo : Type := {
  id : sensorIDs;
  name : string;
  value : Float32.float
}.

Definition set_value (v : Float32.float) (s : SensorInfo) : SensorInfo :=
  {| id := id s; name := name s; value := v |}.

Definition sensorValues_init : list SensorInfo :=
  [ {| id := NOISE; name := "Noise level"; value := Float32.of_Z 0 |};
    {| id := TEMP; name := "Tempurature"; value := Float32.of_Z 0 |};
    {| id := HUMIDITY; name := "Humidity"; value := Float32.of_Z 0 |};
    {| id := MOTION; name := "Motion"; value := Float32.of_Z 0 |};
    {| id := WATER; name := "Water level"; value := Float32.of_Z 0 |};
    {| id := LIGHT; name := "Light level"; value := Float32.of_Z 0 |} ].

(** Where the sampling task stands in its loop: about to read the
    [k]-th sensor of its sequence, inside the [xQueueSend] of that
    reading, or in its delay. *)
Inductive SamplingPc : Type :=
| AtRead (k : nat)
| AtSend (k : nat)
| AtDelay.

Record State : Type := {
  messageReceived : bool;
  incomingMessage : list ascii;
  sensorValues : list SensorInfo;
  sensorQueue : Queue SensorInfo;
  samplingPc : SamplingPc;
  trace : list Event
}.

(** The globals after [setup]: [incomingMessage] is a zeroed
    [char[18]], the queue is [xQueueCreate(10, sizeof(SensorInfo))]. *)
Definition init : State :=
  {| messageReceived := false;
     incomingMessage := replicate 18 NUL;
     sensorValues := sensorValues_init;
     sensorQueue := xQueueCreate 10;
     samplingPc := AtRead 0;
     trace := [] |}.

Definition emit (evs : list Event) (st : State) : State :=
  {| messageReceived := messageReceived st;
     incomingMessage := incomingMessage st;
     sensorValues := sensorValues st;
     sensorQueue := sensorQueue st;
     samplingPc := samplingPc st;
     trace := trace st ++ evs |}.

Definition set_messageReceived (b : bool) (st : State) : State :=
  {| messageReceived := b;
     incomingMessage := incomingMessage st;
     sensorValues := sensorValues st;
     sensorQueue := sensorQueue st;
     samplingPc := samplingPc st;
     trace := trace st |}.

Definition set_incomingMessage (m : list ascii) (st : State) : State :=
  {| messageReceived := messageReceived st;
     incomingMessage := m;
     sensorValues := sensorValues st;
     sensorQueue := sensorQueue st;
     samplingPc := samplingPc st;
     trace := trace st |}.

Definition set_sensorValues (l : list SensorInfo) (st : State) : State :=
  {| messageReceived := messageReceived st;
     incomingMessage := incomingMessage st;
     sensorValues := l;
     sensorQueue := sensorQueue st;
     samplingPc := samplingPc st;
     trace := trace st |}.

Definition set_sensorQueue (q : Queue SensorInfo) (st : State) : State :=
  {| messageReceived := messageReceived st;
     incomingMessage := incomingMessage st;
     sensorValues := sensorValues st;
     sensorQueue := q;
     samplingPc := samplingPc st;
     trace := trace st |}.

Definition set_samplingPc (pc : SamplingPc) (st : State) : State :=
  {| messageReceived := messageReceived st;
     incomingMessage := incomingMessage st;
     sensorValues := sensorValues st;
     sensorQueue := sensorQueue st;
     samplingPc := pc;
     trace := trace st |}.

(** ** The receive callback and the command task *)

(** [onDataReceived]: [None] when the copy or the terminator falls
    outside [incomingMessage]. *)
Definition onDataReceived (incomingData : list ascii) (len : Z) (st : State)
  : option State :=
  buf ← memcpy (incomingMessage st) incomingData len;
  buf' ← store buf len NUL;
  Some (set_messageReceived true (set_incomingMessage buf' st)).

(** One wake-up of [playSongTask]: the body of its loop after
    [ulTaskNotifyTake] has returned. *)
Definition playSongTask_wake (st : State) : State :=
  if messageReceived st then
    let st1 :=
      if strcmp (incomingMessage st) (list_ascii_of_string "Little Star") =? 0
      then emit (Songs.playSong BUZZER_PIN 1) st
      else if strcmp (incomingMessage st) (list_ascii_of_string "Mary's Lamb") =? 0
      then emit (Songs.playSong BUZZER_PIN 2) st
      else if strcmp (incomingMessage st) (list_ascii_of_string "Wheels on Bus") =? 0
      then emit (Songs.playSong BUZZER_PIN 3) st
      else emit [ SerialPrintln "Invalid song selection." ] st in
    set_messageReceived false st1
  else st.

(** ** debounce *)

(** [debounce(&lastInputTime)]: [ms] is what [millis()] returns, an
    [unsigned long] stored in an [int]; the result and the new value of
    [*lastInputTime]. *)
Definition debounce (ms : Z) (lastInputTime : Z) : bool * Z :=
  let currentTime := Int32.wrap32 ms in
  if Int32.wrap32 (currentTime - lastInputTime) >? 500
  then (true, currentTime)
  else (false, lastInputTime).

(** ** The sampling and transmit tasks *)

(** The order in which [readSensorsTask] reads the sensors. *)
Definition sampling_order : list sensorIDs :=
  [ LIGHT; TEMP; HUMIDITY; WATER; MOTION; NOISE ].

Definition next_pc (k : nat) : SamplingPc :=
  if (S k <? length sampling_order)%nat then AtRead (S k) else AtDelay.

Definition idx (s : sensorIDs) : nat := Z.to_nat (id_num s).

(** [outgoingMessage = String(sensorInfo.id) + ":" + String(sensorInfo.value)] *)
Definition outgoingMessage (sensorInfo : SensorInfo) : list ascii :=
  ArduinoString.String_int (id_num (id sensorInfo))
    ++ [":"%char]
    ++ ArduinoString.String_float (value sensorInfo).

(** What a step of the two tasks does to the queue. *)
Inductive Label : Type :=
| Sampled (s : sensorIDs) (v : Float32.float)
| Pushed (r : SensorInfo)
| Dropped (r : SensorInfo)
| Transmitted (r : SensorInfo)
| Slept.

(** The steps of [readSensorsTask] and [processSensorInfoTask], taken
    in any interleaving. A task blocked in a queue call has no step. The
    sampling task ignores the result of [xQueueSend]: were the call to
    return [errQUEUE_FULL], the task would go on to the next sensor and
    the reading would be lost ([step_drop]). *)
Inductive step : State -> Label -> State -> Prop :=
| step_sample st k s v r :
    samplingPc st = AtRead k ->
    sampling_order !! k = Some s ->
    sensorValues st !! idx s = Some r ->
    step st (Sampled s v)
         (set_samplingPc (AtSend k)
            (set_sensorValues (<[idx s := set_value v r]> (sensorValues st)) st))
| step_push st k s r q :
    samplingPc st = AtSend k ->
    sampling_order !! k = Some s ->
    sensorValues st !! idx s = Some r ->
    xQueueSend (sensorQueue st) r portMAX_DELAY = Posted q ->
    step st (Pushed r) (set_samplingPc (next_pc k) (set_sensorQueue q st))
| step_drop st k s r :
    samplingPc st = AtSend k ->
    sampling_order !! k = Some s ->
    sensorValues st !! idx s = Some r ->
    xQueueSend (sensorQueue st) r portMAX_DELAY = ErrQueueFull ->
    step st (Dropped r) (set_samplingPc (next_pc k) st)
| step_delay st :
    samplingPc st = AtDelay ->
    step st Slept
         (set_samplingPc (AtRead 0)
            (emit [ VTaskDelay (Z.quot 300 portTICK_PERIOD_MS) ] st))
| step_transmit st sensorInfo q :
    xQueueReceive (sensorQueue st) portMAX_DELAY = Received sensorInfo q ->
    step st (Transmitted sensorInfo)
         (emit [ EspNowSend (outgoingMessage sensorInfo);
                 VTaskDelay (Z.quot 50 portTICK_PERIOD_MS) ]
            (set_sensorQueue q st)).

(** Runs: the labels are listed in the order of the steps. *)
Inductive run : State -> list Label -> State -> Prop :=
| run_nil st : run st [] st
| run_cons st l st1 ls st2 :
    step st l st1 -> run st1 ls st2 -> run st (l :: ls) st2.

Definition pushed (ls : list Label) : list SensorInfo :=
  flat_map (fun l => match l with Pushed r => [r] | _ => [] end) ls.

Definition transmitted (ls : list Label) : list SensorInfo :=
  flat_map (fun l => match l with Transmitted r => [r] | _ => [] end) ls.

Definition is_drop (l : Label) : bool :=
  match l with Dropped _ => true | _ => false end.

End BabySide.

(* ================================================================== *)
(** * BabySide.ino: the display task of the sensor node *)

(** The display task of the sensor node works on globals of its own
    (view, top index, cursor line, the three stamps) and reads the sensor
    array; they are the fields of the [State] of this module. *)
Module BabySideDisplay.

Import Board.

Definition NUM_SENSORS : Z := 6.

Definition GO_UP (y : Z) : bool := y <? 400.
Definition GO_DOWN (y : Z) : bool := y =? 4095.
Definition GO_LEFT (x : Z) : bool := x <? 300.

Inductive lcdView : Type := MENU | SENSOR_VIEW.

#[global] Instance lcdView_eq_dec : EqDecision lcdView.
Proof. solve_decision. Defined.

Record State : Type := {
  sensorValues : list BabySide.SensorInfo;
  currLcdView : lcdView;
  sensorOnTopLcdLineID : Z;
  cursorLine : Z;
  lastYInputTime : Z;
  lastXInputTime : Z;
  lastSwInputTime : Z;
  clock : Z;
  trace : list Event
}.

Definition init : State :=
  {| sensorValues := BabySide.sensorValues_init;
     currLcdView := MENU;
     sensorOnTopLcdLineID := 0;
     cursorLine := 0;
     lastYInputTime := 0;
     lastXInputTime := 0;
     lastSwInputTime := 0;
     clock := 0;
     trace := [] |}.

Definition set_sensorValues (x : list BabySide.SensorInfo) (st : State) : State :=
  {| sensorValues := x;
     currLcdView := currLcdView st;
     sensorOnTopLcdLineID := sensorOnTopLcdLineID st;
     cursorLine := cursorLine st;
     lastYInputTime := lastYInputTime st;
     lastXInputTime := lastXInputTime st;
     lastSwInputTime := lastSwInputTime st;
     clock := clock st;
     trace := trace st |}.

Definition set_currLcdView (x : lcdView) (st : State) : State :=
  {| sensorValues := sensorValues st;
     currLcdView := x;
     sensorOnTopLcdLineID := sensorOnTopLcdLineID st;
     cursorLine := cursorLine st;
     lastYInputTime := lastYInputTime st;
     lastXInputTime := lastXInputTime st;
     lastSwInputTime := lastSwInputTime st;
     clock := clock st;
     trace := trace st |}.

Definition set_sensorOnTopLcdLineID (x : Z) (st : State) : State :=
  {| sensorValues := sensorValues st;
     currLcdView := currLcdView st;
     sensorOnTopLcdLineID := x;
     cursorLine := cursorLine st;
     lastYInputTime := lastYInputTime st;
     lastXInputTime := lastXInputTime st;
     lastSwInputTime := lastSwInputTime st;
     clock := clock st;
     trace := trace st |}.

Definition set_cursorLine (x : Z) (st : State) : State :=
  {| sensorValues := sensorValues st;
     currLcdView := currLcdView st;
     sensorOnTopLcdLineID := sensorOnTopLcdLineID st;
     cursorLine := x;
     lastYInputTime := lastYInputTime st;
     lastXInputTime := lastXInputTime st;
     lastSwInputTime := lastSwInputTime st;
     clock := clock st;
     trace := trace st |}.

Definition set_lastYInputTime (x : Z) (st : State) : State :=
  {| sensorValues := sensorValues st;
     currLcdView := currLcdView st;
     sensorOnTopLcdLineID := sensorOnTopLcdLineID st;
     cursorLine := cursorLine st;
     lastYInputTime := x;
     lastXInputTime := lastXInputTime st;
     lastSwInputTime := lastSwInputTime st;
     clock := clock st;
     trace := trace st |}.

Definition set_lastXInputTime (x : Z) (st : State) : State :=
  {| sensorValues := sensorValues st;
     currLcdView := currLcdView st;
     sensorOnTopLcdLineID := sensorOnTopLcdLineID st;
     cursorLine := cursorLine st;
     lastYInputTime := lastYInputTime st;
     lastXInputTime := x;
     lastSwInputTime := lastSwInputTime st;
     clock := clock st;
     trace := trace st |}.

Definition set_lastSwInputTime (x : Z) (st : State) : State :=
  {| sensorValues := sensorValues st;
     currLcdView := currLcdView st;
     sensorOnTopLcdLineID := sensorOnTopLcdLineID st;
     cursorLine := cursorLine st;
     lastYInputTime := lastYInputTime st;
     lastXInputTime := lastXInputTime st;
     lastSwInputTime := x;
     clock := clock st;
     trace := trace st |}.

Definition set_clock (x : Z) (st : State) : State :=
  {| sensorValues := sensorValues st;
     currLcdView := currLcdView st;
     sensorOnTopLcdLineID := sensorOnTopLcdLineID st;
     cursorLine := cursorLine st;
     lastYInputTime := lastYInputTime st;
     lastXInputTime := lastXInputTime st;
     lastSwInputTime := lastSwInputTime st;
     clock := x;
     trace := trace st |}.

Definition emit (evs : list Event) (st : State) : State :=
  {| sensorValues := sensorValues st;
     currLcdView := currLcdView st;
     sensorOnTopLcdLineID := sensorOnTopLcdLineID st;
     cursorLine := cursorLine st;
     lastYInputTime := lastYInputTime st;
     lastXInputTime := lastXInputTime st;
     lastSwInputTime := lastSwInputTime st;
     clock := clock st;
     trace := trace st ++ evs |}.

Definition millis (st : State) : Z := Int32.wrapu32 (clock st).

Definition vTaskDelay_ms (ms : Z) (st : State) : State :=
  emit [ VTaskDelay (Z.quot ms portTICK_PERIOD_MS) ]
       (set_clock (clock st + ms) st).

(** [debounce(&lastYInputTime)] and so on, with [BabySide.debounce]. *)
Definition debounceY (st : State) : bool * State :=
  let '(ok, t) := BabySide.debounce (millis st) (lastYInputTime st) in
  (ok, if ok then set_lastYInputTime t st else st).

Definition debounceX (st : State) : bool * State :=
  let '(ok, t) := BabySide.debounce (millis st) (lastXInputTime st) in
  (ok, if ok then set_lastXInputTime t st else st).

Definition debounceSw (st : State) : bool * State :=
  let '(ok, t) := BabySide.debounce (millis st) (lastSwInputTime st) in
  (ok, if ok then set_lastSwInputTime t st else st).

(** [cond && f()]: [f] runs only when [cond] holds. *)
Definition and_then (cond : bool) (f : State -> bool * State) (st : State)
  : bool * State :=
  if cond then f st else (false, st).

Definition moveCursor (st : State) : State :=
  let st := emit [ LcdSetCursor 0 (cursorLine st); LcdPrint " " ] st in
  let st := set_cursorLine (Z.rem (cursorLine st + 1) 2) st in
  emit [ LcdSetCursor 0 (cursorLine st); LcdPrint ">" ] st.

(** [sensorValues[i].name] and [sensorValues[i].value] as the display
    reads them; the index stays within the array. *)
Definition sensor_name (i : Z) (st : State) : string :=
  match sensorValues st !! Z.to_nat i with
  | Some s => BabySide.name s
  | None => ""
  end.

Definition sensor_value (i : Z) (st : State) : Float32.float :=
  match sensorValues st !! Z.to_nat i with
  | Some s => BabySide.value s
  | None => S754_zero false
  end.

Definition printSensorPreviews (st : State) : State :=
  emit [ LcdSetCursor 1 0;
         LcdPrint (sensor_name (sensorOnTopLcdLineID st) st);
         LcdSetCursor 1 1;
         LcdPrint (sensor_name (Z.rem (sensorOnTopLcdLineID st + 1) NUM_SENSORS) st) ]
       st.

Definition printMenu (io : Inputs) (st : State) : State :=
  let st := printSensorPreviews st in
  let st := emit [ LcdSetCursor 0 (cursorLine st); LcdPrint ">" ] st in
  let '(b, st) := and_then (negb (sw io)) debounceSw st in
  if b then
    let st := emit [ LcdClear ] st in
    let st := set_sensorOnTopLcdLineID
                (Z.rem (sensorOnTopLcdLineID st + cursorLine st) NUM_SENSORS) st in
    set_currLcdView SENSOR_VIEW st
  else
    let '(b, st) := and_then (GO_DOWN (y_adc io)) debounceY st in
    if b then
      if cursorLine st =? 0 then moveCursor st
      else
        let st := set_sensorOnTopLcdLineID
                    (Z.rem (sensorOnTopLcdLineID st + 1) NUM_SENSORS) st in
        printSensorPreviews (emit [ LcdClear ] st)
    else
      let '(b, st) := and_then (GO_UP (y_adc io)) debounceY st in
      if b then
        if cursorLine st =? 1 then moveCursor st
        else
          let st :=
            if sensorOnTopLcdLineID st =? 0
            then set_sensorOnTopLcdLineID 5 st
            else set_sensorOnTopLcdLineID (sensorOnTopLcdLineID st - 1) st in
          printSensorPreviews (emit [ LcdClear ] st)
      else st.

Definition printSensorView (io : Inputs) (st : State) : State :=
  let st := emit [ LcdSetCursor 0 0; LcdPrint "<";
                   LcdPrint (sensor_name (sensorOnTopLcdLineID st) st);
                   LcdPrint ":";
                   LcdSetCursor 1 1;
                   LcdPrintFloat (sensor_value (sensorOnTopLcdLineID st) st) ] st in
  let '(b, st) := and_then (GO_LEFT (x_adc io)) debounceX st in
  if b then
    let st := emit [ LcdClear ] st in
    set_currLcdView MENU (set_cursorLine 0 st)
  else st.

(** One turn of the loop of [lcdDisplayTask]. *)
Definition lcdDisplayTask_turn (io : Inputs) (st : State) : State :=
  let st :=
    match currLcdView st with
    | MENU => printMenu io st
    | SENSOR_VIEW => printSensorView io st
    end in
  vTaskDelay_ms 100 st.

(** The display task takes its turns while the sampling task stores new
    values in the array and time goes by. *)
Inductive Action : Type :=
| Display (io : Inputs)
| Sample (s : BabySide.sensorIDs) (v : Float32.float)
| Elapse (ms : Z).

Definition store_sample (s : BabySide.sensorIDs) (v : Float32.float)
           (st : State) : State :=
  set_sensorValues
    (alter (BabySide.set_value v) (BabySide.idx s) (sensorValues st)) st.

Definition act (a : Action) (st : State) : State :=
  match a with
  | Display io => lcdDisplayTask_turn io st
  | Sample s v => store_sample s v st
  | Elapse ms => set_clock (clock st + ms) st
  end.

Definition run (acts : list Action) (st : State) : State :=
  foldl (fun st a => act a st) st acts.

End BabySideDisplay.

(* ================================================================== *)
(** * ParentSide.ino: the monitor node *)

Module ParentSide.

Import Board FreeRTOS CLib.

Definition NUM_SENSORS : Z := 6.

Definition GO_UP (y : Z) : bool := y <? 500.
Definition GO_DOWN (y : Z) : bool := y =? 4095.
Definition GO_LEFT (x : Z) : bool := x <? 500.

Inductive sensorIDs : Type := NOISE | TEMP | HUMIDITY | MOTION | WATER | LIGHT.

Definition id_num (s : sensorIDs) : Z :=
  match s with
  | NOISE => 0 | TEMP => 1 | HUMIDITY => 2
  | MOTION => 3 | WATER => 4 | LIGHT => 5
  end.

Definition idx (s : sensorIDs) : nat := Z.to_nat (id_num s).

Inductive lcdView : Type :=
| MENU | SENSOR_MENU | SONG_MENU | SENSOR_VIEW | SONG_VIEW | ALARM.

#[global] Instance lcdView_eq_dec : EqDecision lcdView.
Proof. solve_decision. Defined.

#[global] Instance sensorIDs_eq_dec : EqDecision sensorIDs.
Proof. solve_decision. Defined.

(** The functions a [triggerAlarm] pointer can point to. *)
Inductive AlarmCheck : Type :=
| checkNoise_fn | checkTempurature_fn | checkHumidity_fn
| checkMotion_fn | checkWater_fn | checkLight_fn.

Record SensorInfo : Type := {
  idNum : Z;
  name : string;
  value : Float32.float;
  triggerAlarm : AlarmCheck;
  alarm : bool
}.

Definition set_value (v : Float32.float) (s : SensorInfo) : SensorInfo :=
  {| idNum := idNum s; name := name s; value := v;
     triggerAlarm := triggerAlarm s; alarm := alarm s |}.

Definition set_alarm (b : bool) (s : SensorInfo) : SensorInfo :=
  {| idNum := idNum s; name := name s; value := value s;
     triggerAlarm := triggerAlarm s; alarm := b |}.

Definition sensorValues_init : list SensorInfo :=
  [ {| idNum := id_num NOISE; name := "Noise level"; value := Float32.of_Z 0;
       triggerAlarm := checkNoise_fn; alarm := false |};
    {| idNum := id_num TEMP; name := "Tempurature"; value := Float32.of_Z 0;
       triggerAlarm := checkTempurature_fn; alarm := false |};
    {| idNum := id_num HUMIDITY; name := "Humidity"; value := Float32.of_Z 0;
       triggerAlarm := checkHumidity_fn; alarm := false |};
    {| idNum := id_num MOTION; name := "Motion"; value := Float32.of_Z 0;
       triggerAlarm := checkMotion_fn; alarm := false |};
    {| idNum := id_num WATER; name := "Water level"; value := Float32.of_Z 0;
       triggerAlarm := checkWater_fn; alarm := false |};
    {| idNum := id_num LIGHT; name := "Light level"; value := Float32.of_Z 0;
       triggerAlarm := checkLight_fn; alarm := false |} ].

Definition songs : list string :=
  [ "Little Star"; "Mary's Lamb"; "Wheels on Bus" ].

(** The global variables; [clock] is the time since start in
    milliseconds, which [millis()] reads. *)
Record State : Type := {
  incomingMessage : list ascii;
  sensorValues : list SensorInfo;
  currLcdView : lcdView;
  sensorOnTopLcdLineID : Z;
  songOnTopLcdLineID : Z;
  cursorLine : Z;
  lastYInputTime : Z;
  lastXInputTime : Z;
  lastSwInputTime : Z;
  sensorDataQueue : Queue (list ascii);
  clock : Z;
  trace : list Event
}.

(** The globals after [setup]: [incomingMessage] is a zeroed
    [char[10]], the queue is [xQueueCreate(20, sizeof(incomingMessage))]. *)
Definition init : State :=
  {| incomingMessage := replicate 10 NUL;
     sensorValues := sensorValues_init;
     currLcdView := MENU;
     sensorOnTopLcdLineID := 0;
     songOnTopLcdLineID := 0;
     cursorLine := 0;
     lastYInputTime := 0;
     lastXInputTime := 0;
     lastSwInputTime := 0;
     sensorDataQueue := xQueueCreate 20;
     clock := 0;
     trace := [] |}.

Definition set_incomingMessage (x : list ascii) (st : State) : State :=
  {| incomingMessage := x;
     sensorValues := sensorValues st;
     currLcdView := currLcdView st;
     sensorOnTopLcdLineID := sensorOnTopLcdLineID st;
     songOnTopLcdLineID := songOnTopLcdLineID st;
     cursorLine := cursorLine st;
     lastYInputTime := lastYInputTime st;
     lastXInputTime := lastXInputTime st;
     lastSwInputTime := lastSwInputTime st;
     sensorDataQueue := sensorDataQueue st;
     clock := clock st;
     trace := trace st |}.

Definition set_sensorValues (x : list SensorInfo) (st : State) : State :=
  {| incomingMessage := incomingMessage st;
     sensorValues := x;
     currLcdView := currLcdView st;
     sensorOnTopLcdLineID := sensorOnTopLcdLineID st;
     songOnTopLcdLineID := songOnTopLcdLineID st;
     cursorLine := cursorLine st;
     lastYInputTime := lastYInputTime st;
     lastXInputTime := lastXInputTime st;
     lastSwInputTime := lastSwInputTime st;
     sensorDataQueue := sensorDataQueue st;
     clock := clock st;
     trace := trace st |}.

Definition set_currLcdView (x : lcdView) (st : State) : State :=
  {| incomingMessage := incomingMessage st;
     sensorValues := sensorValues st;
     currLcdView := x;
     sensorOnTopLcdLineID := sensorOnTopLcdLineID st;
     songOnTopLcdLineID := songOnTopLcdLineID st;
     cursorLine := cursorLine st;
     lastYInputTime := lastYInputTime st;
     lastXInputTime := lastXInputTime st;
     lastSwInputTime := lastSwInputTime st;
     sensorDataQueue := sensorDataQueue st;
     clock := clock st;
     trace := trace st |}.

Definition set_sensorOnTopLcdLineID (x : Z) (st : State) : State :=
  {| incomingMessage := incomingMessage st;
     sensorValues := sensorValues st;
     currLcdView := currLcdView st;
     sensorOnTopLcdLineID := x;
     songOnTopLcdLineID := songOnTopLcdLineID st;
     cursorLine := cursorLine st;
     lastYInputTime := lastYInputTime st;
     lastXInputTime := lastXInputTime st;
     lastSwInputTime := lastSwInputTime st;
     sensorDataQueue := sensorDataQueue st;
     clock := clock st;
     trace := trace st |}.

Definition set_songOnTopLcdLineID (x : Z) (st : State) : State :=
  {| incomingMessage := incomingMessage st;
     sensorValues := sensorValues st;
     currLcdView := currLcdView st;
     sensorOnTopLcdLineID := sensorOnTopLcdLineID st;
     songOnTopLcdLineID := x;
     cursorLine := cursorLine st;
     lastYInputTime := lastYInputTime st;
     lastXInputTime := lastXInputTime st;
     lastSwInputTime := lastSwInputTime st;
     sensorDataQueue := sensorDataQueue st;
     clock := clock st;
     trace := trace st |}.

Definition set_cursorLine (x : Z) (st : State) : State :=
  {| incomingMessage := incomingMessage st;
     sensorValues := sensorValues st;
     currLcdView := currLcdView st;
     sensorOnTopLcdLineID := sensorOnTopLcdLineID st;
     songOnTopLcdLineID := songOnTopLcdLineID st;
     cursorLine := x;
     lastYInputTime := lastYInputTime st;
     lastXInputTime := lastXInputTime st;
     lastSwInputTime := lastSwInputTime st;
     sensorDataQueue := sensorDataQueue st;
     clock := clock st;
     trace := trace st |}.

Definition set_lastYInputTime (x : Z) (st : State) : State :=
  {| incomingMessage := incomingMessage st;
     sensorValues := sensorValues st;
     currLcdView := currLcdView st;
     sensorOnTopLcdLineID := sensorOnTopLcdLineID st;
     songOnTopLcdLineID := songOnTopLcdLineID st;
     cursorLine := cursorLine st;
     lastYInputTime := x;
     lastXInputTime := lastXInputTime st;
     lastSwInputTime := lastSwInputTime st;
     sensorDataQueue := sensorDataQueue st;
     clock := clock st;
     trace := trace st |}.

Definition set_lastXInputTime (x : Z) (st : State) : State :=
  {| incomingMessage := incomingMessage st;
     sensorValues := sensorValues st;
     currLcdView := currLcdView st;
     sensorOnTopLcdLineID := sensorOnTopLcdLineID st;
     songOnTopLcdLineID := songOnTopLcdLineID st;
     cursorLine := cursorLine st;
     lastYInputTime := lastYInputTime st;
     lastXInputTime := x;
     lastSwInputTime := lastSwInputTime st;
     sensorDataQueue := sensorDataQueue st;
     clock := clock st;
     trace := trace st |}.

Definition set_lastSwInputTime (x : Z) (st : State) : State :=
  {| incomingMessage := incomingMessage st;
     sensorValues := sensorValues st;
     currLcdView := currLcdView st;
     sensorOnTopLcdLineID := sensorOnTopLcdLineID st;
     songOnTopLcdLineID := songOnTopLcdLineID st;
     cursorLine := cursorLine st;
     lastYInputTime := lastYInputTime st;
     lastXInputTime := lastXInputTime st;
     lastSwInputTime := x;
     sensorDataQueue := sensorDataQueue st;
     clock := clock st;
     trace := trace st |}.

Definition set_sensorDataQueue (x : Queue (list ascii)) (st : State) : State :=
  {| incomingMessage := incomingMessage st;
     sensorValues := sensorValues st;
     currLcdView := currLcdView st;
     sensorOnTopLcdLineID := sensorOnTopLcdLineID st;
     songOnTopLcdLineID := songOnTopLcdLineID st;
     cursorLine := cursorLine st;
     lastYInputTime := lastYInputTime st;
     lastXInputTime := lastXInputTime st;
     lastSwInputTime := lastSwInputTime st;
     sensorDataQueue := x;
     clock := clock st;
     trace := trace st |}.

Definition set_clock (x : Z) (st : State) : State :=
  {| incomingMessage := incomingMessage st;
     sensorValues := sensorValues st;
     currLcdView := currLcdView st;
     sensorOnTopLcdLineID := sensorOnTopLcdLineID st;
     songOnTopLcdLineID := songOnTopLcdLineID st;
     cursorLine := cursorLine st;
     lastYInputTime := lastYInputTime st;
     lastXInputTime := lastXInputTime st;
     lastSwInputTime := lastSwInputTime st;
     sensorDataQueue := sensorDataQueue st;
     clock := x;
     trace := trace st |}.

Definition emit (evs : list Event) (st : State) : State :=
  {| incomingMessage := incomingMessage st;
     sensorValues := sensorValues st;
     currLcdView := currLcdView st;
     sensorOnTopLcdLineID := sensorOnTopLcdLineID st;
     songOnTopLcdLineID := songOnTopLcdLineID st;
     cursorLine := cursorLine st;
     lastYInputTime := lastYInputTime st;
     lastXInputTime := lastXInputTime st;
     lastSwInputTime := lastSwInputTime st;
     sensorDataQueue := sensorDataQueue st;
     clock := clock st;
     trace := trace st ++ evs |}.

Definition millis (st : State) : Z := Int32.wrapu32 (clock st).

(** [vTaskDelay(ms / portTICK_PERIOD_MS)]: the task sleeps and the time
    goes by. *)
Definition vTaskDelay_ms (ms : Z) (st : State) : State :=
  emit [ VTaskDelay (Z.quot ms portTICK_PERIOD_MS) ]
       (set_clock (clock st + ms) st).

(** ** The receive callback *)

(** [onDataRecv]: [None] when the copy or the terminator falls outside
    [incomingMessage]. The queue takes a copy of the whole buffer, or
    nothing when it is full. *)
Definition onDataRecv (data : list ascii) (len : Z) (st : State)
  : option State :=
  buf ← memcpy (incomingMessage st) data len;
  buf' ← store buf len NUL;
  let st1 := set_incomingMessage buf' st in
  Some match xQueueSendFromISR (sensorDataQueue st1) buf' with
       | Posted q => set_sensorDataQueue q st1
       | _ => st1
       end.

(** ** debounce *)

(** [debounce(&lastInputTime)]: [ms] is what [millis()] returns, an
    [unsigned long] stored in an [int]; the result and the new value of
    [*lastInputTime]. *)
Definition debounce (ms : Z) (lastInputTime : Z) : bool * Z :=
  let currentTime := Int32.wrap32 ms in
  if Int32.wrap32 (currentTime - lastInputTime) >? 500
  then (true, currentTime)
  else (false, lastInputTime).

(** The three axes: [debounce(&lastYInputTime)] and so on. *)
Definition debounceY (st : State) : bool * State :=
  let '(ok, t) := debounce (millis st) (lastYInputTime st) in
  (ok, if ok then set_lastYInputTime t st else st).

Definition debounceX (st : State) : bool * State :=
  let '(ok, t) := debounce (millis st) (lastXInputTime st) in
  (ok, if ok then set_lastXInputTime t st else st).

Definition debounceSw (st : State) : bool * State :=
  let '(ok, t) := debounce (millis st) (lastSwInputTime st) in
  (ok, if ok then set_lastSwInputTime t st else st).

(** [cond && f()]: [f] runs only when [cond] holds. *)
Definition and_then (cond : bool) (f : State -> bool * State) (st : State)
  : bool * State :=
  if cond then f st else (false, st).

(** ** The alarm checks *)

(** The three statements every check runs when it trips:
    [lcd.clear(); currLcdView = ALARM; sensorValues[k].alarm = true;] *)
Definition raise_alarm (k : sensorIDs) (st : State) : State :=
  let st := emit [ LcdClear ] st in
  let st := set_currLcdView ALARM st in
  set_sensorValues (alter (set_alarm true) (idx k) (sensorValues st)) st.

Definition in_alarm (st : State) : bool :=
  bool_decide (currLcdView st = ALARM).

(** Each check runs between [xSemaphoreTake] and [xSemaphoreGive] on
    [lcdSemaphore], as one step with respect to the display task. *)
Definition checkNoise (value : Float32.float) (st : State) : bool * State :=
  if negb (in_alarm st) && Float32.gt value (Float32.of_Z 3500)
  then (true, raise_alarm NOISE st) else (false, st).

Definition checkTempurature (value : Float32.float) (st : State) : bool * State :=
  if negb (in_alarm st)
     && (Float32.gt value (Float32.of_Z 90) || Float32.lt value (Float32.of_Z 60))
  then (true, raise_alarm TEMP st) else (false, st).

Definition checkHumidity (value : Float32.float) (st : State) : bool * State :=
  if negb (in_alarm st)
     && (Float32.lt value (Float32.of_Z 30) || Float32.gt value (Float32.of_Z 60))
  then (true, raise_alarm HUMIDITY st) else (false, st).

Definition checkMotion (value : Float32.float) (st : State) : bool * State :=
  if negb (in_alarm st) && Float32.ne value (Float32.of_Z 0)
  then (true, raise_alarm MOTION st) else (false, st).

Definition checkWater (value : Float32.float) (st : State) : bool * State :=
  if negb (in_alarm st) && Float32.gt value (Float32.of_Z 300)
  then (true, raise_alarm WATER st) else (false, st).

Definition checkLight (value : Float32.float) (st : State) : bool * State :=
  if negb (in_alarm st) && Float32.gt value (Float32.of_Z 3500)
  then (true, raise_alarm LIGHT st) else (false, st).

(** A call through a [triggerAlarm] pointer. *)
Definition call_triggerAlarm (f : AlarmCheck) : Float32.float -> State -> bool * State :=
  match f with
  | checkNoise_fn => checkNoise
  | checkTempurature_fn => checkTempurature
  | checkHumidity_fn => checkHumidity
  | checkMotion_fn => checkMotion
  | checkWater_fn => checkWater
  | checkLight_fn => checkLight
  end.

(** ** The receive task *)

(** The two [strtok] calls and the conversions of [receiveDataTask];
    [None] when one of the two tokens is NULL. *)
Definition parse_reading (receivedSensorData : list ascii)
  : option (Z * Float32.float) :=
  let '(sensorIdStr, saved) := strtok (cstr receivedSensorData) ":"%char in
  let '(sensorValueStr, _) := strtok saved ":"%char in
  match sensorIdStr, sensorValueStr with
  | Some a, Some b => Some (atoi a, atof b)
  | _, _ => None
  end.

(** What a piece of the receive task comes to: a new state, or an access
    to [sensorValues] at an index that the array does not have. *)
Inductive Outcome : Type :=
| Done (st : State)
| OutOfBounds (index : Z).

(** [sensor = &sensorValues[sensorId]; sensor->value = sensorValue;
    sensor->triggerAlarm(sensorValue);] *)
Definition receive_reading (sensorId : Z) (sensorValue : Float32.float)
           (st : State) : Outcome :=
  match (if 0 <=? sensorId then sensorValues st !! Z.to_nat sensorId else None) with
  | Some sensor =>
      let st1 :=
        set_sensorValues
          (<[Z.to_nat sensorId := set_value sensorValue sensor]> (sensorValues st))
          st in
      Done (snd (call_triggerAlarm (triggerAlarm sensor) sensorValue st1))
  | None => OutOfBounds sensorId
  end.

(** The body of the loop of [receiveDataTask] for one item taken from
    the queue. *)
Definition receiveDataTask_item (receivedSensorData : list ascii) (st : State)
  : Outcome :=
  match parse_reading receivedSensorData with
  | Some (sensorId, sensorValue) =>
      match receive_reading sensorId sensorValue st with
      | Done st1 => Done (vTaskDelay_ms 10 st1)
      | OutOfBounds i => OutOfBounds i
      end
  | None => Done (vTaskDelay_ms 10 st)
  end.

(** One turn of the loop; [None] while the task is blocked on the empty
    queue. *)
Definition receiveDataTask_turn (st : State) : option Outcome :=
  match xQueueReceive (sensorDataQueue st) portMAX_DELAY with
  | Received item q => Some (receiveDataTask_item item (set_sensorDataQueue q st))
  | _ => None
  end.

(** Readings handed to the task one after the other. *)
Fixpoint receive_readings (rs : list (sensorIDs * Float32.float)) (st : State)
  : Outcome :=
  match rs with
  | [] => Done st
  | (k, v) :: rest =>
      match receive_reading (id_num k) v st with
      | Done st1 => receive_readings rest st1
      | OutOfBounds i => OutOfBounds i
      end
  end.

(** ** The display task *)

(** [moveCursor]: from line 0 to 1, or 1 to 0. *)
Definition moveCursor (st : State) : State :=
  let xPos :=
    if bool_decide (currLcdView st = SONG_MENU)
       || bool_decide (currLcdView st = SENSOR_MENU)
    then 1 else 0 in
  let st := emit [ LcdSetCursor xPos (cursorLine st); LcdPrint " " ] st in
  let st := set_cursorLine (Z.rem (cursorLine st + 1) 2) st in
  emit [ LcdSetCursor xPos (cursorLine st); LcdPrint ">" ] st.

(** [sensorValues[i].name] and [songs[i]] as the display reads them; the
    indices the display uses stay within the arrays. *)
Definition sensor_name (i : Z) (st : State) : string :=
  match sensorValues st !! Z.to_nat i with
  | Some s => name s
  | None => ""
  end.

Definition sensor_value (i : Z) (st : State) : Float32.float :=
  match sensorValues st !! Z.to_nat i with
  | Some s => value s
  | None => S754_zero false
  end.

Definition song (i : Z) : string :=
  match songs !! Z.to_nat i with
  | Some s => s
  | None => ""
  end.

Definition printMenu (io : Inputs) (st : State) : State :=
  let st := emit [ LcdSetCursor 1 0; LcdPrint "View Sensors";
                   LcdSetCursor 1 1; LcdPrint "Send Song" ] st in
  let '(b, st) := and_then (negb (sw io)) debounceSw st in
  if b then
    let st := emit [ LcdClear ] st in
    if cursorLine st =? 0
    then set_currLcdView SENSOR_MENU (set_cursorLine 0 st)
    else set_currLcdView SONG_MENU (set_cursorLine 0 st)
  else
    let '(b, st) := and_then (GO_DOWN (y_adc io)) debounceY st in
    if b then
      if cursorLine st =? 0 then moveCursor st else st
    else
      let '(b, st) := and_then (GO_UP (y_adc io)) debounceY st in
      if b then
        if cursorLine st =? 1 then moveCursor st else st
      else st.

Definition printSensorPreviews (st : State) : State :=
  emit [ LcdSetCursor 2 0;
         LcdPrint (sensor_name (sensorOnTopLcdLineID st) st);
         LcdSetCursor 2 1;
         LcdPrint (sensor_name (Z.rem (sensorOnTopLcdLineID st + 1) NUM_SENSORS) st) ]
       st.

Definition printSongPreviews (st : State) : State :=
  emit [ LcdSetCursor 2 0;
         LcdPrint (song (songOnTopLcdLineID st));
         LcdSetCursor 2 1;
         LcdPrint (song (Z.rem (songOnTopLcdLineID st + 1) 3)) ]
       st.

Definition printSensorMenu (io : Inputs) (st : State) : State :=
  let st := emit [ LcdSetCursor 0 0; LcdPrint "<" ] st in
  let st := printSensorPreviews st in
  let '(b, st) := and_then (negb (sw io)) debounceSw st in
  if b then
    let st := emit [ LcdClear ] st in
    let st := set_sensorOnTopLcdLineID
                (Z.rem (sensorOnTopLcdLineID st + cursorLine st) NUM_SENSORS) st in
    set_currLcdView SENSOR_VIEW (set_cursorLine 0 st)
  else
    let '(b, st) := and_then (GO_LEFT (x_adc io)) debounceX st in
    if b then
      let st := emit [ LcdClear ] st in
      set_currLcdView MENU (set_cursorLine 0 st)
    else
      let '(b, st) := and_then (GO_DOWN (y_adc io)) debounceY st in
      if b then
        if cursorLine st =? 0 then moveCursor st
        else
          let st := set_sensorOnTopLcdLineID
                      (Z.rem (sensorOnTopLcdLineID st + 1) NUM_SENSORS) st in
          printSensorPreviews (emit [ LcdClear ] st)
      else
        let '(b, st) := and_then (GO_UP (y_adc io)) debounceY st in
        if b then
          if cursorLine st =? 1 then moveCursor st
          else
            let st :=
              if sensorOnTopLcdLineID st =? 0
              then set_sensorOnTopLcdLineID 5 st
              else set_sensorOnTopLcdLineID (sensorOnTopLcdLineID st - 1) st in
            printSensorPreviews (emit [ LcdClear ] st)
        else st.

Definition printSensorView (io : Inputs) (st : State) : State :=
  let st := emit [ LcdSetCursor 0 0; LcdPrint "<";
                   LcdPrint (sensor_name (sensorOnTopLcdLineID st) st);
                   LcdPrint ":";
                   LcdSetCursor 1 1;
                   LcdPrintFloat (sensor_value (sensorOnTopLcdLineID st) st) ] st in
  let '(b, st) := and_then (GO_LEFT (x_adc io)) debounceX st in
  if b then
    let st := emit [ LcdClear ] st in
    set_currLcdView SENSOR_MENU (set_cursorLine 0 st)
  else st.

Definition printSongMenu (io : Inputs) (st : State) : State :=
  let st := emit [ LcdSetCursor 0 0; LcdPrint "<" ] st in
  let st := printSongPreviews st in
  let '(b, st) := and_then (negb (sw io)) debounceSw st in
  if b then
    let st := emit [ LcdClear ] st in
    let st := set_songOnTopLcdLineID
                (Z.rem (songOnTopLcdLineID st + cursorLine st) 3) st in
    set_currLcdView SONG_VIEW (set_cursorLine 0 st)
  else
    let '(b, st) := and_then (GO_LEFT (x_adc io)) debounceX st in
    if b then
      let st := emit [ LcdClear ] st in
      set_currLcdView MENU (set_cursorLine 0 st)
    else
      let '(b, st) := and_then (GO_DOWN (y_adc io)) debounceY st in
      if b then
        if cursorLine st =? 0 then moveCursor st
        else
          let st := set_songOnTopLcdLineID
                      (Z.rem (songOnTopLcdLineID st + 1) 3) st in
          printSongPreviews (emit [ LcdClear ] st)
      else
        let '(b, st) := and_then (GO_UP (y_adc io)) debounceY st in
        if b then
          if cursorLine st =? 1 then moveCursor st
          else
            let st :=
              if songOnTopLcdLineID st =? 0
              then set_sensorOnTopLcdLineID 2 st
              else set_songOnTopLcdLineID (songOnTopLcdLineID st - 1) st in
            printSongPreviews (emit [ LcdClear ] st)
        else st.

Definition printSongView (io : Inputs) (st : State) : State :=
  let song := song (songOnTopLcdLineID st) in
  let st := emit [ LcdSetCursor 0 0; LcdPrint "<"; LcdPrint "Click to send";
                   LcdSetCursor 1 1; LcdPrint song ] st in
  let '(b, st) := and_then (negb (sw io)) debounceSw st in
  let st :=
    if b then
      let st := emit [ EspNowSend (list_ascii_of_string song);
                       LcdClear; LcdPrint "Song sent!" ] st in
      let st := vTaskDelay_ms 800 st in
      let st := emit [ LcdClear ] st in
      set_currLcdView SONG_MENU (set_cursorLine 0 st)
    else st in
  let '(b, st) := and_then (GO_LEFT (x_adc io)) debounceX st in
  if b then
    let st := emit [ LcdClear ] st in
    set_currLcdView SONG_MENU (set_cursorLine 0 st)
  else st.

(** The loop of [printAlarm] that collects the initials of the sensors
    whose flag is set. *)
Definition initial_of (s : SensorInfo) : string :=
  match name s with
  | String c _ => String c " "
  | EmptyString => " "
  end.

Definition sensorInitials (st : State) : string :=
  foldr (fun s acc => if alarm s then (initial_of s ++ acc)%string else acc)
        ""%string (take (Z.to_nat NUM_SENSORS) (sensorValues st)).

(** The loop of [printAlarm] that resets the flags:
    [for (i = 0; i < NUM_SENSORS; i++) sensorValues[i].alarm = false;] *)
Definition reset_alarm_flags (st : State) : State :=
  foldl (fun st i =>
           set_sensorValues (alter (set_alarm false) i (sensorValues st)) st)
        st (seq 0 (Z.to_nat NUM_SENSORS)).

(** The song-sending branches of [printAlarm]. *)
Definition send_song_to_baby (i : Z) (st : State) : State :=
  let st := emit [ EspNowSend (list_ascii_of_string (song i));
                   LcdClear; LcdPrint (song i);
                   LcdSetCursor 0 1; LcdPrint "sent to baby!" ] st in
  let st := vTaskDelay_ms 800 st in
  emit [ LcdClear ] st.

Definition printAlarm (io : Inputs) (st : State) : State :=
  let st := emit [ LcdSetCursor 0 0; LcdPrint "<Alarm caused by:";
                   LcdSetCursor 1 1; LcdPrint (sensorInitials st) ] st in
  let '(b, st) := and_then (GO_LEFT (x_adc io)) debounceX st in
  if b then
    let st := emit [ LcdClear ] st in
    let st := set_cursorLine 0 st in
    let st := reset_alarm_flags st in
    set_currLcdView MENU st
  else
    let '(b, st) := and_then (negb (sw io)) debounceSw st in
    if b then send_song_to_baby 0 st
    else
      let '(b, st) := and_then (GO_UP (y_adc io)) debounceY st in
      if b then send_song_to_baby 1 st
      else
        let '(b, st) := and_then (GO_DOWN (y_adc io)) debounceY st in
        if b then send_song_to_baby 2 st
        else st.

(** One turn of the loop of [lcdDisplayTask]: the part between
    [xSemaphoreTake] and [xSemaphoreGive], then the delay. *)
Definition lcdDisplayTask_turn (io : Inputs) (st : State) : State :=
  let st :=
    match currLcdView st with
    | MENU =>
        printMenu io (emit [ LcdSetCursor 0 (cursorLine st); LcdPrint ">" ] st)
    | SENSOR_MENU =>
        printSensorMenu io (emit [ LcdSetCursor 1 (cursorLine st); LcdPrint ">" ] st)
    | SENSOR_VIEW => printSensorView io st
    | SONG_MENU =>
        printSongMenu io (emit [ LcdSetCursor 1 (cursorLine st); LcdPrint ">" ] st)
    | SONG_VIEW => printSongView io st
    | ALARM => printAlarm io st
    end in
  vTaskDelay_ms 100 st.

(** One wake-up of [buzzAlarmTask]. *)
Definition buzzAlarmTask_wake (st : State) : State :=
  if in_alarm st then
    let st := emit [ Tone BUZZER_PIN 1000 ] st in
    let st := vTaskDelay_ms 200 st in
    let st := emit [ NoTone BUZZER_PIN ] st in
    vTaskDelay_ms 200 st
  else st.

(** ** The monitor node as a transition system *)

(** What happens on the node: a radio message arrives (the receive
    callback runs), the receive task takes an item from its queue, the
    display task makes a turn with the inputs it reads, the buzzer task is
    woken, or time goes by. A step that would read or write outside an array
    is no step. *)
Inductive Action : Type :=
| Radio (data : list ascii)
| Receive
| Display (io : Inputs)
| Buzz
| Elapse (ms : Z).

Inductive step : State -> Action -> State -> Prop :=
| step_radio st data st' :
    onDataRecv data (Z.of_nat (length data)) st = Some st' ->
    step st (Radio data) st'
| step_receive st st' :
    receiveDataTask_turn st = Some (Done st') ->
    step st Receive st'
| step_display st io :
    step st (Display io) (lcdDisplayTask_turn io st)
| step_buzz st :
    step st Buzz (buzzAlarmTask_wake st)
| step_elapse st ms :
    0 <= ms ->
    step st (Elapse ms) (set_clock (clock st + ms) st).

Inductive reachable : State -> Prop :=
| reachable_init : reachable init
| reachable_step st a st' : reachable st -> step st a st' -> reachable st'.

(** The flag of sensor [k]. *)
Definition alarm_flag (k : sensorIDs) (st : State) : bool :=
  match sensorValues st !! idx k with
  | Some s => alarm s
  | None => false
  end.

(** The array as [setup] leaves it, flags and values apart: six entries,
    each with its own check. *)
Definition check_of (k : sensorIDs) : AlarmCheck :=
  match k with
  | NOISE => checkNoise_fn | TEMP => checkTempurature_fn
  | HUMIDITY => checkHumidity_fn | MOTION => checkMotion_fn
  | WATER => checkWater_fn | LIGHT => checkLight_fn
  end.

Definition table_ok (l : list SensorInfo) : Prop :=
  length l = Z.to_nat NUM_SENSORS /\
  forall k, exists s, l !! idx k = Some s /\ triggerAlarm s = check_of k.

(** The table of section 4.4 of the specification. *)
Definition spec_threshold (k : sensorIDs) (value : Float32.float) : bool :=
  match k with
  | NOISE => Float32.gt value (Float32.of_Z 3500)
  | TEMP => Float32.gt value (Float32.of_Z 90) || Float32.lt value (Float32.of_Z 60)
  | HUMIDITY => Float32.lt value (Float32.of_Z 30) || Float32.gt value (Float32.of_Z 60)
  | MOTION => Float32.ne value (Float32.of_Z 0)
  | WATER => Float32.gt value (Float32.of_Z 300)
  | LIGHT => Float32.gt value (Float32.of_Z 3500)
  end.

End ParentSide.

(* ================================================================== *)
(** * The link between the two nodes *)

Module Link.

Import FreeRTOS.


End Link.

(* ================================================================== *)
(** * Notions used in the statements *)



(** The stamp an accepted event at time [t] leaves. *)
Definition stamp (t : Z) : Z := Int32.wrap32 (Int32.wrapu32 t).

(** [same_alarm st st']: the view and the sensor array are the same. *)
Definition same_alarm (st st' : ParentSide.State) : Prop :=
  ParentSide.currLcdView st' = ParentSide.currLcdView st
  /\ ParentSide.sensorValues st' = ParentSide.sensorValues st.

(** What holds of the monitor node all along: the buffer has its 10
    bytes, the array its six entries with their checks, the indices of the
    menus point into their lists, and the flags follow the view: none is set
    outside the alarm view and exactly one, that of the sensor that raised
    the alarm, inside. *)
Definition one_flag (st : ParentSide.State) : Prop :=
  exists k, ParentSide.alarm_flag k st = true
            /\ forall j, j <> k -> ParentSide.alarm_flag j st = false.

Definition monitor_inv (st : ParentSide.State) : Prop :=
  length (ParentSide.incomingMessage st) = 10%nat
  /\ ParentSide.table_ok (ParentSide.sensorValues st)
  /\ 0 <= ParentSide.sensorOnTopLcdLineID st < 6
  /\ 0 <= ParentSide.songOnTopLcdLineID st < 3
  /\ 0 <= ParentSide.cursorLine st <= 1
  /\ (ParentSide.currLcdView st <> ParentSide.ALARM ->
      forall k, ParentSide.alarm_flag k st = false)
  /\ (ParentSide.currLcdView st = ParentSide.ALARM -> one_flag st).

(** What holds of the sensor node all along: the queue was created with
    10 slots and never holds more, the array has its six entries, and the
    sampling task stands at one of its six sensors or in its delay. *)
Definition pc_ok (pc : BabySide.SamplingPc) : Prop :=
  match pc with
  | BabySide.AtRead k | BabySide.AtSend k => (k < 6)%nat
  | BabySide.AtDelay => True
  end.

Definition queue_inv (st : BabySide.State) : Prop :=
  FreeRTOS.uxLength (BabySide.sensorQueue st) = 10%nat
  /\ (length (FreeRTOS.items (BabySide.sensorQueue st)) <= 10)%nat
  /\ length (BabySide.sensorValues st) = 6%nat
  /\ pc_ok (BabySide.samplingPc st).

(** The value of a float that is a number, in units of [2^-149], the
    spacing of the smallest binary32 numbers: an integer for every well
    formed float. *)
Definition units (v : Float32.float) : Z :=
  match v with
  | S754_finite s m e => cond_Zopp s (Zpos m * 2 ^ (e + 149))
  | _ => 0
  end.

Definition is_number (v : Float32.float) : bool :=
  match v with
  | S754_finite _ _ _ | S754_zero _ => true
  | _ => false
  end.

(** The table of section 4.4 on exact values, [u] in units of [2^-149]. *)
Definition exact_threshold (k : ParentSide.sensorIDs) (u : Z) : bool :=
  match k with
  | ParentSide.NOISE => 3500 * 2 ^ 149 <? u
  | ParentSide.TEMP => (90 * 2 ^ 149 <? u) || (u <? 60 * 2 ^ 149)
  | ParentSide.HUMIDITY => (u <? 30 * 2 ^ 149) || (60 * 2 ^ 149 <? u)
  | ParentSide.MOTION => negb (u =? 0)
  | ParentSide.WATER => 300 * 2 ^ 149 <? u
  | ParentSide.LIGHT => 3500 * 2 ^ 149 <? u
  end.

(** The number a string of digits denotes, read onto [acc]. *)
Definition digits_value (ds : list ascii) (acc : Z) : Z :=
  fold_left (fun a c => a * 10 + CLib.digit_val c) ds acc.

(** The text of a magnitude: integer part, point, two decimals. *)
Definition magnitude_text (h : Z) : list ascii :=
  ArduinoString.dec (h / 100)
    ++ ["."%char; CLib.digit_char (h / 10 mod 10); CLib.digit_char (h mod 10)].

(** The characters [String(float)] prints. *)
Definition float_char (c : ascii) : bool :=
  CLib.isdigit c
  || bool_decide (c ∈ ["."%char; "-"%char; "n"%char; "a"%char; "i"%char; "f"%char]).

(* ================================================================== *)
(** * Scenarios *)

(** Joystick positions: pushed left, down, up, the switch released. *)
Definition push_left : Board.Inputs :=
  {| Board.sw := true; Board.x_adc := 0; Board.y_adc := 2000 |}.

Definition push_down : Board.Inputs :=
  {| Board.sw := true; Board.x_adc := 2000; Board.y_adc := 4095 |}.

Definition push_up : Board.Inputs :=
  {| Board.sw := true; Board.x_adc := 2000; Board.y_adc := 0 |}.

(** The monitor node after a noise reading of 4000 has raised the alarm,
    and then after a temperature reading of 95 during that episode. *)
Definition noise_alarm_open : ParentSide.State :=
  match ParentSide.receive_reading 0 (Float32.of_Z 4000) ParentSide.init with
  | ParentSide.Done st => st
  | ParentSide.OutOfBounds _ => ParentSide.init
  end.

Definition then_hot : ParentSide.State :=
  match ParentSide.receive_reading 1 Float32.f95_0 noise_alarm_open with
  | ParentSide.Done st => st
  | ParentSide.OutOfBounds _ => noise_alarm_open
  end.

(** The alarm raised by the noise sensor, one second after start. *)
Definition alarm_state_example : ParentSide.State :=
  ParentSide.set_clock 1000 noise_alarm_open.

(** The sensor menu with the cursor on line 1, one second after start. *)
Definition sensor_menu_line1 : ParentSide.State :=
  ParentSide.set_clock 1000
    (ParentSide.set_cursorLine 1
       (ParentSide.set_currLcdView ParentSide.SENSOR_MENU ParentSide.init)).

(** A turn of the display task, then a second goes by. *)
Definition scroll_after_second (io : Board.Inputs) (st : ParentSide.State)
  : ParentSide.State :=
  let st := ParentSide.lcdDisplayTask_turn io st in
  ParentSide.set_clock (ParentSide.clock st + 1000) st.

(** The song menu one second after start, sensor top index 4, song top
    index 0, cursor on line 0. *)
Definition song_menu_top : ParentSide.State :=
  ParentSide.set_clock 1000
    (ParentSide.set_sensorOnTopLcdLineID 4
       (ParentSide.set_currLcdView ParentSide.SONG_MENU ParentSide.init)).

(** The sensor node after the monitor node has sent ["Little Star"]. *)
Definition little_star_pending : BabySide.State :=
  match BabySide.onDataReceived (list_ascii_of_string "Little Star") 11
          BabySide.init with
  | Some st => st
  | None => BabySide.init
  end.

(** The reading of sensor [s] with value [v], as the array holds it. *)
Definition reading (s : BabySide.sensorIDs) (v : Float32.float)
  : BabySide.SensorInfo :=
  {| BabySide.id := s;
     BabySide.name :=
       match BabySide.sensorValues_init !! BabySide.idx s with
       | Some r => BabySide.name r
       | None => ""
       end;
     BabySide.value := v |}.

(** Ten readings sampled and queued in a row while the transmit task
    does not run: a whole cycle and the first four sensors of the next, the
    light sensor reading 812 and the others 0. *)
Definition burst_labels : list BabySide.Label :=
  let sp := fun s v => [ BabySide.Sampled s v; BabySide.Pushed (reading s v) ] in
  let z := Float32.of_Z 0 in
  sp BabySide.LIGHT (Float32.of_Z 812) ++ sp BabySide.TEMP z
  ++ sp BabySide.HUMIDITY z ++ sp BabySide.WATER z ++ sp BabySide.MOTION z
  ++ sp BabySide.NOISE z ++ [ BabySide.Slept ]
  ++ sp BabySide.LIGHT (Float32.of_Z 812) ++ sp BabySide.TEMP z
  ++ sp BabySide.HUMIDITY z ++ sp BabySide.WATER z.


Definition temp_95 : BabySide.SensorInfo :=
  reading BabySide.TEMP Float32.f95_0.

(** The scenario of section 8: the sensor node sends a temperature of 95,
    the receive callback of the monitor node queues the message, the receive
    task handles it. *)
Definition temperature_received : option ParentSide.State :=
  st1 ← ParentSide.onDataRecv (BabySide.outgoingMessage temp_95) 7 ParentSide.init;
  match ParentSide.receiveDataTask_turn st1 with
  | Some (ParentSide.Done st2) => Some st2
  | _ => None
  end.

(** ** Further notions and scenarios *)

(** What holds of the display task of the sensor node all along. *)
Definition baby_display_inv (st : BabySideDisplay.State) : Prop :=
  length (BabySideDisplay.sensorValues st) = 6%nat
  /\ 0 <= BabySideDisplay.sensorOnTopLcdLineID st < 6
  /\ 0 <= BabySideDisplay.cursorLine st <= 1.

(** The views the display task of the monitor node can show after a
    turn that began in view [v]. *)
Definition next_views (v : ParentSide.lcdView) : list ParentSide.lcdView :=
  match v with
  | ParentSide.MENU => [ParentSide.MENU; ParentSide.SENSOR_MENU; ParentSide.SONG_MENU]
  | ParentSide.SENSOR_MENU =>
      [ParentSide.SENSOR_MENU; ParentSide.SENSOR_VIEW; ParentSide.MENU]
  | ParentSide.SONG_MENU =>
      [ParentSide.SONG_MENU; ParentSide.SONG_VIEW; ParentSide.MENU]
  | ParentSide.SENSOR_VIEW => [ParentSide.SENSOR_VIEW; ParentSide.SENSOR_MENU]
  | ParentSide.SONG_VIEW => [ParentSide.SONG_VIEW; ParentSide.SONG_MENU]
  | ParentSide.ALARM => [ParentSide.ALARM; ParentSide.MENU]
  end.

(** The payloads handed to [esp_now_send] in a trace, in order. *)
Definition sent_payloads (tr : list Board.Event) : list (list ascii) :=
  flat_map (fun e => match e with Board.EspNowSend p => [p] | _ => [] end) tr.

(** The calls of [tone] and [noTone] in a trace, in order. *)
Definition buzzer_calls (tr : list Board.Event) : list Board.Event :=
  flat_map (fun e => match e with
                     | Board.Tone _ _ | Board.NoTone _ => [e]
                     | _ => []
                     end) tr.

(** Whether the buzzer sounds at the end of a trace. *)
Definition buzzer_on (tr : list Board.Event) : bool :=
  match last (buzzer_calls tr) with
  | Some (Board.Tone _ _) => true
  | _ => false
  end.

(** What a turn or step added to the trace of the monitor node. *)
Definition emitted (st st' : ParentSide.State) : list Board.Event :=
  drop (length (ParentSide.trace st)) (ParentSide.trace st').

(** The three command strings, as bytes. *)
Definition song_names : list (list ascii) :=
  map list_ascii_of_string ParentSide.songs.

(** The step of the buzzer task among the steps of the monitor. *)
Definition is_buzz (a : ParentSide.Action) : bool :=
  match a with
  | ParentSide.Buzz => true
  | _ => false
  end.

(** The switch pressed, the stick at rest. *)
Definition press : Board.Inputs :=
  {| Board.sw := false; Board.x_adc := 2000; Board.y_adc := 2000 |}.

(** The monitor with the song view open on the second song: from the
    start, a second goes by, the cursor goes down to "Send Song", the switch
    opens the song menu, the cursor goes down to the second song, and the
    switch opens its view; a second goes by after each turn. *)
Definition song_view_open : ParentSide.State :=
  foldl (fun st io => scroll_after_second io st)
        (ParentSide.set_clock 1000 ParentSide.init)
        [ push_down; press; push_down; press ].

(** A message arrives at the monitor: the receive callback runs, if the
    message fits. *)
Definition radio (data : list ascii) (st : ParentSide.State) : ParentSide.State :=
  match ParentSide.onDataRecv data (Z.of_nat (length data)) st with
  | Some st1 => st1
  | None => st
  end.

(** The receive task takes an item, if there is one and its index is one
    of the array. *)
Definition receive (st : ParentSide.State) : ParentSide.State :=
  match ParentSide.receiveDataTask_turn st with
  | Some (ParentSide.Done st1) => st1
  | _ => st
  end.

(** A noise reading of 4000 sent to the monitor at start and handled by
    its receive task. *)
Definition noise_alarm_delivered : ParentSide.State :=
  receive (radio (list_ascii_of_string "0:4000.00") ParentSide.init).

(** Twenty-one readings sent to the monitor at start while its receive
    task does not run. *)
Definition flooded : ParentSide.State :=
  Nat.iter 21 (radio (list_ascii_of_string "1:72.50")) ParentSide.init.

(** The two tables of song [songNum]. *)
Definition song_notes (songNum : Z) : list Z :=
  if songNum =? 1 then Songs.song1Notes
  else if songNum =? 2 then Songs.song2Notes
  else if songNum =? 3 then Songs.song3Notes
  else [].

Definition song_durations (songNum : Z) : list Z :=
  if songNum =? 1 then Songs.song1NoteDurations
  else if songNum =? 2 then Songs.song2NoteDurations
  else if songNum =? 3 then Songs.song3NoteDurations
  else [].

(** An item of the receive queue of the monitor: 10 bytes with a NUL
    among them. *)
Definition item_ok (item : list ascii) : Prop :=
  length item = 10%nat /\ CLib.NUL ∈ item.

(** What holds of the receive buffer and of the receive queue of the
    monitor all along. *)
Definition queue_ok (st : ParentSide.State) : Prop :=
  length (ParentSide.incomingMessage st) = 10%nat
  /\ FreeRTOS.uxLength (ParentSide.sensorDataQueue st) = 20%nat
  /\ (length (FreeRTOS.items (ParentSide.sensorDataQueue st)) <= 20)%nat
  /\ Forall item_ok (FreeRTOS.items (ParentSide.sensorDataQueue st)).

(** What a wake-up of the command task plays, by the string in the
    buffer. *)
Definition command_effect (msg : list ascii) : list Board.Event :=
  if bool_decide (msg = list_ascii_of_string "Little Star")
  then Songs.playSong Board.BUZZER_PIN 1
  else if bool_decide (msg = list_ascii_of_string "Mary's Lamb")
  then Songs.playSong Board.BUZZER_PIN 2
  else if bool_decide (msg = list_ascii_of_string "Wheels on Bus")
  then Songs.playSong Board.BUZZER_PIN 3
  else [ Board.SerialPrintln "Invalid song selection." ].


(** The part of a wake-up of [playSongTask] before [messageReceived =
    false]: the comparisons and the song. The receive callback can run
    between this part and the reset of the flag. *)
Definition playSongTask_select (st : BabySide.State) : BabySide.State :=
  if CLib.strcmp (BabySide.incomingMessage st) (list_ascii_of_string "Little Star") =? 0
  then BabySide.emit (Songs.playSong Board.BUZZER_PIN 1) st
  else if CLib.strcmp (BabySide.incomingMessage st) (list_ascii_of_string "Mary's Lamb") =? 0
  then BabySide.emit (Songs.playSong Board.BUZZER_PIN 2) st
  else if CLib.strcmp (BabySide.incomingMessage st) (list_ascii_of_string "Wheels on Bus") =? 0
  then BabySide.emit (Songs.playSong Board.BUZZER_PIN 3) st
  else BabySide.emit [ Board.SerialPrintln "Invalid song selection." ] st.

(** The samples of a run of the sensor node, and a reading as a pair. *)
Definition sampled (ls : list BabySide.Label)
  : list (BabySide.sensorIDs * Float32.float) :=
  flat_map (fun l => match l with BabySide.Sampled s v => [(s, v)] | _ => [] end) ls.

Definition reading_of (r : BabySide.SensorInfo)
  : BabySide.sensorIDs * Float32.float :=
  (BabySide.id r, BabySide.value r).

(** Every sensor has its entry in the array at the index that is its id. *)
Definition table_ids (tbl : list BabySide.SensorInfo) : Prop :=
  forall s, exists r, tbl !! BabySide.idx s = Some r /\ BabySide.id r = s.

(** How the samples, the readings queued and the messages sent stand to
    one another after the steps [ls] from the start. *)
Definition sample_inv (ls : list BabySide.Label) (st : BabySide.State) : Prop :=
  table_ids (BabySide.sensorValues st)
  /\ (forall i s v, sampled ls !! i = Some (s, v) ->
                    BabySide.sampling_order !! (i mod 6)%nat = Some s)
  /\ sent_payloads (BabySide.trace st)
     = map BabySide.outgoingMessage (BabySide.transmitted ls)
  /\ match BabySide.samplingPc st with
     | BabySide.AtRead k =>
         map reading_of (BabySide.pushed ls) = sampled ls
         /\ (length (sampled ls) mod 6 = k)%nat
     | BabySide.AtSend k =>
         (length (BabySide.pushed ls) mod 6 = k)%nat
         /\ exists r,
              BabySide.sampling_order !! k = Some (BabySide.id r)
              /\ BabySide.sensorValues st !! BabySide.idx (BabySide.id r) = Some r
              /\ sampled ls = map reading_of (BabySide.pushed ls) ++ [ reading_of r ]
     | BabySide.AtDelay =>
         map reading_of (BabySide.pushed ls) = sampled ls
         /\ (length (sampled ls) mod 6 = 0)%nat
     end.

(** The light sensor is read, its reading is queued, and the transmit
    task sends it. *)
Definition light_812_sent : list BabySide.Label :=
  [ BabySide.Sampled BabySide.LIGHT (Float32.of_Z 812);
    BabySide.Pushed (reading BabySide.LIGHT (Float32.of_Z 812));
    BabySide.Transmitted (reading BabySide.LIGHT (Float32.of_Z 812)) ].

(** The initial under which the alarm screen lists a sensor. *)
Definition sensor_initial (k : ParentSide.sensorIDs) : string :=
  match k with
  | ParentSide.NOISE => "N "
  | ParentSide.TEMP => "T "
  | ParentSide.HUMIDITY => "H "
  | ParentSide.MOTION => "M "
  | ParentSide.WATER => "W "
  | ParentSide.LIGHT => "L "
  end.

(** The names of the array are those [setup] found there. *)
Definition names_ok (st : ParentSide.State) : Prop :=
  map ParentSide.name (ParentSide.sensorValues st)
  = map ParentSide.name ParentSide.sensorValues_init.





#[global] Instance float_eq_dec : EqDecision Float32.float.
Proof. solve_decision. Defined.

(** The thresholds of the six checks on an integer reading. *)
Definition int_threshold (k : ParentSide.sensorIDs) (n : Z) : bool :=
  match k with
  | ParentSide.NOISE => 3500 <? n
  | ParentSide.TEMP => (90 <? n) || (n <? 60)
  | ParentSide.HUMIDITY => (n <? 30) || (60 <? n)
  | ParentSide.MOTION => negb (n =? 0)
  | ParentSide.WATER => 300 <? n
  | ParentSide.LIGHT => 3500 <? n
  end.

(** What is checked of each value [n] that [analogRead] can return: its
    text has at most 7 characters, reads back as the same float, and the six
    checks compare it as the integer it is. *)
Definition analog_ok (n : Z) : bool :=
  (length (ArduinoString.String_float (Float32.of_Z n)) <=? 7)%nat
  && bool_decide (Float32.round2 (Float32.of_Z n) = Float32.of_Z n)
  && forallb (fun k => Bool.eqb (ParentSide.spec_threshold k (Float32.of_Z n))
                                (int_threshold k n))
       [ ParentSide.NOISE; ParentSide.TEMP; ParentSide.HUMIDITY;
         ParentSide.MOTION; ParentSide.WATER; ParentSide.LIGHT ].

(** What the joystick handling of the display task works on: the two
    top indices, the cursor line and the three stamps. *)
Definition menu_state (st : ParentSide.State) : Z * Z * Z * (Z * Z * Z) :=
  (ParentSide.sensorOnTopLcdLineID st, ParentSide.songOnTopLcdLineID st,
   ParentSide.cursorLine st,
   (ParentSide.lastYInputTime st, ParentSide.lastXInputTime st,
    ParentSide.lastSwInputTime st)).

(** The readings of the array: names and values, flags apart. *)
Definition readings (st : ParentSide.State) : list (string * Float32.float) :=
  map (fun s => (ParentSide.name s, ParentSide.value s)) (ParentSide.sensorValues st).

(* ================================================================== *)
(** * Properties *)

(** ** Machine integers *)

Section Int32Facts.

Import Int32.

Lemma wrap32_unique (z d : Z) :
  (z - d) mod modulus = 0 -> INT_MIN <= d <= INT_MAX -> wrap32 z = d.
Proof.
  unfold wrap32, INT_MIN, INT_MAX, modulus, half_modulus.
  intros Hm Hd.
  apply Z.mod_divide in Hm; [|lia]. destruct Hm as [q Hq].
  replace (z + 2 ^ 31) with ((d + 2 ^ 31) + q * 2 ^ 32) by lia.
  rewrite Z_mod_plus_full. rewrite Z.mod_small; lia.
Qed.

Lemma wrap32_small (z : Z) : INT_MIN <= z <= INT_MAX -> wrap32 z = z.
Proof. intros H. apply wrap32_unique; [|done]. by rewrite Z.sub_diag. Qed.

Lemma wrap32_congr (z : Z) : (wrap32 z - z) mod modulus = 0.
Proof.
  unfold wrap32, modulus, half_modulus.
  pose proof (Z.div_mod (z + 2 ^ 31) (2 ^ 32) ltac:(lia)) as H.
  replace ((z + 2 ^ 31) mod 2 ^ 32 - 2 ^ 31 - z)
    with (- ((z + 2 ^ 31) / 2 ^ 32) * 2 ^ 32) by lia.
  apply Z_mod_mult.
Qed.

Lemma wrapu32_congr (z : Z) : (wrapu32 z - z) mod modulus = 0.
Proof.
  unfold wrapu32, modulus.
  pose proof (Z.div_mod z (2 ^ 32) ltac:(lia)) as H.
  replace (z mod 2 ^ 32 - z) with (- (z / 2 ^ 32) * 2 ^ 32) by lia.
  apply Z_mod_mult.
Qed.

Lemma mod0_add (a b : Z) :
  a mod modulus = 0 -> b mod modulus = 0 -> (a + b) mod modulus = 0.
Proof.
  unfold modulus. intros Ha Hb.
  rewrite Z.add_mod by lia. rewrite Ha, Hb. reflexivity.
Qed.

Lemma mod0_opp (a : Z) : a mod modulus = 0 -> (- a) mod modulus = 0.
Proof.
  unfold modulus. intros Ha.
  apply Z.mod_divide in Ha; [|lia]. destruct Ha as [q ->].
  replace (- (q * 2 ^ 32)) with ((- q) * 2 ^ 32) by lia. apply Z_mod_mult.
Qed.

(** The difference [debounce] computes, between the [int] copies of two
    readings of [millis()], is the time between them, as long as that is
    less than [2^31] ms. *)
Lemma elapsed_wrap (t1 t2 : Z) :
  0 <= t2 - t1 < half_modulus ->
  wrap32 (wrap32 (wrapu32 t2) - wrap32 (wrapu32 t1)) = t2 - t1.
Proof.
  intros H. apply wrap32_unique.
  - replace (wrap32 (wrapu32 t2) - wrap32 (wrapu32 t1) - (t2 - t1))
      with (((wrap32 (wrapu32 t2) - wrapu32 t2) + (wrapu32 t2 - t2))
            + - ((wrap32 (wrapu32 t1) - wrapu32 t1) + (wrapu32 t1 - t1)))
      by lia.
    apply mod0_add; [|apply mod0_opp];
      apply mod0_add; auto using wrap32_congr, wrapu32_congr.
  - unfold INT_MIN, INT_MAX, half_modulus in *. lia.
Qed.

End Int32Facts.

(** ** Debounce *)

Section Debounce.

Import Int32.


Lemma debounce_elapsed (t1 t2 : Z) :
  0 <= t2 - t1 < half_modulus ->
  ParentSide.debounce (wrapu32 t2) (stamp t1)
  = if t2 - t1 >? 500 then (true, stamp t2) else (false, stamp t1).
Proof.
  intros H. unfold ParentSide.debounce, stamp.
  rewrite (elapsed_wrap t1 t2 H). reflexivity.
Qed.

Lemma debounce_accept_stamp (ms last : Z) :
  fst (ParentSide.debounce ms last) = true ->
  snd (ParentSide.debounce ms last) = wrap32 ms.
Proof.
  unfold ParentSide.debounce.
  destruct (wrap32 (wrap32 ms - last) >? 500); [reflexivity|discriminate].
Qed.

Lemma debounce_reject_keeps (ms last : Z) :
  fst (ParentSide.debounce ms last) = false ->
  snd (ParentSide.debounce ms last) = last.
Proof.
  unfold ParentSide.debounce.
  destruct (wrap32 (wrap32 ms - last) >? 500); [discriminate|reflexivity].
Qed.

End Debounce.




(** ** The receive path of the monitor node *)

Section ReceivePath.

Import CLib FreeRTOS ParentSide.

Lemma memcpy_Some (dst src : list ascii) (n : Z) :
  0 <= n -> n <= Z.of_nat (length dst) -> n <= Z.of_nat (length src) ->
  memcpy dst src n = Some (take (Z.to_nat n) src ++ drop (Z.to_nat n) dst).
Proof.
  intros H0 H1 H2. unfold memcpy.
  destruct (Z.leb_spec 0 n); [|lia].
  destruct (Z.leb_spec n (Z.of_nat (length dst))); [|lia].
  destruct (Z.leb_spec n (Z.of_nat (length src))); [|lia].
  reflexivity.
Qed.

Lemma memcpy_None (dst src : list ascii) (n : Z) :
  Z.of_nat (length dst) < n -> memcpy dst src n = None.
Proof.
  intros H. unfold memcpy.
  destruct (Z.leb_spec n (Z.of_nat (length dst))); [lia|].
  by rewrite andb_false_r.
Qed.

Lemma memcpy_length (dst src buf : list ascii) (n : Z) :
  memcpy dst src n = Some buf -> length buf = length dst.
Proof.
  unfold memcpy.
  destruct (Z.leb_spec 0 n); [|discriminate].
  destruct (Z.leb_spec n (Z.of_nat (length dst))); [|discriminate].
  destruct (Z.leb_spec n (Z.of_nat (length src))); [|discriminate].
  cbn. intros [= <-].
  rewrite length_app, length_take, length_drop. lia.
Qed.

Lemma store_Some_iff (buf : list ascii) (i : Z) (c : ascii) :
  is_Some (store buf i c) <-> 0 <= i < Z.of_nat (length buf).
Proof.
  unfold store.
  destruct (Z.leb_spec 0 i), (Z.ltb_spec i (Z.of_nat (length buf))); cbn;
    split; intros Hs; try lia; try done; by destruct Hs.
Qed.

Lemma onDataRecv_Some_iff (st : State) (data : list ascii) (len : Z) :
  0 <= len <= Z.of_nat (length data) ->
  (is_Some (onDataRecv data len st)
   <-> len < Z.of_nat (length (incomingMessage st))).
Proof.
  intros Hlen. unfold onDataRecv.
  destruct (memcpy (incomingMessage st) data len) as [buf|] eqn:Ecpy; cbn.
  - pose proof (memcpy_length _ _ _ _ Ecpy) as Hl.
    destruct (store buf len NUL) as [buf'|] eqn:Est; cbn.
    + assert (is_Some (store buf len NUL)) as Hs by (rewrite Est; eauto).
      apply store_Some_iff in Hs. split; [lia|eauto].
    + split; [by intros []|]. intros H.
      assert (is_Some (store buf len NUL)) as Hs by (apply store_Some_iff; lia).
      rewrite Est in Hs. by destruct Hs.
  - split; [by intros []|]. intros H.
    rewrite memcpy_Some in Ecpy by lia. discriminate.
Qed.

End ReceivePath.

(** C10. [onDataRecv] copies [len] bytes into the 10-byte
    [incomingMessage] and writes the terminator at index [len]: the two
    writes stay inside the buffer exactly when [len <= 9]. With [len = 10]
    the copy fits and the terminator is written past the end; with a longer
    payload the copy itself runs past the end. A payload of 10 bytes, which
    the 18-byte wire format allows, is such a case. *)
Theorem onDataRecv_bounds (st : ParentSide.State) (data : list ascii) (len : Z) :
  length (ParentSide.incomingMessage st) = 10%nat ->
  0 <= len <= Z.of_nat (length data) ->
  (is_Some (ParentSide.onDataRecv data len st) <-> len <= 9)
  /\ (len = 10 ->
      exists buf, CLib.memcpy (ParentSide.incomingMessage st) data len = Some buf
                  /\ CLib.store buf len CLib.NUL = None)
  /\ (10 < len -> CLib.memcpy (ParentSide.incomingMessage st) data len = None)
  /\ (exists payload : list ascii,
        (length payload <= 18)%nat
        /\ ParentSide.onDataRecv payload (Z.of_nat (length payload)) st = None).
Proof.
  intros Hbuf Hlen.
  assert (Hiff : is_Some (ParentSide.onDataRecv data len st) <-> len <= 9).
  { rewrite onDataRecv_Some_iff by done. rewrite Hbuf. lia. }
  split; [exact Hiff|]. split; [|split].
  - intros ->. rewrite memcpy_Some by (rewrite ?Hbuf; lia).
    eexists; split; [reflexivity|].
    destruct (CLib.store _ 10 CLib.NUL) eqn:E; [|reflexivity].
    assert (is_Some (CLib.store (take (Z.to_nat 10) data
              ++ drop (Z.to_nat 10) (ParentSide.incomingMessage st)) 10 CLib.NUL))
      as Hs by (rewrite E; eauto).
    apply store_Some_iff in Hs.
    rewrite length_app, length_take, length_drop, Hbuf in Hs. lia.
  - intros H. apply memcpy_None. rewrite Hbuf. lia.
  - exists (list_ascii_of_string "0:10000.00"). split; [cbn; lia|].
    destruct (ParentSide.onDataRecv (list_ascii_of_string "0:10000.00")
                (Z.of_nat (length (list_ascii_of_string "0:10000.00"))) st)
      eqn:E; [|reflexivity].
    assert (is_Some (ParentSide.onDataRecv (list_ascii_of_string "0:10000.00")
              (Z.of_nat (length (list_ascii_of_string "0:10000.00"))) st))
      as Hs by (rewrite E; eauto).
    apply onDataRecv_Some_iff in Hs; [|cbn; lia].
    rewrite Hbuf in Hs. cbn in Hs. lia.
Qed.

Lemma onDataRecv_bounds_witness :
  is_Some (ParentSide.onDataRecv (list_ascii_of_string "1:95.00") 7 ParentSide.init)
  <-> 7 <= 9.
Proof.
  apply (onDataRecv_bounds ParentSide.init (list_ascii_of_string "1:95.00") 7).
  - reflexivity.
  - cbn. lia.
Defined.

Section ReceiveTask.

Import CLib FreeRTOS ParentSide.

Lemma table_ok_length (l : list SensorInfo) :
  table_ok l -> length l = 6%nat.
Proof. by intros [H _]. Qed.

Lemma receive_reading_in_range (st : State) (i : Z) (v : Float32.float) :
  length (sensorValues st) = 6%nat ->
  0 <= i <= 5 -> exists st', receive_reading i v st = Done st'.
Proof.
  intros Hl Hi. unfold receive_reading.
  destruct (Z.leb_spec 0 i); [|lia].
  destruct (sensorValues st !! Z.to_nat i) as [s|] eqn:E; [eauto|].
  apply lookup_ge_None in E. lia.
Qed.

Lemma receive_reading_out_of_range (st : State) (i : Z) (v : Float32.float) :
  length (sensorValues st) = 6%nat ->
  ~ (0 <= i <= 5) -> receive_reading i v st = OutOfBounds i.
Proof.
  intros Hl Hi. unfold receive_reading.
  destruct (Z.leb_spec 0 i); [|reflexivity].
  destruct (sensorValues st !! Z.to_nat i) as [s|] eqn:E; [|reflexivity].
  apply lookup_lt_Some in E. lia.
Qed.

End ReceiveTask.

(** C9. In [receiveDataTask] the id token of a message with two tokens is
    converted by [atoi] and indexes [sensorValues] with no check: the store
    and the call of the check stay inside the 6-element array exactly when
    the number is in 0..5, and otherwise the access is out of bounds, as for
    the messages ["7:1.00"] and ["-1:1.00"]. *)
Theorem receiveDataTask_index
  (st : ParentSide.State) (item idStr valStr saved saved' : list ascii) :
  length (ParentSide.sensorValues st) = 6%nat ->
  CLib.strtok (CLib.cstr item) ":"%char = (Some idStr, saved) ->
  CLib.strtok saved ":"%char = (Some valStr, saved') ->
  let sensorId := CLib.atoi idStr in
  ((exists st', ParentSide.receiveDataTask_item item st = ParentSide.Done st')
   <-> 0 <= sensorId <= 5)
  /\ (~ (0 <= sensorId <= 5) ->
      ParentSide.receiveDataTask_item item st = ParentSide.OutOfBounds sensorId)
  /\ ParentSide.receiveDataTask_item (list_ascii_of_string "7:1.00") st
     = ParentSide.OutOfBounds 7
  /\ ParentSide.receiveDataTask_item (list_ascii_of_string "-1:1.00") st
     = ParentSide.OutOfBounds (-1).
Proof.
  intros Hl Htok1 Htok2 sensorId.
  assert (Hitem : ParentSide.receiveDataTask_item item st
                  = match ParentSide.receive_reading sensorId (CLib.atof valStr) st with
                    | ParentSide.Done st1 =>
                        ParentSide.Done (ParentSide.vTaskDelay_ms 10 st1)
                    | ParentSide.OutOfBounds i => ParentSide.OutOfBounds i
                    end).
  { unfold ParentSide.receiveDataTask_item, ParentSide.parse_reading.
    rewrite Htok1, Htok2. reflexivity. }
  assert (Hout : ~ (0 <= sensorId <= 5) ->
                 ParentSide.receiveDataTask_item item st
                 = ParentSide.OutOfBounds sensorId).
  { intros Hi. rewrite Hitem.
    by rewrite (receive_reading_out_of_range st sensorId _ Hl Hi). }
  split; [|split; [exact Hout|split]].
  - split.
    + intros [st' Hd].
      destruct (decide (0 <= sensorId <= 5)) as [|Hn]; [done|].
      rewrite (Hout Hn) in Hd. discriminate.
    + intros Hi.
      destruct (receive_reading_in_range st sensorId (CLib.atof valStr) Hl Hi)
        as [st1 H1].
      rewrite Hitem, H1. eauto.
  - unfold ParentSide.receiveDataTask_item.
    replace (ParentSide.parse_reading (list_ascii_of_string "7:1.00"))
      with (Some (7, CLib.atof (list_ascii_of_string "1.00")))
      by (vm_compute; reflexivity).
    rewrite receive_reading_out_of_range; [reflexivity|exact Hl|lia].
  - unfold ParentSide.receiveDataTask_item.
    replace (ParentSide.parse_reading (list_ascii_of_string "-1:1.00"))
      with (Some (-1, CLib.atof (list_ascii_of_string "1.00")))
      by (vm_compute; reflexivity).
    rewrite receive_reading_out_of_range; [reflexivity|exact Hl|lia].
Qed.

Lemma receiveDataTask_index_witness :
  (exists st', ParentSide.receiveDataTask_item (list_ascii_of_string "1:95.00")
                 ParentSide.init = ParentSide.Done st')
  <-> 0 <= CLib.atoi (list_ascii_of_string "1") <= 5.
Proof.
  apply (receiveDataTask_index ParentSide.init (list_ascii_of_string "1:95.00")
           (list_ascii_of_string "1") (list_ascii_of_string "95.00")
           (list_ascii_of_string "95.00") []).
  - reflexivity.
  - vm_compute. reflexivity.
  - vm_compute. reflexivity.
Defined.

(** ** The display task of the monitor node *)

Section DisplayFacts.

Import Board CLib FreeRTOS ParentSide.

Lemma debounceX_accept (st : State) :
  fst (debounce (millis st) (lastXInputTime st)) = true ->
  debounceX st = (true, set_lastXInputTime (Int32.wrap32 (millis st)) st).
Proof.
  intros H. unfold debounceX.
  pose proof (debounce_accept_stamp _ _ H) as Hs.
  destruct (debounce (millis st) (lastXInputTime st)) as [ok t].
  cbn in H, Hs. subst. reflexivity.
Qed.

Lemma debounceY_accept (st : State) :
  fst (debounce (millis st) (lastYInputTime st)) = true ->
  debounceY st = (true, set_lastYInputTime (Int32.wrap32 (millis st)) st).
Proof.
  intros H. unfold debounceY.
  pose proof (debounce_accept_stamp _ _ H) as Hs.
  destruct (debounce (millis st) (lastYInputTime st)) as [ok t].
  cbn in H, Hs. subst. reflexivity.
Qed.

Lemma debounceX_reject (st : State) :
  fst (debounce (millis st) (lastXInputTime st)) = false ->
  debounceX st = (false, st).
Proof.
  intros H. unfold debounceX.
  destruct (debounce (millis st) (lastXInputTime st)) as [ok t].
  cbn in H. subst. reflexivity.
Qed.

Lemma GO_UP_not_DOWN (y : Z) : GO_UP y = true -> GO_DOWN y = false.
Proof. unfold GO_UP, GO_DOWN. lia. Qed.

Lemma GO_DOWN_not_UP (y : Z) : GO_DOWN y = true -> GO_UP y = false.
Proof. unfold GO_UP, GO_DOWN. lia. Qed.

Lemma six_entries {A : Type} (l : list A) :
  length l = 6%nat -> exists a b c d e f, l = [a; b; c; d; e; f].
Proof.
  intros H.
  do 6 (destruct l as [|? l]; [discriminate|]).
  destruct l; [|discriminate]. eauto 10.
Qed.

(** The reset loop clears the six flags and nothing else. *)
Lemma reset_alarm_flags_eq (st : State) :
  length (sensorValues st) = 6%nat ->
  reset_alarm_flags st
  = set_sensorValues (map (set_alarm false) (sensorValues st)) st.
Proof.
  intros H. destruct (six_entries _ H) as (a & b & c & d & e & f & Hl).
  destruct st; cbn in *. subst. reflexivity.
Qed.

End DisplayFacts.

Ltac display_turn Hv :=
  unfold ParentSide.lcdDisplayTask_turn; rewrite Hv;
  unfold ParentSide.printSensorMenu, ParentSide.printSongMenu,
    ParentSide.printAlarm.

Ltac accept_X Hd :=
  match goal with
  | |- context [ParentSide.debounceX ?s] =>
      rewrite (debounceX_accept s) by exact Hd
  end.

Ltac accept_Y Hd :=
  match goal with
  | |- context [ParentSide.debounceY ?s] =>
      rewrite (debounceY_accept s) by exact Hd
  end.

(** An accepted left input in the alarm view: what the turn of the display
    task does to the sensors, the view, the cursor and the top indices. *)
Lemma alarm_left_accepted (io : Board.Inputs) (st : ParentSide.State) :
  ParentSide.currLcdView st = ParentSide.ALARM ->
  length (ParentSide.sensorValues st) = 6%nat ->
  ParentSide.GO_LEFT (Board.x_adc io) = true ->
  fst (ParentSide.debounce (ParentSide.millis st) (ParentSide.lastXInputTime st)) = true ->
  let st' := ParentSide.lcdDisplayTask_turn io st in
  ParentSide.sensorValues st'
  = map (ParentSide.set_alarm false) (ParentSide.sensorValues st)
  /\ ParentSide.currLcdView st' = ParentSide.MENU
  /\ ParentSide.cursorLine st' = 0
  /\ ParentSide.sensorOnTopLcdLineID st' = ParentSide.sensorOnTopLcdLineID st
  /\ ParentSide.songOnTopLcdLineID st' = ParentSide.songOnTopLcdLineID st.
Proof.
  intros Hv Hl Hx Hd st'. subst st'. display_turn Hv.
  rewrite Hx. cbn [ParentSide.and_then]. accept_X Hd.
  rewrite reset_alarm_flags_eq by exact Hl. cbn. done.
Qed.

(** C8. A left input accepted while the display shows the alarm makes the
    same turn of the display task clear the six alarm flags, go back to the
    menu and put the cursor on line 0; the value, name, id and check of every
    sensor and the two top indices stay as they were. *)
Theorem alarm_reset (io : Board.Inputs) (st : ParentSide.State) :
  ParentSide.currLcdView st = ParentSide.ALARM ->
  length (ParentSide.sensorValues st) = 6%nat ->
  ParentSide.GO_LEFT (Board.x_adc io) = true ->
  fst (ParentSide.debounce (ParentSide.millis st) (ParentSide.lastXInputTime st)) = true ->
  let st' := ParentSide.lcdDisplayTask_turn io st in
  ParentSide.currLcdView st' = ParentSide.MENU
  /\ ParentSide.cursorLine st' = 0
  /\ (forall k, ParentSide.alarm_flag k st' = false)
  /\ ParentSide.sensorValues st'
     = map (ParentSide.set_alarm false) (ParentSide.sensorValues st)
  /\ map ParentSide.value (ParentSide.sensorValues st')
     = map ParentSide.value (ParentSide.sensorValues st)
  /\ map ParentSide.name (ParentSide.sensorValues st')
     = map ParentSide.name (ParentSide.sensorValues st)
  /\ map ParentSide.idNum (ParentSide.sensorValues st')
     = map ParentSide.idNum (ParentSide.sensorValues st)
  /\ map ParentSide.triggerAlarm (ParentSide.sensorValues st')
     = map ParentSide.triggerAlarm (ParentSide.sensorValues st)
  /\ ParentSide.sensorOnTopLcdLineID st' = ParentSide.sensorOnTopLcdLineID st
  /\ ParentSide.songOnTopLcdLineID st' = ParentSide.songOnTopLcdLineID st.
Proof.
  intros Hv Hl Hx Hd st'.
  destruct (alarm_left_accepted io st Hv Hl Hx Hd) as (Hsv & H1 & H2 & H3 & H4).
  fold st' in Hsv, H1, H2, H3, H4.
  rewrite Hsv, !map_map. cbn.
  repeat split; try done.
  intros k. unfold ParentSide.alarm_flag. rewrite Hsv, list_lookup_fmap.
  by destruct (ParentSide.sensorValues st !! ParentSide.idx k).
Qed.

Lemma alarm_reset_witness :
  ParentSide.currLcdView
    (ParentSide.lcdDisplayTask_turn push_left alarm_state_example)
  = ParentSide.MENU.
Proof.
  apply (alarm_reset push_left alarm_state_example); reflexivity.
Defined.

(** The page scrolls of the sensor menu. *)
Lemma sensor_page_down (io : Board.Inputs) (st : ParentSide.State) :
  ParentSide.currLcdView st = ParentSide.SENSOR_MENU ->
  ParentSide.cursorLine st = 1 ->
  Board.sw io = true ->
  ParentSide.GO_LEFT (Board.x_adc io) = false ->
  ParentSide.GO_DOWN (Board.y_adc io) = true ->
  fst (ParentSide.debounce (ParentSide.millis st) (ParentSide.lastYInputTime st)) = true ->
  let st' := ParentSide.lcdDisplayTask_turn io st in
  ParentSide.sensorOnTopLcdLineID st'
  = Z.rem (ParentSide.sensorOnTopLcdLineID st + 1) 6
  /\ ParentSide.songOnTopLcdLineID st' = ParentSide.songOnTopLcdLineID st
  /\ ParentSide.cursorLine st' = 1.
Proof.
  intros Hv Hcur Hsw Hx Hdown Hd st'. subst st'.
  display_turn Hv.
  rewrite Hsw, Hx, Hdown. cbn [negb ParentSide.and_then].
  accept_Y Hd. cbn. rewrite Hcur. cbn. rewrite Hcur. done.
Qed.

Lemma sensor_page_up (io : Board.Inputs) (st : ParentSide.State) :
  ParentSide.currLcdView st = ParentSide.SENSOR_MENU ->
  ParentSide.cursorLine st = 0 ->
  Board.sw io = true ->
  ParentSide.GO_LEFT (Board.x_adc io) = false ->
  ParentSide.GO_UP (Board.y_adc io) = true ->
  fst (ParentSide.debounce (ParentSide.millis st) (ParentSide.lastYInputTime st)) = true ->
  let st' := ParentSide.lcdDisplayTask_turn io st in
  ParentSide.sensorOnTopLcdLineID st'
  = (if ParentSide.sensorOnTopLcdLineID st =? 0 then 5
     else ParentSide.sensorOnTopLcdLineID st - 1)
  /\ ParentSide.songOnTopLcdLineID st' = ParentSide.songOnTopLcdLineID st.
Proof.
  intros Hv Hcur Hsw Hx Hup Hd st'. subst st'.
  display_turn Hv.
  rewrite Hsw, Hx, (GO_UP_not_DOWN _ Hup), Hup. cbn [negb ParentSide.and_then].
  accept_Y Hd. cbn. rewrite Hcur. cbn.
  destruct (ParentSide.sensorOnTopLcdLineID st =? 0); done.
Qed.

(** The downward page scroll of the song menu. *)
Lemma song_page_down (io : Board.Inputs) (st : ParentSide.State) :
  ParentSide.currLcdView st = ParentSide.SONG_MENU ->
  ParentSide.cursorLine st = 1 ->
  Board.sw io = true ->
  ParentSide.GO_LEFT (Board.x_adc io) = false ->
  ParentSide.GO_DOWN (Board.y_adc io) = true ->
  fst (ParentSide.debounce (ParentSide.millis st) (ParentSide.lastYInputTime st)) = true ->
  let st' := ParentSide.lcdDisplayTask_turn io st in
  ParentSide.songOnTopLcdLineID st'
  = Z.rem (ParentSide.songOnTopLcdLineID st + 1) 3
  /\ ParentSide.sensorOnTopLcdLineID st' = ParentSide.sensorOnTopLcdLineID st.
Proof.
  intros Hv Hcur Hsw Hx Hdown Hd st'. subst st'.
  display_turn Hv.
  rewrite Hsw, Hx, Hdown. cbn [negb ParentSide.and_then].
  accept_Y Hd. cbn. rewrite Hcur. cbn. done.
Qed.

(** Six downward page scrolls of the sensor menu, one second apart, from
    top index 0: the index goes through 1, 2, 3, 4, 5 and back to 0. *)
Example six_page_downs :
  map ParentSide.sensorOnTopLcdLineID
      [ Nat.iter 1 (scroll_after_second push_down) sensor_menu_line1;
        Nat.iter 2 (scroll_after_second push_down) sensor_menu_line1;
        Nat.iter 3 (scroll_after_second push_down) sensor_menu_line1;
        Nat.iter 4 (scroll_after_second push_down) sensor_menu_line1;
        Nat.iter 5 (scroll_after_second push_down) sensor_menu_line1;
        Nat.iter 6 (scroll_after_second push_down) sensor_menu_line1 ]
  = [1; 2; 3; 4; 5; 0].
Proof. vm_compute. reflexivity. Qed.

(** C7 at the failing input. In the song menu with the cursor on line 0
    and song top index 0, an accepted upward scroll leaves the song top index
    at 0 and writes 2 into the sensor top index instead: the branch assigns
    [sensorOnTopLcdLineID] where the sensor menu, in the same place, assigns
    its own index. *)
Theorem song_scroll_up_at_top (io : Board.Inputs) (st : ParentSide.State) :
  ParentSide.currLcdView st = ParentSide.SONG_MENU ->
  ParentSide.songOnTopLcdLineID st = 0 ->
  ParentSide.cursorLine st = 0 ->
  Board.sw io = true ->
  ParentSide.GO_LEFT (Board.x_adc io) = false ->
  ParentSide.GO_UP (Board.y_adc io) = true ->
  fst (ParentSide.debounce (ParentSide.millis st) (ParentSide.lastYInputTime st)) = true ->
  let st' := ParentSide.lcdDisplayTask_turn io st in
  ParentSide.songOnTopLcdLineID st' = 0
  /\ ParentSide.sensorOnTopLcdLineID st' = 2
  /\ ParentSide.currLcdView st' = ParentSide.SONG_MENU
  /\ ParentSide.cursorLine st' = 0.
Proof.
  intros Hv Hsong Hcur Hsw Hx Hup Hd st'. subst st'.
  display_turn Hv.
  rewrite Hsw, Hx, (GO_UP_not_DOWN _ Hup), Hup. cbn [negb ParentSide.and_then].
  accept_Y Hd. cbn. rewrite Hcur, Hsong. cbn. rewrite Hv, Hcur, Hsong. done.
Qed.

Lemma song_scroll_up_at_top_witness :
  ParentSide.songOnTopLcdLineID (ParentSide.lcdDisplayTask_turn push_up song_menu_top) = 0
  /\ ParentSide.sensorOnTopLcdLineID (ParentSide.lcdDisplayTask_turn push_up song_menu_top) = 2.
Proof.
  split; apply (song_scroll_up_at_top push_up song_menu_top); reflexivity.
Defined.

(** ** The command task of the sensor node *)

Section Strings.

Import CLib.

Lemma code_inj (c1 c2 : ascii) : code c1 = code c2 -> c1 = c2.
Proof.
  unfold code. intros H. apply N2Z.inj in H.
  rewrite <- (ascii_N_embedding c1), <- (ascii_N_embedding c2). by rewrite H.
Qed.

Lemma code_NUL (c : ascii) : code c = 0 <-> c = NUL.
Proof.
  split; [|by intros ->].
  intros H. apply code_inj. by rewrite H.
Qed.

(** [strcmp] returns 0 exactly when the two C strings are equal. *)
Lemma strcmp_eq0 (s1 s2 : list ascii) :
  strcmp s1 s2 = 0 <-> cstr s1 = cstr s2.
Proof.
  revert s2. induction s1 as [|c1 t1 IH]; intros [|c2 t2]; cbn.
  - done.
  - destruct (decide (c2 = NUL)) as [->|Hn].
    + done.
    + split; [|done]. intros H. exfalso. apply Hn, code_NUL. lia.
  - destruct (decide (c1 = NUL)) as [->|Hn].
    + done.
    + split; [|done]. intros H. exfalso. by apply Hn, code_NUL.
  - destruct (decide (c1 = c2)) as [->|Hne].
    + destruct (decide (c2 = NUL)) as [->|Hn]; [done|].
      rewrite IH. split; [by intros ->|by intros [= ->]].
    + split.
      * intros H. exfalso. apply Hne, code_inj. lia.
      * intros H. exfalso.
        destruct (decide (c1 = NUL)) as [->|H1], (decide (c2 = NUL)) as [->|H2];
          try done. by injection H.
Qed.

Lemma strcmp_literal (buf : list ascii) (s : string) :
  cstr (list_ascii_of_string s) = list_ascii_of_string s ->
  (strcmp buf (list_ascii_of_string s) =? 0)
  = bool_decide (cstr buf = list_ascii_of_string s).
Proof.
  intros Hs. destruct (Z.eqb_spec (strcmp buf (list_ascii_of_string s)) 0) as [H|H].
  - apply strcmp_eq0 in H. rewrite Hs in H. by rewrite bool_decide_eq_true_2.
  - rewrite bool_decide_eq_false_2; [done|]. intros Heq. apply H, strcmp_eq0.
    by rewrite Hs.
Qed.

End Strings.

(** C4. A wake-up of the command task with a message pending plays song
    1, 2 or 3 once when the message is ["Little Star"], ["Mary's Lamb"] or
    ["Wheels on Bus"], each song being the notes of its own table; for any
    other string it prints the log line and plays nothing; in every case the
    flag is cleared and the buffer, the sensors and the queue are left as
    they were. *)
Theorem playSongTask_dispatch (st : BabySide.State) :
  BabySide.messageReceived st = true ->
  let msg := CLib.cstr (BabySide.incomingMessage st) in
  let st' := BabySide.playSongTask_wake st in
  BabySide.messageReceived st' = false
  /\ BabySide.incomingMessage st' = BabySide.incomingMessage st
  /\ BabySide.sensorValues st' = BabySide.sensorValues st
  /\ BabySide.sensorQueue st' = BabySide.sensorQueue st
  /\ (msg = list_ascii_of_string "Little Star" ->
      BabySide.trace st'
      = BabySide.trace st
        ++ Songs.playNotes Board.BUZZER_PIN Songs.song1Notes Songs.song1NoteDurations 42)
  /\ (msg = list_ascii_of_string "Mary's Lamb" ->
      BabySide.trace st'
      = BabySide.trace st
        ++ Songs.playNotes Board.BUZZER_PIN Songs.song2Notes Songs.song2NoteDurations 26)
  /\ (msg = list_ascii_of_string "Wheels on Bus" ->
      BabySide.trace st'
      = BabySide.trace st
        ++ Songs.playNotes Board.BUZZER_PIN Songs.song3Notes Songs.song3NoteDurations 29)
  /\ (msg <> list_ascii_of_string "Little Star" ->
      msg <> list_ascii_of_string "Mary's Lamb" ->
      msg <> list_ascii_of_string "Wheels on Bus" ->
      BabySide.trace st'
      = BabySide.trace st ++ [ Board.SerialPrintln "Invalid song selection." ]).
Proof.
  intros Hflag msg st'. subst st'. unfold BabySide.playSongTask_wake.
  rewrite Hflag, !strcmp_literal by reflexivity. fold msg.
  assert (H12 : list_ascii_of_string "Little Star" <> list_ascii_of_string "Mary's Lamb")
    by discriminate.
  assert (H13 : list_ascii_of_string "Little Star" <> list_ascii_of_string "Wheels on Bus")
    by discriminate.
  assert (H23 : list_ascii_of_string "Mary's Lamb" <> list_ascii_of_string "Wheels on Bus")
    by discriminate.
  repeat case_bool_decide; cbn [BabySide.set_messageReceived BabySide.emit
    BabySide.messageReceived BabySide.incomingMessage BabySide.sensorValues
    BabySide.sensorQueue BabySide.trace];
    (split; [reflexivity|]); (split; [reflexivity|]);
    (split; [reflexivity|]); (split; [reflexivity|]);
    repeat split; intros; try reflexivity; congruence.
Qed.

Lemma playSongTask_dispatch_witness :
  BabySide.messageReceived
    (BabySide.playSongTask_wake little_star_pending) = false
  /\ BabySide.trace (BabySide.playSongTask_wake little_star_pending)
     = BabySide.trace little_star_pending
       ++ Songs.playNotes Board.BUZZER_PIN Songs.song1Notes Songs.song1NoteDurations 42.
Proof.
  split.
  - apply (playSongTask_dispatch little_star_pending). reflexivity.
  - apply (playSongTask_dispatch little_star_pending); reflexivity.
Defined.

(** Without a pending message a wake-up does nothing. *)
Lemma playSongTask_idle (st : BabySide.State) :
  BabySide.messageReceived st = false -> BabySide.playSongTask_wake st = st.
Proof. intros H. unfold BabySide.playSongTask_wake. by rewrite H. Qed.

(** ** The sensor queue of the sensor node *)

Section SensorQueue.

Import Board FreeRTOS BabySide.

Lemma queue_inv_init : queue_inv init.
Proof. repeat split; cbn; lia. Qed.

(** A send that waits [portMAX_DELAY] never returns [errQUEUE_FULL]. *)
Lemma xQueueSend_forever {A : Type} (q : Queue A) (item : A) :
  xQueueSend q item portMAX_DELAY <> ErrQueueFull.
Proof. unfold xQueueSend. destruct (is_full q); cbn; discriminate. Qed.

Lemma xQueueSend_Posted {A : Type} (q q' : Queue A) (item : A) (ticks : Z) :
  xQueueSend q item ticks = Posted q' ->
  (length (items q) < uxLength q)%nat
  /\ uxLength q' = uxLength q /\ items q' = items q ++ [item].
Proof.
  unfold xQueueSend, is_full.
  destruct (Nat.leb_spec (uxLength q) (length (items q))).
  - destruct (ticks =? portMAX_DELAY); discriminate.
  - intros [= <-]. cbn. done.
Qed.

Lemma xQueueSend_room {A : Type} (q : Queue A) (item : A) (ticks : Z) :
  (length (items q) < uxLength q)%nat ->
  xQueueSend q item ticks
  = Posted {| uxLength := uxLength q; items := items q ++ [item] |}.
Proof.
  intros H. unfold xQueueSend, is_full.
  destruct (Nat.leb_spec (uxLength q) (length (items q))); [lia|done].
Qed.

Lemma xQueueSend_full {A : Type} (q : Queue A) (item : A) :
  (uxLength q <= length (items q))%nat ->
  xQueueSend q item portMAX_DELAY = SendBlocked.
Proof.
  intros H. unfold xQueueSend, is_full.
  destruct (Nat.leb_spec (uxLength q) (length (items q))); [done|lia].
Qed.

Lemma xQueueReceive_Received {A : Type} (q q' : Queue A) (item : A) (ticks : Z) :
  xQueueReceive q ticks = Received item q' ->
  uxLength q' = uxLength q /\ items q = item :: items q'.
Proof.
  unfold xQueueReceive. destruct (items q) as [|x rest] eqn:E.
  - destruct (ticks =? portMAX_DELAY); discriminate.
  - intros [= <- <-]. cbn. done.
Qed.

Lemma next_pc_ok (k : nat) : pc_ok (next_pc k).
Proof.
  unfold next_pc. cbn [length sampling_order].
  destruct (Nat.ltb_spec (S k) 6); cbn; lia.
Qed.

Lemma sampling_order_lt (k : nat) (s : sensorIDs) :
  sampling_order !! k = Some s -> (k < 6)%nat.
Proof. intros H. apply lookup_lt_Some in H. cbn in H. lia. Qed.

Lemma idx_lt (s : sensorIDs) : (idx s < 6)%nat.
Proof. destruct s; unfold idx; cbn [id_num]; lia. Qed.

Lemma step_queue_inv (st st' : State) (l : Label) :
  queue_inv st -> step st l st' -> queue_inv st'.
Proof.
  intros (Hcap & Hlen & Hsv & Hpc) Hstep.
  destruct Hstep as [st k s v r Hk Hs Hr | st k s r q Hk Hs Hr Hq
                     | st k s r Hk Hs Hr Hq | st Hk | st r q Hq];
    unfold queue_inv; cbn.
  - rewrite length_insert. repeat split; try done.
    by eapply sampling_order_lt.
  - apply xQueueSend_Posted in Hq as (Hroom & Hcap' & Hitems).
    rewrite Hcap', Hitems, length_app. cbn.
    repeat split; try done; [lia|apply next_pc_ok].
  - repeat split; try done. apply next_pc_ok.
  - repeat split; try done. lia.
  - apply xQueueReceive_Received in Hq as (Hcap' & Hitems).
    rewrite Hitems in Hlen. cbn in Hlen. rewrite Hcap'.
    repeat split; try done. lia.
Qed.

Lemma step_no_drop (st st' : State) (l : Label) :
  step st l st' -> is_drop l = false.
Proof.
  intros Hstep. destruct Hstep; try reflexivity.
  exfalso. by eapply xQueueSend_forever.
Qed.

(** What goes into the queue comes out of it or is still in it. *)
Lemma step_flow (st st' : State) (l : Label) :
  step st l st' ->
  items (sensorQueue st) ++ pushed [l]
  = transmitted [l] ++ items (sensorQueue st').
Proof.
  intros Hstep.
  destruct Hstep as [st k s v r Hk Hs Hr | st k s r q Hk Hs Hr Hq
                     | st k s r Hk Hs Hr Hq | st Hk | st r q Hq]; cbn.
  - by rewrite app_nil_r.
  - by apply xQueueSend_Posted in Hq as (_ & _ & ->).
  - by rewrite app_nil_r.
  - by rewrite app_nil_r.
  - apply xQueueReceive_Received in Hq as (_ & ->). by rewrite app_nil_r.
Qed.

Lemma pushed_cons (l : Label) (ls : list Label) :
  pushed (l :: ls) = pushed [l] ++ pushed ls.
Proof. unfold pushed. cbn. by rewrite app_nil_r. Qed.

Lemma transmitted_cons (l : Label) (ls : list Label) :
  transmitted (l :: ls) = transmitted [l] ++ transmitted ls.
Proof. unfold transmitted. cbn. by rewrite app_nil_r. Qed.

Lemma run_queue (st st' : State) (ls : list Label) :
  queue_inv st -> run st ls st' ->
  queue_inv st'
  /\ Forall (fun l => is_drop l = false) ls
  /\ items (sensorQueue st) ++ pushed ls
     = transmitted ls ++ items (sensorQueue st').
Proof.
  intros Hinv Hrun. induction Hrun as [st | st l st1 ls st2 Hstep Hrun IH].
  - split; [done|]. split; [constructor|]. cbn. by rewrite app_nil_r.
  - destruct (IH (step_queue_inv _ _ _ Hinv Hstep)) as (Hinv2 & Hnd & Hflow).
    split; [done|]. split.
    + constructor; [by eapply step_no_drop|done].
    + rewrite pushed_cons, transmitted_cons, app_assoc, (step_flow _ _ _ Hstep).
      by rewrite <- !app_assoc, Hflow.
Qed.

(** With the sampling task inside [xQueueSend] on a full queue, the only
    step is one of the transmit task, and after it the send goes
    through. *)
Lemma full_queue_blocks (st st' : State) (l : Label) (k : nat) :
  queue_inv st ->
  samplingPc st = AtSend k ->
  length (items (sensorQueue st)) = 10%nat ->
  step st l st' ->
  (exists r, l = Transmitted r)
  /\ exists r' st'', step st' (Pushed r') st''.
Proof.
  intros (Hcap & Hlen & Hsv & Hpc) Hk Hfull Hstep.
  rewrite Hk in Hpc. cbn in Hpc.
  destruct Hstep as [st k' s v r Hk' Hs Hr | st k' s r q Hk' Hs Hr Hq
                     | st k' s r Hk' Hs Hr Hq | st Hk' | st r q Hq];
    try congruence.
  - rewrite xQueueSend_full in Hq by lia. discriminate.
  - exfalso. by eapply xQueueSend_forever.
  - split; [eauto|].
    apply xQueueReceive_Received in Hq as (Hcap' & Hitems).
    destruct (lookup_lt_is_Some_2 sampling_order k) as [s Hs]; [cbn; lia|].
    destruct (lookup_lt_is_Some_2 (sensorValues st) (idx s)) as [r' Hr'];
      [rewrite Hsv; apply idx_lt|].
    eexists r', _. eapply (step_push _ k s r'); cbn; try done.
    apply xQueueSend_room. cbn. rewrite Hcap', Hcap.
    rewrite Hitems in Hfull. cbn in Hfull. lia.
Qed.

End SensorQueue.

Lemma burst_run :
  exists st, BabySide.run BabySide.init burst_labels st
             /\ BabySide.transmitted burst_labels = []
             /\ length (BabySide.pushed burst_labels) = 10%nat
             /\ FreeRTOS.items (BabySide.sensorQueue st)
                = BabySide.pushed burst_labels.
Proof.
  eexists. split; [|split; [reflexivity|split; [reflexivity|]]].
  - unfold burst_labels. cbn [app].
    repeat (eapply BabySide.run_cons; [econstructor; lazy; reflexivity|]).
    apply BabySide.run_nil.
  - reflexivity.
Qed.

(** C5. The sampling-to-transmit queue is created with 10 slots. Along
    every run of the sampling and transmit tasks from the initial state the
    queue never holds more than 10 readings, no [xQueueSend] of the sampling
    task returns [errQUEUE_FULL] (no reading is dropped), and the readings
    pushed so far are exactly those transmitted so far followed by those in
    the queue, in order. On a full queue the send of the sampling task
    blocks: the only step left is a pop by the transmit task, after which
    the send goes through. Ten readings in a row fit without any pop. *)
Theorem sensorQueue_never_drops (ls : list BabySide.Label) (st : BabySide.State) :
  BabySide.run BabySide.init ls st ->
  FreeRTOS.uxLength (BabySide.sensorQueue BabySide.init) = 10%nat
  /\ FreeRTOS.uxLength (BabySide.sensorQueue st) = 10%nat
  /\ (length (FreeRTOS.items (BabySide.sensorQueue st)) <= 10)%nat
  /\ Forall (fun l => BabySide.is_drop l = false) ls
  /\ BabySide.pushed ls
     = BabySide.transmitted ls ++ FreeRTOS.items (BabySide.sensorQueue st)
  /\ (forall r,
        FreeRTOS.xQueueSend (BabySide.sensorQueue st) r FreeRTOS.portMAX_DELAY
        = if (length (FreeRTOS.items (BabySide.sensorQueue st)) <? 10)%nat
          then FreeRTOS.Posted
                 {| FreeRTOS.uxLength := 10;
                    FreeRTOS.items := FreeRTOS.items (BabySide.sensorQueue st) ++ [r] |}
          else FreeRTOS.SendBlocked)
  /\ (forall k l st',
        BabySide.samplingPc st = BabySide.AtSend k ->
        length (FreeRTOS.items (BabySide.sensorQueue st)) = 10%nat ->
        BabySide.step st l st' ->
        (exists r, l = BabySide.Transmitted r)
        /\ exists r' st'', BabySide.step st' (BabySide.Pushed r') st'')
  /\ (exists ls10 st10,
        BabySide.run BabySide.init ls10 st10
        /\ BabySide.transmitted ls10 = []
        /\ length (BabySide.pushed ls10) = 10%nat
        /\ FreeRTOS.items (BabySide.sensorQueue st10) = BabySide.pushed ls10).
Proof.
  intros Hrun.
  destruct (run_queue _ _ _ queue_inv_init Hrun) as (Hinv & Hnd & Hflow).
  pose proof Hinv as (Hcap & Hlen & Hsv & Hpc).
  split; [reflexivity|]. split; [exact Hcap|]. split; [exact Hlen|].
  split; [exact Hnd|]. split; [exact Hflow|]. split; [|split].
  - intros r. destruct (Nat.ltb_spec (length (FreeRTOS.items (BabySide.sensorQueue st))) 10).
    + rewrite xQueueSend_room by lia. by rewrite Hcap.
    + apply xQueueSend_full. lia.
  - intros k l st' Hk Hfull Hstep. by eapply full_queue_blocks.
  - destruct burst_run as (st10 & H). exists burst_labels, st10. exact H.
Qed.

Lemma sensorQueue_never_drops_witness :
  exists st, BabySide.run BabySide.init burst_labels st
             /\ (length (FreeRTOS.items (BabySide.sensorQueue st)) <= 10)%nat
             /\ Forall (fun l => BabySide.is_drop l = false) burst_labels.
Proof.
  destruct burst_run as (st & Hrun & _).
  exists st. split; [exact Hrun|].
  split; apply (sensorQueue_never_drops burst_labels st Hrun).
Defined.

(** ** The order of binary32 numbers *)

Section FloatOrder.

Lemma digits2_bounds (m : positive) :
  2 ^ (Zpos (digits2_pos m) - 1) <= Zpos m < 2 ^ Zpos (digits2_pos m).
Proof.
  induction m as [p IH|p IH|]; cbn [digits2_pos].
  - rewrite Pos2Z.inj_succ.
    replace (Z.succ (Zpos (digits2_pos p)) - 1) with (Z.succ (Zpos (digits2_pos p) - 1)) by lia.
    rewrite !Z.pow_succ_r by lia. lia.
  - rewrite Pos2Z.inj_succ.
    replace (Z.succ (Zpos (digits2_pos p)) - 1) with (Z.succ (Zpos (digits2_pos p) - 1)) by lia.
    rewrite !Z.pow_succ_r by lia. lia.
  - cbn. lia.
Qed.

Lemma bounded_inv (m : positive) (e : Z) :
  bounded Float32.prec Float32.emax m e = true ->
  -149 <= e /\ Zpos m < 2 ^ 24 /\ (e = -149 \/ 2 ^ 23 <= Zpos m).
Proof.
  unfold bounded, canonical_mantissa, fexp, emin, Float32.prec, Float32.emax.
  intros H. apply andb_true_iff in H as [H _]. apply Z.eqb_eq in H.
  pose proof (digits2_bounds m) as [Hlo Hhi].
  set (d := Zpos (digits2_pos m)) in *.
  assert (Hd : d <= 24 /\ -149 <= e /\ (e = -149 \/ d = 24)) by lia.
  destruct Hd as (Hd & He & Hcase). split; [done|]. split.
  - eapply Z.lt_le_trans; [exact Hhi|]. apply Z.pow_le_mono_r; lia.
  - destruct Hcase as [->| ->]; [by left|right]. exact Hlo.
Qed.

Lemma magnitude_lt (m1 m2 : positive) (e1 e2 : Z) :
  bounded Float32.prec Float32.emax m1 e1 = true ->
  bounded Float32.prec Float32.emax m2 e2 = true ->
  e1 < e2 ->
  Zpos m1 * 2 ^ (e1 + 149) < Zpos m2 * 2 ^ (e2 + 149).
Proof.
  intros H1 H2 He.
  apply bounded_inv in H1 as (He1 & Hm1 & _).
  apply bounded_inv in H2 as (He2 & _ & [->|Hm2]); [lia|].
  assert (HP : 0 < 2 ^ (e1 + 149)) by (apply Z.pow_pos_nonneg; lia).
  replace (e2 + 149) with ((e1 + 149) + (e2 - e1)) by lia.
  rewrite (Z.pow_add_r 2 (e1 + 149) (e2 - e1)) by lia.
  assert (HQ : 2 ^ 1 <= 2 ^ (e2 - e1)) by (apply Z.pow_le_mono_r; lia).
  change (2 ^ 1) with 2 in HQ. change (2 ^ 24) with 16777216 in Hm1.
  change (2 ^ 23) with 8388608 in Hm2.
  set (P := 2 ^ (e1 + 149)) in *. set (Q := 2 ^ (e2 - e1)) in *.
  apply Z.lt_le_trans with (16777216 * P); [nia|].
  replace (16777216 * P) with (8388608 * (P * 2)) by lia.
  apply Z.mul_le_mono_nonneg; nia.
Qed.

Lemma magnitude_compare (m1 m2 : positive) (e1 e2 : Z) :
  bounded Float32.prec Float32.emax m1 e1 = true ->
  bounded Float32.prec Float32.emax m2 e2 = true ->
  match e1 ?= e2 with
  | Lt => Lt
  | Gt => Gt
  | Eq => Pos.compare_cont Eq m1 m2
  end = (Zpos m1 * 2 ^ (e1 + 149) ?= Zpos m2 * 2 ^ (e2 + 149)).
Proof.
  intros H1 H2. destruct (Z.compare_spec e1 e2) as [->|Hlt|Hgt].
  - pose proof (bounded_inv _ _ H2) as (He & _).
    assert (HP : 0 < 2 ^ (e2 + 149)) by (apply Z.pow_pos_nonneg; lia).
    change (Pos.compare_cont Eq m1 m2) with (Zpos m1 ?= Zpos m2).
    destruct (Z.compare_spec (Zpos m1) (Zpos m2)) as [Heq|Hlt|Hgt]; symmetry.
    + apply Z.compare_eq_iff. by rewrite Heq.
    + apply Z.compare_lt_iff. nia.
    + apply Z.compare_gt_iff. nia.
  - symmetry. apply Z.compare_lt_iff. by apply magnitude_lt.
  - symmetry. apply Z.compare_gt_iff. by apply magnitude_lt.
Qed.

(** On well formed numbers the IEEE comparison is the order of the exact
    values. *)
Lemma SFcompare_units (a b : Float32.float) :
  Float32.valid a = true -> Float32.valid b = true ->
  is_number a = true -> is_number b = true ->
  SFcompare a b = Some (units a ?= units b).
Proof.
  intros Ha Hb Hna Hnb.
  destruct a as [sa|sa| |sa ma ea], b as [sb|sb| |sb mb eb]; try discriminate;
    cbn [SFcompare units cond_Zopp].
  - reflexivity.
  - pose proof (bounded_inv _ _ Hb) as (He & _).
    assert (0 < Zpos mb * 2 ^ (eb + 149))
      by (apply Z.mul_pos_pos; [lia|apply Z.pow_pos_nonneg; lia]).
    destruct sb; cbn [cond_Zopp]; f_equal; symmetry;
      [apply Z.compare_gt_iff|apply Z.compare_lt_iff]; lia.
  - pose proof (bounded_inv _ _ Ha) as (He & _).
    assert (0 < Zpos ma * 2 ^ (ea + 149))
      by (apply Z.mul_pos_pos; [lia|apply Z.pow_pos_nonneg; lia]).
    destruct sa; cbn [cond_Zopp]; f_equal; symmetry;
      [apply Z.compare_lt_iff|apply Z.compare_gt_iff]; lia.
  - pose proof (bounded_inv _ _ Ha) as (Hea & _).
    pose proof (bounded_inv _ _ Hb) as (Heb & _).
    assert (0 < Zpos ma * 2 ^ (ea + 149))
      by (apply Z.mul_pos_pos; [lia|apply Z.pow_pos_nonneg; lia]).
    assert (0 < Zpos mb * 2 ^ (eb + 149))
      by (apply Z.mul_pos_pos; [lia|apply Z.pow_pos_nonneg; lia]).
    destruct sa, sb; cbn [cond_Zopp]; f_equal.
    + rewrite Z.compare_opp, (Z.compare_antisym (Zpos ma * 2 ^ (ea + 149))).
      rewrite <- (magnitude_compare ma mb ea eb Ha Hb).
      by destruct (ea ?= eb).
    + symmetry. apply Z.compare_lt_iff. lia.
    + symmetry. apply Z.compare_gt_iff. lia.
    + apply (magnitude_compare ma mb ea eb Ha Hb).
Qed.

Lemma lt_units (a b : Float32.float) :
  Float32.valid a = true -> Float32.valid b = true ->
  is_number a = true -> is_number b = true ->
  Float32.lt a b = (units a <? units b).
Proof.
  intros. unfold Float32.lt, SFltb, Z.ltb. rewrite SFcompare_units by done.
  by destruct (units a ?= units b).
Qed.

Lemma gt_units (a b : Float32.float) :
  Float32.valid a = true -> Float32.valid b = true ->
  is_number a = true -> is_number b = true ->
  Float32.gt a b = (units b <? units a).
Proof. intros. unfold Float32.gt. by apply lt_units. Qed.

Lemma ne_units (a b : Float32.float) :
  Float32.valid a = true -> Float32.valid b = true ->
  is_number a = true -> is_number b = true ->
  Float32.ne a b = negb (units a =? units b).
Proof.
  intros. unfold Float32.ne, SFeqb. rewrite SFcompare_units by done.
  destruct (Z.compare_spec (units a) (units b)) as [Heq|Hlt|Hgt];
    destruct (Z.eqb_spec (units a) (units b)); try reflexivity; lia.
Qed.

(** The table as the code computes it is the table on exact values. *)
Lemma spec_threshold_exact (k : ParentSide.sensorIDs) (value : Float32.float) :
  Float32.valid value = true -> is_number value = true ->
  ParentSide.spec_threshold k value = exact_threshold k (units value).
Proof.
  intros Hv Hn.
  destruct k; cbn [ParentSide.spec_threshold exact_threshold];
    rewrite ?gt_units, ?lt_units, ?ne_units by done; reflexivity.
Qed.

End FloatOrder.

(** ** The alarm checks and the alarm view *)

Section AlarmFacts.

Import Board CLib FreeRTOS ParentSide.

Lemma idx_inj (j k : sensorIDs) : idx j = idx k -> j = k.
Proof. destruct j, k; cbn; intros H; try reflexivity; discriminate. Qed.

Lemma idx_bound (k : sensorIDs) : (idx k < 6)%nat.
Proof. destruct k; unfold idx; cbn [id_num]; lia. Qed.

Lemma id_num_nonneg (k : sensorIDs) : 0 <= id_num k.
Proof. destruct k; cbn; lia. Qed.

(** Every check is its row of the table, guarded by the view. *)
Lemma call_triggerAlarm_eq (k : sensorIDs) (v : Float32.float) (st : State) :
  call_triggerAlarm (check_of k) v st
  = if negb (in_alarm st) && spec_threshold k v
    then (true, raise_alarm k st) else (false, st).
Proof. destruct k; reflexivity. Qed.

Lemma in_alarm_true (st : State) : in_alarm st = true <-> currLcdView st = ALARM.
Proof. unfold in_alarm. apply bool_decide_eq_true. Qed.

Lemma in_alarm_false (st : State) : in_alarm st = false <-> currLcdView st <> ALARM.
Proof. unfold in_alarm. apply bool_decide_eq_false. Qed.

Lemma table_ok_store (l : list SensorInfo) (i : nat) (s : SensorInfo)
      (v : Float32.float) :
  l !! i = Some s -> table_ok l -> table_ok (<[i := set_value v s]> l).
Proof.
  intros Hs [Hl Ht]. split; [by rewrite length_insert|].
  intros k. destruct (Ht k) as (sk & Hk & Hc).
  destruct (decide (i = idx k)) as [->|Hne].
  - exists (set_value v s). rewrite list_lookup_insert_eq by (rewrite Hl; apply idx_bound).
    split; [done|]. cbn. congruence.
  - exists sk. by rewrite list_lookup_insert_ne.
Qed.

Lemma table_ok_flag (l : list SensorInfo) (i : nat) (b : bool) :
  table_ok l -> table_ok (alter (set_alarm b) i l).
Proof.
  intros [Hl Ht]. split; [by rewrite length_alter|].
  intros k. destruct (Ht k) as (sk & Hk & Hc).
  destruct (decide (i = idx k)) as [->|Hne].
  - exists (set_alarm b sk). rewrite list_lookup_alter_eq, Hk. done.
  - exists sk. by rewrite list_lookup_alter_ne.
Qed.

(** The store of [receive_reading] leaves the flags as they are. *)
Lemma store_alarm_flag (st : State) (i : nat) (s : SensorInfo)
      (v : Float32.float) (j : sensorIDs) :
  sensorValues st !! i = Some s ->
  alarm_flag j (set_sensorValues (<[i := set_value v s]> (sensorValues st)) st)
  = alarm_flag j st.
Proof.
  intros Hs. unfold alarm_flag. cbn.
  destruct (decide (i = idx j)) as [->|Hne].
  - rewrite list_lookup_insert_eq by (by eapply lookup_lt_Some). by rewrite Hs.
  - by rewrite list_lookup_insert_ne.
Qed.

Lemma raise_alarm_flag (st : State) (k j : sensorIDs) :
  length (sensorValues st) = 6%nat ->
  alarm_flag j (raise_alarm k st)
  = if decide (j = k) then true else alarm_flag j st.
Proof.
  intros Hl. unfold alarm_flag, raise_alarm. cbn.
  destruct (decide (j = k)) as [->|Hne].
  - rewrite list_lookup_alter_eq.
    destruct (lookup_lt_is_Some_2 (sensorValues st) (idx k)) as [s ->];
      [rewrite Hl; apply idx_bound|done].
  - rewrite list_lookup_alter_ne; [done|]. intros H. by apply Hne, idx_inj.
Qed.

(** A reading of sensor [k]: the value is stored, then the check of the
    entry runs. *)
Lemma receive_reading_eq (k : sensorIDs) (v : Float32.float) (st : State) :
  table_ok (sensorValues st) ->
  exists s, sensorValues st !! idx k = Some s /\
    let st1 := set_sensorValues (<[idx k := set_value v s]> (sensorValues st)) st in
    receive_reading (id_num k) v st
    = Done (if negb (in_alarm st) && spec_threshold k v
            then raise_alarm k st1 else st1).
Proof.
  intros [Hl Ht]. destruct (Ht k) as (s & Hs & Hc). exists s. split; [done|].
  unfold receive_reading. fold (idx k).
  destruct (Z.leb_spec 0 (id_num k)) as [_|Hneg];
    [|pose proof (id_num_nonneg k); lia].
  rewrite Hs. cbn zeta. rewrite Hc, call_triggerAlarm_eq.
  replace (in_alarm (set_sensorValues _ st)) with (in_alarm st) by reflexivity.
  by destruct (negb (in_alarm st) && spec_threshold k v).
Qed.

End AlarmFacts.

Section Frames.
Import Board CLib FreeRTOS ParentSide.

Lemma same_alarm_refl st : same_alarm st st.
Proof. done. Qed.

Lemma same_alarm_trans st1 st2 st3 :
  same_alarm st1 st2 -> same_alarm st2 st3 -> same_alarm st1 st3.
Proof. intros [? ?] [? ?]. split; congruence. Qed.

Lemma debounceX_same st : same_alarm st (snd (debounceX st)).
Proof. unfold debounceX. by destruct (debounce _ _) as [[] ?]. Qed.

Lemma debounceY_same st : same_alarm st (snd (debounceY st)).
Proof. unfold debounceY. by destruct (debounce _ _) as [[] ?]. Qed.

Lemma debounceSw_same st : same_alarm st (snd (debounceSw st)).
Proof. unfold debounceSw. by destruct (debounce _ _) as [[] ?]. Qed.

Lemma and_then_same c f st :
  (forall s, same_alarm s (snd (f s))) -> same_alarm st (snd (and_then c f st)).
Proof. intros H. unfold and_then. destruct c; [apply H|done]. Qed.

Lemma send_song_same i st : same_alarm st (send_song_to_baby i st).
Proof. done. Qed.

(** A turn of the display task in the alarm view leaves the view and the
    flags alone unless a left input is accepted. *)
Lemma printAlarm_stays (io : Inputs) (st : State) :
  currLcdView st = ALARM ->
  fst (and_then (GO_LEFT (x_adc io)) debounceX
         (emit [ LcdSetCursor 0 0; LcdPrint "<Alarm caused by:";
                 LcdSetCursor 1 1; LcdPrint (sensorInitials st) ] st)) = false ->
  same_alarm st (lcdDisplayTask_turn io st).
Proof.
  intros Hv Hrej. unfold lcdDisplayTask_turn. rewrite Hv. unfold printAlarm.
  set (st0 := emit _ st) in *.
  assert (H0 : same_alarm st st0) by done.
  pose proof (and_then_same (GO_LEFT (x_adc io)) debounceX st0 debounceX_same) as H1.
  destruct (and_then (GO_LEFT (x_adc io)) debounceX st0) as [b1 st1].
  cbn in Hrej, H1. subst b1.
  pose proof (and_then_same (negb (sw io)) debounceSw st1 debounceSw_same) as H2.
  destruct (and_then (negb (sw io)) debounceSw st1) as [b2 st2]. cbn in H2.
  assert (H02 : same_alarm st st2) by eauto using same_alarm_trans.
  destruct b2; [exact H02|].
  pose proof (and_then_same (GO_UP (y_adc io)) debounceY st2 debounceY_same) as H3.
  destruct (and_then (GO_UP (y_adc io)) debounceY st2) as [b3 st3]. cbn in H3.
  assert (H03 : same_alarm st st3) by eauto using same_alarm_trans.
  destruct b3; [exact H03|].
  pose proof (and_then_same (GO_DOWN (y_adc io)) debounceY st3 debounceY_same) as H4.
  destruct (and_then (GO_DOWN (y_adc io)) debounceY st3) as [b4 st4]. cbn in H4.
  assert (H04 : same_alarm st st4) by eauto using same_alarm_trans.
  destruct b4; exact H04.
Qed.

End Frames.

Section Episodes.
Import Board CLib FreeRTOS ParentSide.

Lemma printAlarm_no_left (io : Inputs) (st : State) :
  currLcdView st = ALARM ->
  GO_LEFT (x_adc io) = false
  \/ fst (debounce (millis st) (lastXInputTime st)) = false ->
  same_alarm st (lcdDisplayTask_turn io st).
Proof.
  intros Hv Hno. apply printAlarm_stays; [done|].
  destruct Hno as [-> | Hrej]; [reflexivity|].
  unfold and_then. destruct (GO_LEFT (x_adc io)); [|reflexivity].
  match goal with |- context [debounceX ?s] => rewrite (debounceX_reject s) by exact Hrej end.
  reflexivity.
Qed.

Lemma same_alarm_flags (st st' : State) (j : sensorIDs) :
  same_alarm st st' -> alarm_flag j st' = alarm_flag j st.
Proof. intros [_ H]. unfold alarm_flag. by rewrite H. Qed.

(** A reading that arrives while the alarm is shown changes the stored
    value and nothing else. *)
Lemma receive_in_alarm (k : sensorIDs) (v : Float32.float) (st : State) :
  table_ok (sensorValues st) -> currLcdView st = ALARM ->
  exists st', receive_reading (id_num k) v st = Done st'
    /\ table_ok (sensorValues st') /\ currLcdView st' = ALARM
    /\ trace st' = trace st
    /\ forall j, alarm_flag j st' = alarm_flag j st.
Proof.
  intros Hok Hv. destruct (receive_reading_eq k v st Hok) as (s & Hs & Heq).
  cbn zeta in Heq. apply in_alarm_true in Hv as Hin. rewrite Hin in Heq. cbn in Heq.
  eexists. split; [exact Heq|]. cbn.
  split; [by apply table_ok_store|]. split; [done|]. split; [done|].
  intros j. by apply store_alarm_flag.
Qed.

Lemma receive_readings_in_alarm (rs : list (sensorIDs * Float32.float)) (st : State) :
  table_ok (sensorValues st) -> currLcdView st = ALARM ->
  exists st', receive_readings rs st = Done st'
    /\ currLcdView st' = ALARM /\ trace st' = trace st
    /\ forall j, alarm_flag j st' = alarm_flag j st.
Proof.
  revert st. induction rs as [|[k v] rs IH]; intros st Hok Hv.
  - exists st. done.
  - destruct (receive_in_alarm k v st Hok Hv) as (st1 & H1 & Hok1 & Hv1 & Ht1 & Hf1).
    destruct (IH st1 Hok1 Hv1) as (st2 & H2 & Hv2 & Ht2 & Hf2).
    exists st2. cbn. rewrite H1. split; [done|]. split; [done|].
    split; [congruence|]. intros j. by rewrite Hf2, Hf1.
Qed.

End Episodes.

(** What a reading of sensor [k] does: the alarm is raised exactly when
    the view is not the alarm view and the row of the table holds. *)
Lemma receive_effect
  (k : ParentSide.sensorIDs) (value : Float32.float) (st : ParentSide.State) :
  ParentSide.table_ok (ParentSide.sensorValues st) ->
  exists st',
    ParentSide.receive_reading (ParentSide.id_num k) value st = ParentSide.Done st'
    /\ ParentSide.table_ok (ParentSide.sensorValues st')
    /\ (exists s, ParentSide.sensorValues st' !! ParentSide.idx k = Some s
                  /\ ParentSide.value s = value)
    /\ (ParentSide.currLcdView st <> ParentSide.ALARM ->
        ParentSide.spec_threshold k value = true ->
        ParentSide.currLcdView st' = ParentSide.ALARM
        /\ ParentSide.trace st' = ParentSide.trace st ++ [ Board.LcdClear ]
        /\ ParentSide.alarm_flag k st' = true
        /\ forall j, j <> k -> ParentSide.alarm_flag j st' = ParentSide.alarm_flag j st)
    /\ (ParentSide.currLcdView st = ParentSide.ALARM
        \/ ParentSide.spec_threshold k value = false ->
        ParentSide.currLcdView st' = ParentSide.currLcdView st
        /\ ParentSide.trace st' = ParentSide.trace st
        /\ forall j, ParentSide.alarm_flag j st' = ParentSide.alarm_flag j st).
Proof.
  intros Hok. pose proof Hok as [Hl _].
  destruct (receive_reading_eq k value st Hok) as (s & Hs & Heq). cbn zeta in Heq.
  set (st1 := ParentSide.set_sensorValues
                (<[ParentSide.idx k := ParentSide.set_value value s]>
                   (ParentSide.sensorValues st)) st) in *.
  assert (Hok1 : ParentSide.table_ok (ParentSide.sensorValues st1))
    by (by apply table_ok_store).
  assert (Hl1 : length (ParentSide.sensorValues st1) = 6%nat) by (by destruct Hok1).
  assert (Hval : ParentSide.sensorValues st1 !! ParentSide.idx k
                 = Some (ParentSide.set_value value s)).
  { cbn. apply list_lookup_insert_eq. rewrite Hl. apply idx_bound. }
  eexists. split; [exact Heq|].
  split; [|split; [|split]].
  - destruct (negb (ParentSide.in_alarm st) && ParentSide.spec_threshold k value);
      [by apply table_ok_flag|done].
  - destruct (negb (ParentSide.in_alarm st) && ParentSide.spec_threshold k value).
    + exists (ParentSide.set_alarm true (ParentSide.set_value value s)).
      split; [|done].
      change (ParentSide.sensorValues (ParentSide.raise_alarm k st1))
        with (alter (ParentSide.set_alarm true) (ParentSide.idx k)
                (ParentSide.sensorValues st1)).
      by rewrite list_lookup_alter_eq, Hval.
    + eauto.
  - intros Hv Hth. apply in_alarm_false in Hv. rewrite Hv, Hth. cbn [negb andb].
    split; [done|]. split; [done|]. split.
    + rewrite raise_alarm_flag by done. by rewrite decide_True.
    + intros j Hj. rewrite raise_alarm_flag by done.
      rewrite decide_False by done. by apply store_alarm_flag.
  - intros Hor.
    assert (negb (ParentSide.in_alarm st) && ParentSide.spec_threshold k value = false)
      as ->.
    { destruct Hor as [Hv | ->]; [|by rewrite andb_false_r].
      apply in_alarm_true in Hv. by rewrite Hv. }
    split; [done|]. split; [done|]. intros j. by apply store_alarm_flag.
Qed.

(** C2, as the code has it. A reading of sensor [k] is stored and its
    check runs. When the display is not in the alarm view and the row of the
    table holds for the value, the view becomes ALARM, the screen is cleared
    once and the flag of [k] is set, the other flags staying as they were;
    otherwise view, screen and flags do not change. While the alarm view is
    open, readings change neither the view, the screen nor any flag (a
    tripping sensor does not add its flag), and a turn of the display task
    keeps the view and the flags unless a left input is accepted. *)
Theorem alarm_transition
  (k : ParentSide.sensorIDs) (value : Float32.float) (st : ParentSide.State) :
  ParentSide.table_ok (ParentSide.sensorValues st) ->
  exists st',
    ParentSide.receive_reading (ParentSide.id_num k) value st = ParentSide.Done st'
    /\ ParentSide.table_ok (ParentSide.sensorValues st')
    /\ (exists s, ParentSide.sensorValues st' !! ParentSide.idx k = Some s
                  /\ ParentSide.value s = value)
    /\ (ParentSide.currLcdView st <> ParentSide.ALARM ->
        ParentSide.spec_threshold k value = true ->
        ParentSide.currLcdView st' = ParentSide.ALARM
        /\ ParentSide.trace st' = ParentSide.trace st ++ [ Board.LcdClear ]
        /\ ParentSide.alarm_flag k st' = true
        /\ forall j, j <> k -> ParentSide.alarm_flag j st' = ParentSide.alarm_flag j st)
    /\ (ParentSide.currLcdView st = ParentSide.ALARM
        \/ ParentSide.spec_threshold k value = false ->
        ParentSide.currLcdView st' = ParentSide.currLcdView st
        /\ ParentSide.trace st' = ParentSide.trace st
        /\ forall j, ParentSide.alarm_flag j st' = ParentSide.alarm_flag j st)
    /\ (ParentSide.currLcdView st = ParentSide.ALARM ->
        forall rs, exists st2,
          ParentSide.receive_readings rs st = ParentSide.Done st2
          /\ ParentSide.currLcdView st2 = ParentSide.ALARM
          /\ ParentSide.trace st2 = ParentSide.trace st
          /\ forall j, ParentSide.alarm_flag j st2 = ParentSide.alarm_flag j st)
    /\ (ParentSide.currLcdView st = ParentSide.ALARM ->
        forall io,
          ParentSide.GO_LEFT (Board.x_adc io) = false
          \/ fst (ParentSide.debounce (ParentSide.millis st)
                    (ParentSide.lastXInputTime st)) = false ->
          ParentSide.currLcdView (ParentSide.lcdDisplayTask_turn io st)
          = ParentSide.ALARM
          /\ forall j, ParentSide.alarm_flag j (ParentSide.lcdDisplayTask_turn io st)
                       = ParentSide.alarm_flag j st).
Proof.
  intros Hok.
  destruct (receive_effect k value st Hok) as (st' & Hr & Hok' & Hval & Hfire & Hquiet).
  exists st'. repeat (split; [done|]). split.
  - intros Hv rs. by apply receive_readings_in_alarm.
  - intros Hv io Hno.
    pose proof (printAlarm_no_left io st Hv Hno) as Hsame.
    split; [destruct Hsame; congruence|].
    intros j. by apply same_alarm_flags.
Qed.

Lemma alarm_transition_witness :
  exists st',
    ParentSide.receive_reading (ParentSide.id_num ParentSide.TEMP) Float32.f95_0
      ParentSide.init = ParentSide.Done st'
    /\ ParentSide.currLcdView st' = ParentSide.ALARM
    /\ ParentSide.alarm_flag ParentSide.TEMP st' = true.
Proof.
  assert (Hok : ParentSide.table_ok (ParentSide.sensorValues ParentSide.init)).
  { split; [reflexivity|]. intros []; eexists; split; reflexivity. }
  destruct (alarm_transition ParentSide.TEMP Float32.f95_0 ParentSide.init Hok)
    as (st' & Hr & _ & _ & Hfire & _).
  exists st'. split; [exact Hr|].
  destruct Hfire as (Hv & _ & Hf & _); [discriminate|reflexivity|].
  split; [exact Hv|exact Hf].
Defined.

(** C2, as the claim states it, fails on the flags: a temperature of 95
    that arrives while the alarm raised by the noise sensor is open trips
    its row of the table and does not get its flag. *)
Lemma no_flag_during_episode :
  ~ (ParentSide.currLcdView noise_alarm_open = ParentSide.ALARM ->
     ParentSide.spec_threshold ParentSide.TEMP Float32.f95_0 = true ->
     ParentSide.alarm_flag ParentSide.TEMP then_hot = true).
Proof.
  intros H. specialize (H eq_refl eq_refl). vm_compute in H. discriminate.
Qed.

(** C1, as the code has it. The check of each of the six sensors returns
    true exactly when the display is not in the alarm view and the row of the
    table of section 4.4 holds for the value: outside the alarm view it is
    that row, a function of the value alone with exact boundaries; in the
    alarm view it returns false whatever the value. On a value that is a
    number the row is the comparison of the exact values. *)
Theorem threshold_predicates
  (k : ParentSide.sensorIDs) (value : Float32.float) (st : ParentSide.State) :
  ParentSide.table_ok (ParentSide.sensorValues st) ->
  (exists s,
     ParentSide.sensorValues st !! ParentSide.idx k = Some s
     /\ fst (ParentSide.call_triggerAlarm (ParentSide.triggerAlarm s) value st)
        = negb (ParentSide.in_alarm st) && ParentSide.spec_threshold k value
     /\ (ParentSide.currLcdView st <> ParentSide.ALARM ->
         fst (ParentSide.call_triggerAlarm (ParentSide.triggerAlarm s) value st)
         = ParentSide.spec_threshold k value)
     /\ (ParentSide.currLcdView st = ParentSide.ALARM ->
         fst (ParentSide.call_triggerAlarm (ParentSide.triggerAlarm s) value st)
         = false))
  /\ (Float32.valid value = true -> is_number value = true ->
      ParentSide.spec_threshold k value = exact_threshold k (units value))
  /\ ParentSide.spec_threshold ParentSide.TEMP Float32.f59_9 = true
  /\ ParentSide.spec_threshold ParentSide.TEMP Float32.f60_0 = false
  /\ ParentSide.spec_threshold ParentSide.TEMP Float32.f90_0 = false
  /\ ParentSide.spec_threshold ParentSide.TEMP Float32.f90_1 = true
  /\ ParentSide.spec_threshold ParentSide.NOISE (Float32.of_Z 3500) = false
  /\ ParentSide.spec_threshold ParentSide.NOISE (Float32.of_Z 3501) = true
  /\ ParentSide.spec_threshold ParentSide.HUMIDITY (Float32.of_Z 29) = true
  /\ ParentSide.spec_threshold ParentSide.HUMIDITY (Float32.of_Z 30) = false
  /\ ParentSide.spec_threshold ParentSide.HUMIDITY (Float32.of_Z 60) = false
  /\ ParentSide.spec_threshold ParentSide.HUMIDITY (Float32.of_Z 61) = true
  /\ ParentSide.spec_threshold ParentSide.MOTION (Float32.of_Z 0) = false
  /\ ParentSide.spec_threshold ParentSide.MOTION (Float32.of_Z 1) = true
  /\ ParentSide.spec_threshold ParentSide.WATER (Float32.of_Z 300) = false
  /\ ParentSide.spec_threshold ParentSide.WATER (Float32.of_Z 301) = true
  /\ ParentSide.spec_threshold ParentSide.LIGHT (Float32.of_Z 3500) = false
  /\ ParentSide.spec_threshold ParentSide.LIGHT (Float32.of_Z 3501) = true.
Proof.
  intros [Hl Ht].
  split; [|split; [apply spec_threshold_exact|repeat split; vm_compute; reflexivity]].
  destruct (Ht k) as (s & Hs & Hc). exists s. split; [done|].
  rewrite Hc, call_triggerAlarm_eq.
  assert (Heq : fst (if negb (ParentSide.in_alarm st) && ParentSide.spec_threshold k value
                     then (true, ParentSide.raise_alarm k st) else (false, st))
                = negb (ParentSide.in_alarm st) && ParentSide.spec_threshold k value)
    by (by destruct (negb (ParentSide.in_alarm st) && ParentSide.spec_threshold k value)).
  rewrite Heq. split; [done|]. split.
  - intros Hv. apply in_alarm_false in Hv. by rewrite Hv.
  - intros Hv. apply in_alarm_true in Hv. by rewrite Hv.
Qed.

Lemma threshold_predicates_witness :
  exists s,
    ParentSide.sensorValues ParentSide.init !! ParentSide.idx ParentSide.TEMP = Some s
    /\ fst (ParentSide.call_triggerAlarm (ParentSide.triggerAlarm s) Float32.f59_9
              ParentSide.init)
       = negb (ParentSide.in_alarm ParentSide.init)
         && ParentSide.spec_threshold ParentSide.TEMP Float32.f59_9.
Proof.
  assert (Hok : ParentSide.table_ok (ParentSide.sensorValues ParentSide.init)).
  { split; [reflexivity|]. intros []; eexists; split; reflexivity. }
  destruct (threshold_predicates ParentSide.TEMP Float32.f59_9 ParentSide.init Hok)
    as ((s & Hs & Heq & _) & _).
  exists s. split; [exact Hs|exact Heq].
Defined.

(** C1, as the claim states it, fails on the independence from the rest
    of the state: in the alarm view the temperature check of 95 returns
    false although the row of the table holds. *)
Lemma threshold_depends_on_view :
  ~ (forall st : ParentSide.State,
       fst (ParentSide.checkTempurature Float32.f95_0 st)
       = ParentSide.spec_threshold ParentSide.TEMP Float32.f95_0).
Proof.
  intros H. specialize (H noise_alarm_open). vm_compute in H. discriminate.
Qed.

(** ** The message of a reading *)

Section Numerals.

Import CLib ArduinoString.

Lemma digit_char_code (d : Z) : 0 <= d <= 9 -> code (digit_char d) = 48 + d.
Proof.
  intros H.
  assert (d = 0 \/ d = 1 \/ d = 2 \/ d = 3 \/ d = 4 \/ d = 5 \/ d = 6
          \/ d = 7 \/ d = 8 \/ d = 9) as Hd by lia.
  repeat (destruct Hd as [-> | Hd]; [reflexivity|]). by subst.
Qed.

Lemma digit_char_isdigit (d : Z) : 0 <= d <= 9 -> isdigit (digit_char d) = true.
Proof. intros H. unfold isdigit. rewrite digit_char_code by done. lia. Qed.

Lemma digit_char_val (d : Z) : 0 <= d <= 9 -> digit_val (digit_char d) = d.
Proof. intros H. unfold digit_val. rewrite digit_char_code by done. lia. Qed.

Lemma read_digits_app (ds rest : list ascii) (acc cnt : Z) :
  Forall (fun c => isdigit c = true) ds ->
  read_digits (ds ++ rest) acc cnt
  = read_digits rest (digits_value ds acc) (cnt + Z.of_nat (length ds)).
Proof.
  intros H. revert acc cnt. induction H as [|c ds Hc Hds IH]; intros acc cnt.
  - cbn. by rewrite Z.add_0_r.
  - cbn [app read_digits]. rewrite Hc, IH. unfold digits_value. cbn [fold_left length].
    f_equal. lia.
Qed.

Lemma read_digits_stop (s : list ascii) (acc cnt : Z) :
  match s with [] => True | c :: _ => isdigit c = false end ->
  read_digits s acc cnt = (acc, cnt, s).
Proof. destruct s as [|c t]; [done|]. cbn. by intros ->. Qed.

Lemma dec_fuel_digits (fuel : nat) (n : Z) :
  0 <= n -> Forall (fun c => isdigit c = true) (dec_fuel fuel n).
Proof.
  revert n. induction fuel as [|f IH]; intros n Hn; [constructor|].
  cbn [dec_fuel]. apply Forall_app. split.
  - destruct (n / 10 =? 0); [constructor|]. apply IH. apply Z.div_pos; lia.
  - repeat constructor. apply digit_char_isdigit.
    pose proof (Z.mod_pos_bound n 10). lia.
Qed.

Lemma dec_fuel_value (fuel : nat) (n : Z) :
  0 <= n < 10 ^ Z.of_nat fuel -> digits_value (dec_fuel fuel n) 0 = n.
Proof.
  revert n. induction fuel as [|f IH]; intros n Hn.
  - cbn in Hn. cbn. lia.
  - cbn [dec_fuel]. unfold digits_value. rewrite fold_left_app. cbn [fold_left].
    rewrite digit_char_val by (pose proof (Z.mod_pos_bound n 10); lia).
    destruct (Z.eqb_spec (n / 10) 0) as [H0|H0].
    + cbn. pose proof (Z.div_mod n 10). lia.
    + fold (digits_value (dec_fuel f (n / 10)) 0). rewrite IH.
      * pose proof (Z.div_mod n 10). lia.
      * rewrite Nat2Z.inj_succ, Z.pow_succ_r in Hn by lia.
        split; [apply Z.div_pos; lia|]. apply Z.div_lt_upper_bound; lia.
Qed.

Lemma dec_fuel_nonempty (fuel : nat) (n : Z) : dec_fuel (S fuel) n <> [].
Proof. cbn [dec_fuel]. by destruct (if n / 10 =? 0 then [] else dec_fuel fuel (n / 10)). Qed.

Lemma enough_fuel (n : Z) : 0 <= n -> n < 10 ^ Z.of_nat (S (Z.to_nat (Z.log2 n))).
Proof.
  intros Hn. rewrite Nat2Z.inj_succ, Z2Nat.id by apply Z.log2_nonneg.
  destruct (Z.eq_dec n 0) as [->|H0]; [cbn; lia|].
  pose proof (Z.log2_spec n ltac:(lia)) as [_ Hlt].
  eapply Z.lt_le_trans; [exact Hlt|].
  apply Z.pow_le_mono_l. pose proof (Z.log2_nonneg n). lia.
Qed.

Lemma dec_digits (n : Z) : 0 <= n -> Forall (fun c => isdigit c = true) (dec n).
Proof. apply dec_fuel_digits. Qed.

Lemma dec_value (n : Z) : 0 <= n -> digits_value (dec n) 0 = n.
Proof. intros H. apply dec_fuel_value. split; [done|by apply enough_fuel]. Qed.

Lemma dec_nonempty (n : Z) : dec n <> [].
Proof. apply dec_fuel_nonempty. Qed.

End Numerals.

Section FloatText.

Import CLib ArduinoString.

Lemma hundredths_nonneg (m : positive) (e : Z) : 0 <= Float32.hundredths m e.
Proof.
  unfold Float32.hundredths. destruct (Z.leb_spec 0 e).
  - assert (0 <= 2 ^ e) by (apply Z.pow_nonneg; lia). nia.
  - apply Z.div_pos.
    + assert (0 <= 2 ^ (- e)) by (apply Z.pow_nonneg; lia). lia.
    + apply Z.pow_pos_nonneg; lia.
Qed.

Lemma isdigit_not_space (c : ascii) : isdigit c = true -> isspace c = false.
Proof. unfold isdigit, isspace. lia. Qed.

Lemma magnitude_text_head (h : Z) :
  0 <= h -> exists c t, magnitude_text h = c :: t /\ isdigit c = true.
Proof.
  intros Hh. unfold magnitude_text.
  pose proof (dec_digits (h / 100) ltac:(apply Z.div_pos; lia)) as Hd.
  pose proof (dec_nonempty (h / 100)) as Hne.
  destruct (dec (h / 100)) as [|c t]; [done|].
  exists c, (t ++ ["."%char; digit_char (h / 10 mod 10); digit_char (h mod 10)]).
  split; [done|]. by inversion Hd.
Qed.

(** Reading back the text of a magnitude gives its hundredths. *)
Lemma atof_magnitude (neg : bool) (h : Z) :
  0 <= h ->
  (let '(ip, _, s2) := read_digits (magnitude_text h) 0 0 in
   match s2 with
   | "."%char :: s3 =>
       let '(num, k, _) := read_digits s3 ip 0 in Float32.of_decimal neg num k
   | _ => Float32.of_decimal neg ip 0
   end) = Float32.of_decimal neg h 2.
Proof.
  intros Hh. unfold magnitude_text.
  rewrite read_digits_app by (apply dec_digits, Z.div_pos; lia).
  rewrite dec_value by (apply Z.div_pos; lia).
  cbn [read_digits]. replace (isdigit ".") with false by reflexivity.
  pose proof (Z.mod_pos_bound (h / 10) 10 ltac:(lia)).
  pose proof (Z.mod_pos_bound h 10 ltac:(lia)).
  cbn [read_digits]. rewrite !digit_char_isdigit, !digit_char_val by lia.
  replace (h / 100) with (h / 10 / 10) by (rewrite Z.div_div by lia; reflexivity).
  pose proof (Z.div_mod h 10 ltac:(lia)).
  pose proof (Z.div_mod (h / 10) 10 ltac:(lia)).
  f_equal; lia.
Qed.

Lemma starts_with_digit (p s : list ascii) (c0 : ascii) (c : ascii) (t : list ascii) :
  isdigit c0 = false -> isdigit c = true ->
  starts_with (c0 :: p) (c :: t) = false.
Proof.
  intros H0 Hc. unfold starts_with. apply bool_decide_eq_false.
  cbn. intros [= -> _]. congruence.
Qed.

Lemma atof_digits_head (neg : bool) (c : ascii) (t : list ascii) :
  isdigit c = true ->
  (if starts_with (list_ascii_of_string "nan") (c :: t) then S754_nan
   else if starts_with (list_ascii_of_string "inf") (c :: t) then S754_infinity neg
   else
     let '(ip, _, s2) := read_digits (c :: t) 0 0 in
     match s2 with
     | "."%char :: s3 =>
         let '(num, k, _) := read_digits s3 ip 0 in Float32.of_decimal neg num k
     | _ => Float32.of_decimal neg ip 0
     end)
  = (let '(ip, _, s2) := read_digits (c :: t) 0 0 in
     match s2 with
     | "."%char :: s3 =>
         let '(num, k, _) := read_digits s3 ip 0 in Float32.of_decimal neg num k
     | _ => Float32.of_decimal neg ip 0
     end).
Proof.
  intros Hc. cbn [list_ascii_of_string].
  rewrite (starts_with_digit _ t "n"%char c t) by done.
  rewrite (starts_with_digit _ t "i"%char c t) by done.
  reflexivity.
Qed.

(** [atof] reads the text of a float back as the float rounded at two
    decimals. *)
Lemma atof_String_float (v : Float32.float) :
  atof (String_float v) = Float32.round2 v.
Proof.
  destruct v as [s|s| |s m e];
    [vm_compute; reflexivity | vm_compute; reflexivity | vm_compute; reflexivity|].
  cbn [String_float Float32.round2].
  pose proof (hundredths_nonneg m e) as Hh.
  set (h := Float32.hundredths m e) in *.
  change (dec (h / 100) ++ ["."%char; digit_char (h / 10 mod 10); digit_char (h mod 10)])
    with (magnitude_text h).
  destruct (magnitude_text_head h Hh) as (c & t & Htext & Hc).
  pose proof (atof_magnitude s h Hh) as Hmag.
  rewrite Htext in *.
  pose proof (isdigit_not_space c Hc) as Hsp.
  assert (Hminus : c <> "-"%char) by (intros ->; vm_compute in Hc; discriminate).
  assert (Hplus : c <> "+"%char) by (intros ->; vm_compute in Hc; discriminate).
  unfold atof. destruct s.
  - cbn [app skip_spaces]. replace (isspace "-") with false by reflexivity.
    cbn [read_sign]. rewrite atof_digits_head by done. exact Hmag.
  - cbn [app skip_spaces]. rewrite Hsp.
    assert (Hsign : read_sign (c :: t) = (false, c :: t)).
    { unfold read_sign.
      destruct c as [[] [] [] [] [] [] [] []]; try reflexivity; congruence. }
    rewrite Hsign. rewrite atof_digits_head by done. exact Hmag.
Qed.

End FloatText.

Section Message.

Import CLib ArduinoString FreeRTOS.

Lemma float_char_plain (c : ascii) :
  float_char c = true -> c <> ":"%char /\ c <> NUL.
Proof.
  unfold float_char. intros H. apply orb_true_iff in H as [H|H].
  - split; intros ->; vm_compute in H; discriminate.
  - apply bool_decide_eq_true in H.
    repeat (apply elem_of_cons in H as [->|H]; [split; discriminate|]).
    by apply elem_of_nil in H.
Qed.

Lemma digit_float_char (c : ascii) : isdigit c = true -> float_char c = true.
Proof. unfold float_char. by intros ->. Qed.

Lemma String_float_chars (v : Float32.float) :
  Forall (fun c => float_char c = true) (String_float v).
Proof.
  destruct v as [s|s| |s m e]; cbn [String_float list_ascii_of_string].
  - repeat constructor.
  - repeat constructor.
  - repeat constructor.
  - pose proof (hundredths_nonneg m e) as Hh.
    set (h := Float32.hundredths m e) in *.
    pose proof (Z.mod_pos_bound (h / 10) 10 ltac:(lia)).
    pose proof (Z.mod_pos_bound h 10 ltac:(lia)).
    apply Forall_app. split; [destruct s; repeat constructor|].
    apply Forall_app. split.
    + eapply Forall_impl; [apply dec_digits, Z.div_pos; lia|].
      intros c. apply digit_float_char.
    + repeat constructor; apply digit_float_char, digit_char_isdigit; lia.
Qed.

Lemma String_float_nonempty (v : Float32.float) : String_float v <> [].
Proof.
  destruct v as [s|s| |s m e]; cbn [String_float list_ascii_of_string]; try done.
  destruct s; cbn; [done|].
  intros H. apply app_eq_nil in H as [_ H]. done.
Qed.

Lemma cstr_terminated (s tail : list ascii) :
  Forall (fun c => c <> NUL) s -> cstr (s ++ NUL :: tail) = s.
Proof.
  induction 1 as [|c s Hc Hs IH]; cbn.
  - by rewrite decide_True.
  - rewrite decide_False by done. by rewrite IH.
Qed.

Lemma span_token_whole (delim : ascii) (s : list ascii) :
  Forall (fun c => c <> delim) s -> span_token delim s = (s, []).
Proof.
  induction 1 as [|c s Hc Hs IH]; cbn; [done|].
  rewrite decide_False by done. by rewrite IH.
Qed.

Lemma span_token_delim (delim : ascii) (tok rest : list ascii) :
  Forall (fun c => c <> delim) tok ->
  span_token delim (tok ++ delim :: rest) = (tok, rest).
Proof.
  induction 1 as [|c s Hc Hs IH]; cbn.
  - by rewrite decide_True.
  - rewrite decide_False by done. by rewrite IH.
Qed.

Lemma strtok_first (delim c : ascii) (tok rest : list ascii) :
  Forall (fun c => c <> delim) (c :: tok) ->
  strtok ((c :: tok) ++ delim :: rest) delim = (Some (c :: tok), rest).
Proof.
  intros H. unfold strtok.
  assert (Hc : c <> delim) by (by inversion H).
  cbn [app skip_delims]. rewrite decide_False by done.
  change (c :: tok ++ delim :: rest) with ((c :: tok) ++ delim :: rest).
  by rewrite span_token_delim.
Qed.

Lemma strtok_last (delim c : ascii) (tok : list ascii) :
  Forall (fun c => c <> delim) (c :: tok) ->
  strtok (c :: tok) delim = (Some (c :: tok), []).
Proof.
  intros H. unfold strtok.
  assert (Hc : c <> delim) by (by inversion H).
  cbn [skip_delims]. rewrite decide_False by done.
  by rewrite span_token_whole.
Qed.

Lemma String_int_id (k : BabySide.sensorIDs) :
  exists c, String_int (BabySide.id_num k) = [c]
            /\ c <> ":"%char /\ c <> NUL /\ atoi [c] = BabySide.id_num k.
Proof. destruct k; eexists; (split; [vm_compute; reflexivity|]); done. Qed.

(** The monitor node reads the message of a reading back as the id and
    the value at two decimals, whatever follows the terminator in the
    item. *)
Lemma parse_outgoingMessage (r : BabySide.SensorInfo) (tail : list ascii) :
  ParentSide.parse_reading (BabySide.outgoingMessage r ++ NUL :: tail)
  = Some (BabySide.id_num (BabySide.id r), Float32.round2 (BabySide.value r)).
Proof.
  unfold ParentSide.parse_reading, BabySide.outgoingMessage.
  destruct (String_int_id (BabySide.id r)) as (c & -> & Hc1 & Hc2 & Hatoi).
  pose proof (String_float_chars (BabySide.value r)) as Hchars.
  pose proof (String_float_nonempty (BabySide.value r)) as Hne.
  assert (Hcolon : Forall (fun c => c <> ":"%char) (String_float (BabySide.value r))).
  { eapply Forall_impl; [exact Hchars|]. intros a Ha. by apply float_char_plain. }
  assert (Hnul : Forall (fun c => c <> NUL) (String_float (BabySide.value r))).
  { eapply Forall_impl; [exact Hchars|]. intros a Ha. by apply float_char_plain. }
  rewrite cstr_terminated.
  2:{ apply Forall_app. split; [by repeat constructor|].
      apply Forall_app. split; [by repeat constructor|done]. }
  change ([c] ++ [":"%char] ++ String_float (BabySide.value r))
    with ([c] ++ ":"%char :: String_float (BabySide.value r)).
  rewrite strtok_first by (by repeat constructor).
  destruct (String_float (BabySide.value r)) as [|c0 text] eqn:Etext; [done|].
  rewrite strtok_last by done.
  rewrite Hatoi, <- Etext, atof_String_float. reflexivity.
Qed.

Lemma store_terminator (payload buf : list ascii) :
  (length payload < length buf)%nat ->
  store (take (length payload) payload ++ drop (length payload) buf)
        (Z.of_nat (length payload)) NUL
  = Some (payload ++ NUL :: drop (S (length payload)) buf).
Proof.
  intros Hlen. unfold store.
  rewrite firstn_all, length_app, length_drop.
  destruct (Z.leb_spec 0 (Z.of_nat (length payload))); [|lia].
  destruct (Z.ltb_spec (Z.of_nat (length payload))
              (Z.of_nat (length payload + (length buf - length payload))));
    [|lia].
  cbn [andb]. f_equal. rewrite Nat2Z.id.
  rewrite insert_app_r_alt, Nat.sub_diag by lia.
  destruct (drop (length payload) buf) as [|c d] eqn:Ed.
  - apply (f_equal length) in Ed. rewrite length_drop in Ed. cbn in Ed. lia.
  - cbn. do 2 f_equal.
    replace (S (length payload)) with (length payload + 1)%nat by lia.
    rewrite <- drop_drop, Ed. reflexivity.
Qed.


End Message.




(** The value at two decimals, on some readings. *)
Example round2_examples :
  Float32.round2 Float32.f95_0 = Float32.f95_0
  /\ Float32.round2 (Float32.of_Z 4095) = Float32.of_Z 4095
  /\ Float32.round2 Float32.f59_9 = Float32.f59_9
  /\ Float32.round2 (S754_finite false 8388608 (-33)) = S754_zero false
  /\ BabySide.outgoingMessage temp_95 = list_ascii_of_string "1:95.00".
Proof. repeat split; vm_compute; reflexivity. Qed.

(** ** An invariant of the monitor node *)

Ltac unfold_display :=
  unfold ParentSide.lcdDisplayTask_turn, ParentSide.printMenu,
    ParentSide.printSensorMenu, ParentSide.printSensorView,
    ParentSide.printSongMenu, ParentSide.printSongView, ParentSide.printAlarm,
    ParentSide.and_then, ParentSide.debounceX, ParentSide.debounceY,
    ParentSide.debounceSw.

Ltac split_display :=
  repeat match goal with
         | |- context [ParentSide.debounce ?a ?b] =>
             destruct (ParentSide.debounce a b) as [[] ?]
         | |- context [if ?c then _ else _] => destruct c eqn:?
         end.

Section MonitorInvariant.

Import Board CLib FreeRTOS ParentSide.

Lemma display_incomingMessage (io : Inputs) (st : State) :
  incomingMessage (lcdDisplayTask_turn io st) = incomingMessage st.
Proof.
  unfold_display. destruct (currLcdView st); split_display; reflexivity.
Qed.

Lemma display_outside_alarm (io : Inputs) (st : State) :
  currLcdView st <> ALARM ->
  sensorValues (lcdDisplayTask_turn io st) = sensorValues st
  /\ currLcdView (lcdDisplayTask_turn io st) <> ALARM.
Proof.
  intros Hv. unfold_display.
  destruct (currLcdView st) eqn:E; try done; split_display; cbn; rewrite ?E; done.
Qed.

Lemma reset_sensorOnTop (st : State) :
  sensorOnTopLcdLineID (reset_alarm_flags st) = sensorOnTopLcdLineID st.
Proof. reflexivity. Qed.

Lemma reset_songOnTop (st : State) :
  songOnTopLcdLineID (reset_alarm_flags st) = songOnTopLcdLineID st.
Proof. reflexivity. Qed.

Lemma reset_cursorLine (st : State) :
  cursorLine (reset_alarm_flags st) = cursorLine st.
Proof. reflexivity. Qed.

Lemma display_indices (io : Inputs) (st : State) :
  0 <= sensorOnTopLcdLineID st < 6 ->
  0 <= songOnTopLcdLineID st < 3 ->
  0 <= cursorLine st <= 1 ->
  0 <= sensorOnTopLcdLineID (lcdDisplayTask_turn io st) < 6
  /\ 0 <= songOnTopLcdLineID (lcdDisplayTask_turn io st) < 3
  /\ 0 <= cursorLine (lcdDisplayTask_turn io st) <= 1.
Proof.
  intros Hs Hg Hc.
  pose proof (Z.rem_bound_pos (sensorOnTopLcdLineID st + cursorLine st) 6 ltac:(lia) ltac:(lia)).
  pose proof (Z.rem_bound_pos (sensorOnTopLcdLineID st + 1) 6 ltac:(lia) ltac:(lia)).
  pose proof (Z.rem_bound_pos (songOnTopLcdLineID st + cursorLine st) 3 ltac:(lia) ltac:(lia)).
  pose proof (Z.rem_bound_pos (songOnTopLcdLineID st + 1) 3 ltac:(lia) ltac:(lia)).
  pose proof (Z.rem_bound_pos (cursorLine st + 1) 2 ltac:(lia) ltac:(lia)).
  unfold_display.
  destruct (currLcdView st) eqn:E; split_display;
    cbn in *; rewrite ?E; cbn;
    rewrite ?reset_sensorOnTop, ?reset_songOnTop, ?reset_cursorLine; cbn;
    unfold NUM_SENSORS; lia.
Qed.

Lemma display_in_alarm (io : Inputs) (st : State) :
  length (sensorValues st) = 6%nat ->
  currLcdView st = ALARM ->
  same_alarm st (lcdDisplayTask_turn io st)
  \/ (currLcdView (lcdDisplayTask_turn io st) = MENU
      /\ sensorValues (lcdDisplayTask_turn io st)
         = map (set_alarm false) (sensorValues st)).
Proof.
  intros Hl Hv.
  destruct (GO_LEFT (x_adc io)) eqn:Hx;
    [destruct (fst (debounce (millis st) (lastXInputTime st))) eqn:Hd|].
  - right. pose proof (alarm_left_accepted io st Hv Hl Hx Hd) as (H2 & H1 & _).
    done.
  - left. apply printAlarm_no_left; auto.
  - left. apply printAlarm_no_left; auto.
Qed.

Lemma table_ok_reset (l : list SensorInfo) :
  table_ok l -> table_ok (map (set_alarm false) l).
Proof.
  intros [Hl Ht]. split; [by rewrite length_map|].
  intros k. destruct (Ht k) as (s & Hs & Hc).
  exists (set_alarm false s). by rewrite list_lookup_fmap, Hs.
Qed.

Lemma display_inv (io : Inputs) (st : State) :
  monitor_inv st -> monitor_inv (lcdDisplayTask_turn io st).
Proof.
  intros (Hbuf & Hok & Hs & Hg & Hc & Hout & Hin).
  destruct (display_indices io st Hs Hg Hc) as (Hs' & Hg' & Hc').
  unfold monitor_inv. rewrite display_incomingMessage.
  split; [done|].
  destruct (decide (currLcdView st = ALARM)) as [Hv|Hv].
  - destruct (display_in_alarm io st (table_ok_length _ Hok) Hv)
      as [[Hsv Hsl] | [Hm Hsl]].
    + rewrite Hsl. split; [done|]. split; [done|]. split; [done|]. split; [done|].
      split; [congruence|]. intros _.
      destruct (Hin Hv) as (k & Hk & Hj). exists k.
      unfold alarm_flag in *. rewrite Hsl. done.
    + rewrite Hsl. split; [by apply table_ok_reset|].
      split; [done|]. split; [done|]. split; [done|]. split; [|congruence].
      intros _ k. unfold alarm_flag. rewrite Hsl, list_lookup_fmap.
      by destruct (sensorValues st !! idx k).
  - destruct (display_outside_alarm io st Hv) as [Hsl Hv'].
    rewrite Hsl. split; [done|]. split; [done|]. split; [done|]. split; [done|].
    split; [|done]. intros _ k. unfold alarm_flag. rewrite Hsl. by apply Hout.
Qed.

Lemma index_sensor (i : Z) : 0 <= i < 6 -> exists k, i = id_num k.
Proof.
  intros H.
  assert (i = 0 \/ i = 1 \/ i = 2 \/ i = 3 \/ i = 4 \/ i = 5) as Hi by lia.
  destruct Hi as [->|[->|[->|[->|[->| ->]]]]];
    [exists NOISE|exists TEMP|exists HUMIDITY|exists MOTION|exists WATER|exists LIGHT];
    reflexivity.
Qed.

Lemma receive_reading_Done (i : Z) (v : Float32.float) (st st' : State) :
  length (sensorValues st) = 6%nat ->
  receive_reading i v st = Done st' -> exists k, i = id_num k.
Proof.
  intros Hl H. apply index_sensor.
  destruct (decide (0 <= i <= 5)) as [|Hn]; [lia|].
  rewrite receive_reading_out_of_range in H by done. discriminate.
Qed.

Lemma receive_inv (k : sensorIDs) (v : Float32.float) (st st' : State) :
  monitor_inv st -> receive_reading (id_num k) v st = Done st' -> monitor_inv st'.
Proof.
  intros (Hbuf & Hok & Hs & Hg & Hc & Hout & Hin) Hr.
  destruct (receive_effect k v st Hok)
    as (st1 & Hr1 & Hok1 & _ & Hfire & Hquiet).
  rewrite Hr in Hr1. injection Hr1 as <-.
  destruct (receive_reading_eq k v st Hok) as (s & Hsk & Heq). cbn zeta in Heq.
  rewrite Hr in Heq. injection Heq as Heq.
  assert (Hframe : incomingMessage st' = incomingMessage st
                   /\ sensorOnTopLcdLineID st' = sensorOnTopLcdLineID st
                   /\ songOnTopLcdLineID st' = songOnTopLcdLineID st
                   /\ cursorLine st' = cursorLine st).
  { rewrite Heq. by destruct (negb (in_alarm st) && spec_threshold k v). }
  destruct Hframe as (Hf1 & Hf2 & Hf3 & Hf4).
  unfold monitor_inv. rewrite Hf1, Hf2, Hf3, Hf4.
  split; [done|]. split; [done|]. split; [done|]. split; [done|]. split; [done|].
  destruct (decide (currLcdView st = ALARM)) as [Hv|Hv].
  - destruct (Hquiet (or_introl Hv)) as (Hv' & _ & Hfl).
    split; [congruence|]. intros _.
    destruct (Hin Hv) as (k0 & Hk0 & Hj). exists k0.
    split; [by rewrite Hfl|]. intros j Hne. rewrite Hfl. by apply Hj.
  - destruct (spec_threshold k v) eqn:Hth.
    + destruct (Hfire Hv eq_refl) as (Hv' & _ & Hfk & Hfj).
      split; [congruence|]. intros _. exists k. split; [done|].
      intros j Hne. rewrite Hfj by done. by apply Hout.
    + destruct (Hquiet (or_intror eq_refl)) as (Hv' & _ & Hfl).
      split; [|congruence]. intros _ j. rewrite Hfl. by apply Hout.
Qed.

Lemma vTaskDelay_inv (ms : Z) (st : State) :
  monitor_inv st -> monitor_inv (vTaskDelay_ms ms st).
Proof. done. Qed.

Lemma onDataRecv_inv (data : list ascii) (len : Z) (st st' : State) :
  monitor_inv st -> onDataRecv data len st = Some st' -> monitor_inv st'.
Proof.
  intros (Hbuf & Hrest) H. unfold onDataRecv in H.
  destruct (memcpy (incomingMessage st) data len) as [buf|] eqn:Ecpy; [|discriminate].
  cbn [mbind option_bind] in H.
  pose proof (memcpy_length _ _ _ _ Ecpy) as Hlen.
  unfold store in H.
  destruct ((0 <=? len) && (len <? Z.of_nat (length buf))); [|discriminate].
  cbn [mbind option_bind] in H. injection H as <-.
  split.
  - destruct (xQueueSendFromISR _ _); cbn; rewrite length_insert; congruence.
  - by destruct (xQueueSendFromISR _ _).
Qed.

Lemma step_inv (st st' : State) (a : Action) :
  monitor_inv st -> step st a st' -> monitor_inv st'.
Proof.
  intros Hinv Hstep.
  destruct Hstep as [st data st' H | st st' H | st io | st | st ms H].
  - by eapply onDataRecv_inv.
  - unfold receiveDataTask_turn in H.
    destruct (xQueueReceive (sensorDataQueue st) portMAX_DELAY)
      as [item q| |]; try discriminate.
    injection H as H. unfold receiveDataTask_item in H.
    set (st0 := set_sensorDataQueue q st) in *.
    assert (Hinv0 : monitor_inv st0) by exact Hinv.
    destruct (parse_reading item) as [[i v]|].
    + destruct (receive_reading i v st0) as [st1|] eqn:Hr; [|discriminate].
      injection H as <-. apply vTaskDelay_inv.
      pose proof Hinv0 as (_ & Hok & _).
      destruct (receive_reading_Done i v st0 st1 (table_ok_length _ Hok) Hr)
        as [k ->].
      by eapply receive_inv.
    + injection H as <-. by apply vTaskDelay_inv.
  - by apply display_inv.
  - unfold buzzAlarmTask_wake. by destruct (in_alarm st).
  - exact Hinv.
Qed.

Lemma monitor_inv_init : monitor_inv init.
Proof.
  split; [reflexivity|]. split.
  { split; [reflexivity|]. intros []; eexists; split; reflexivity. }
  split; [cbn; lia|]. split; [cbn; lia|]. split; [cbn; lia|]. split.
  - intros _ []; reflexivity.
  - discriminate.
Qed.

(** Every state the monitor node reaches satisfies the invariant. *)
Lemma reachable_inv (st : State) : reachable st -> monitor_inv st.
Proof.
  induction 1 as [|st a st' Hreach IH Hstep]; [apply monitor_inv_init|].
  by eapply step_inv.
Qed.

End MonitorInvariant.

(** ** The scenarios of section 8 *)

(** A temperature of 95 goes out as ["1:95.00"], comes back as sensor 1
    with value 95, raises the alarm with the temperature flag, and the alarm
    screen names the sensor by its initial. *)
Example end_to_end_temperature :
  BabySide.outgoingMessage temp_95 = list_ascii_of_string "1:95.00"
  /\ exists st,
       temperature_received = Some st
       /\ ParentSide.reachable st
       /\ ParentSide.currLcdView st = ParentSide.ALARM
       /\ ParentSide.alarm_flag ParentSide.TEMP st = true
       /\ ParentSide.sensor_value 1 st = Float32.f95_0
       /\ ParentSide.sensorInitials st = "T "%string
       /\ In (Board.LcdPrint "T ")
             (ParentSide.trace (ParentSide.lcdDisplayTask_turn push_up st)).
Proof.
  split; [vm_compute; reflexivity|].
  destruct (ParentSide.onDataRecv (BabySide.outgoingMessage temp_95) 7 ParentSide.init)
    as [st1|] eqn:E1; [|vm_compute in E1; discriminate].
  destruct (ParentSide.receiveDataTask_turn st1) as [[st2|]|] eqn:E2.
  2,3: (injection E1 as <-; vm_compute in E2; discriminate).
  exists st2. split; [unfold temperature_received; rewrite E1; cbn; by rewrite E2|].
  split.
  { eapply ParentSide.reachable_step;
      [eapply ParentSide.reachable_step; [apply ParentSide.reachable_init|]|].
    - apply (ParentSide.step_radio _ (BabySide.outgoingMessage temp_95)). exact E1.
    - apply ParentSide.step_receive. exact E2. }
  injection E1 as <-. vm_compute in E2. injection E2 as <-.
  repeat split; try (vm_compute; reflexivity).
  vm_compute. tauto.
Qed.

(** The monitor node sends ["Little Star"]; the command task of the sensor
    node plays song 1, 42 notes, and clears the flag. *)
Example end_to_end_little_star :
  BabySide.messageReceived little_star_pending = true
  /\ CLib.cstr (BabySide.incomingMessage little_star_pending)
     = list_ascii_of_string "Little Star"
  /\ BabySide.messageReceived (BabySide.playSongTask_wake little_star_pending) = false
  /\ length (BabySide.trace (BabySide.playSongTask_wake little_star_pending))
     = (4 * 42)%nat
  /\ BabySide.playSongTask_wake (BabySide.playSongTask_wake little_star_pending)
     = BabySide.playSongTask_wake little_star_pending.
Proof. repeat split; vm_compute; reflexivity. Qed.

(** The library functions on some inputs. *)
Example library_examples :
  ArduinoString.String_float Float32.f95_0 = list_ascii_of_string "95.00"
  /\ ArduinoString.String_float (Float32.of_Z 4095) = list_ascii_of_string "4095.00"
  /\ ArduinoString.String_float (SFopp Float32.f59_9) = list_ascii_of_string "-59.90"
  /\ CLib.atof (list_ascii_of_string "59.90") = Float32.f59_9
  /\ CLib.atof (list_ascii_of_string "90.10") = Float32.f90_1
  /\ CLib.atoi (list_ascii_of_string " -12x") = -12
  /\ CLib.strtok (list_ascii_of_string "1:95.00") ":"%char
     = (Some (list_ascii_of_string "1"), list_ascii_of_string "95.00")
  /\ CLib.strtok (list_ascii_of_string "no delimiter") ":"%char
     = (Some (list_ascii_of_string "no delimiter"), [])
  /\ ParentSide.parse_reading (list_ascii_of_string "no delimiter") = None.
Proof. repeat split; vm_compute; reflexivity. Qed.

(* ================================================================== *)
(** * Further properties of the two nodes *)

Ltac unfold_baby_display :=
  unfold BabySideDisplay.lcdDisplayTask_turn, BabySideDisplay.printMenu,
    BabySideDisplay.printSensorView, BabySideDisplay.and_then,
    BabySideDisplay.debounceX, BabySideDisplay.debounceY,
    BabySideDisplay.debounceSw.

Ltac split_baby_display :=
  repeat match goal with
         | |- context [BabySide.debounce ?a ?b] =>
             destruct (BabySide.debounce a b) as [[] ?]
         | |- context [if ?c then _ else _] => destruct c eqn:?
         end.

Section BabyDisplay.

Import Board BabySideDisplay.

Lemma baby_turn_inv (io : Inputs) (st : State) :
  baby_display_inv st -> baby_display_inv (lcdDisplayTask_turn io st).
Proof.
  intros (Hl & Hs & Hc).
  pose proof (Z.rem_bound_pos (sensorOnTopLcdLineID st + cursorLine st) 6 ltac:(lia) ltac:(lia)).
  pose proof (Z.rem_bound_pos (sensorOnTopLcdLineID st + 1) 6 ltac:(lia) ltac:(lia)).
  pose proof (Z.rem_bound_pos (cursorLine st + 1) 2 ltac:(lia) ltac:(lia)).
  unfold baby_display_inv. unfold_baby_display.
  destruct (currLcdView st) eqn:E; split_baby_display;
    cbn in *; unfold NUM_SENSORS; (split; [done|lia]).
Qed.

Lemma baby_act_inv (a : Action) (st : State) :
  baby_display_inv st -> baby_display_inv (act a st).
Proof.
  destruct a as [io|s v|ms]; cbn [act].
  - apply baby_turn_inv.
  - intros (Hl & Hs & Hc). unfold baby_display_inv, store_sample. cbn.
    by rewrite length_alter.
  - done.
Qed.

Lemma baby_run_inv (acts : list Action) (st : State) :
  baby_display_inv st -> baby_display_inv (run acts st).
Proof.
  revert st. induction acts as [|a acts IH]; intros st H; [done|].
  cbn. apply IH. by apply baby_act_inv.
Qed.



End BabyDisplay.

(** X1. Whatever the inputs, the samples and the time between them, the
    display task of the sensor node keeps its top index in 0..5 and its
    cursor on line 0 or 1, so that the two entries of [sensorValues] it
    prints are entries of the array. *)
Theorem baby_display_in_bounds (acts : list BabySideDisplay.Action) :
  let st := BabySideDisplay.run acts BabySideDisplay.init in
  0 <= BabySideDisplay.sensorOnTopLcdLineID st < 6
  /\ 0 <= BabySideDisplay.cursorLine st <= 1
  /\ is_Some (BabySideDisplay.sensorValues st
                !! Z.to_nat (BabySideDisplay.sensorOnTopLcdLineID st))
  /\ is_Some (BabySideDisplay.sensorValues st
                !! Z.to_nat (Z.rem (BabySideDisplay.sensorOnTopLcdLineID st + 1)
                               BabySideDisplay.NUM_SENSORS)).
Proof.
  intros st.
  assert (Hinv : baby_display_inv st).
  { apply baby_run_inv. repeat split; cbn; lia. }
  destruct Hinv as (Hl & Hs & Hc). unfold BabySideDisplay.NUM_SENSORS.
  pose proof (Z.rem_bound_pos (BabySideDisplay.sensorOnTopLcdLineID st + 1) 6
                ltac:(lia) ltac:(lia)).
  repeat split; try lia; apply lookup_lt_is_Some_2; lia.
Qed.



(** X3. The display task of the monitor node only moves along the edges
    of the navigation graph: from the menu to one of the two lists, from a
    list to a detail view or back to the menu, from a detail view back to
    its list, and from the alarm view back to the menu. It never enters the
    alarm view by itself. *)
Theorem view_transitions (io : Board.Inputs) (st : ParentSide.State) :
  ParentSide.currLcdView (ParentSide.lcdDisplayTask_turn io st)
    ∈ next_views (ParentSide.currLcdView st)
  /\ (ParentSide.currLcdView (ParentSide.lcdDisplayTask_turn io st) = ParentSide.ALARM
      <-> ParentSide.currLcdView st = ParentSide.ALARM
          /\ (ParentSide.GO_LEFT (Board.x_adc io) = false
              \/ fst (ParentSide.debounce (ParentSide.millis st)
                        (ParentSide.lastXInputTime st)) = false)).
Proof.
  split.
  - unfold_display.
    destruct (ParentSide.currLcdView st) eqn:E; split_display;
      cbn; rewrite ?E; cbn [next_views];
      apply list_elem_of_In; cbn; auto 10.
  - unfold_display.
    destruct (ParentSide.currLcdView st) eqn:E;
      try (split; [|by intros [? _]]; split_display; cbn; rewrite ?E; discriminate).
    change (ParentSide.millis (ParentSide.emit _ st)) with (ParentSide.millis st).
    change (ParentSide.lastXInputTime (ParentSide.emit _ st))
      with (ParentSide.lastXInputTime st).
    destruct (ParentSide.GO_LEFT (Board.x_adc io));
      [destruct (ParentSide.debounce (ParentSide.millis st)
                   (ParentSide.lastXInputTime st)) as [[] ?]|];
      split_display; cbn; rewrite ?E; split; intros; try done; try tauto;
      try (by destruct H as [_ [?|?]]).
Qed.

Section Commands.

Import Board CLib.

Lemma sent_payloads_app (a b : list Event) :
  sent_payloads (a ++ b) = sent_payloads a ++ sent_payloads b.
Proof. unfold sent_payloads. apply flat_map_app. Qed.

Lemma buzzer_calls_app (a b : list Event) :
  buzzer_calls (a ++ b) = buzzer_calls a ++ buzzer_calls b.
Proof. unfold buzzer_calls. apply flat_map_app. Qed.

Lemma song_cases (i : Z) :
  0 <= i < 3 -> i = 0 \/ i = 1 \/ i = 2.
Proof. lia. Qed.

Lemma song_in_names (i : Z) :
  0 <= i < 3 -> list_ascii_of_string (ParentSide.song i) ∈ song_names.
Proof.
  intros H. apply list_elem_of_In.
  destruct (song_cases i H) as [->|[->| ->]]; cbn; auto.
Qed.

(** The receive callback of the sensor node on a payload that fits. *)
Lemma onDataReceived_fits (d : list ascii) (b : BabySide.State) :
  (length d < length (BabySide.incomingMessage b))%nat ->
  BabySide.onDataReceived d (Z.of_nat (length d)) b
  = Some (BabySide.set_messageReceived true
            (BabySide.set_incomingMessage
               (d ++ NUL :: drop (S (length d)) (BabySide.incomingMessage b)) b)).
Proof.
  intros Hlen. unfold BabySide.onDataReceived.
  rewrite memcpy_Some by lia. cbn [mbind option_bind].
  rewrite Nat2Z.id, store_terminator by done. reflexivity.
Qed.

Lemma cstr_app_NUL (d tail : list ascii) : cstr (d ++ NUL :: tail) = cstr d.
Proof.
  induction d as [|c d IH]; cbn.
  - by rewrite decide_True.
  - destruct (decide (c = NUL)); [done|]. by rewrite IH.
Qed.

Lemma playSongTask_wake_pending (b : BabySide.State) :
  BabySide.messageReceived b = true ->
  BabySide.playSongTask_wake b
  = BabySide.set_messageReceived false
      (BabySide.emit (command_effect (cstr (BabySide.incomingMessage b))) b).
Proof.
  intros H. unfold BabySide.playSongTask_wake, command_effect.
  rewrite H, !strcmp_literal by reflexivity.
  repeat case_bool_decide; reflexivity.
Qed.

(** A song name delivered to the sensor node is played as its song. *)
Lemma song_delivered (i : Z) (b : BabySide.State) :
  0 <= i < 3 ->
  length (BabySide.incomingMessage b) = 18%nat ->
  exists b',
    BabySide.onDataReceived (list_ascii_of_string (ParentSide.song i))
      (Z.of_nat (length (list_ascii_of_string (ParentSide.song i)))) b = Some b'
    /\ BabySide.trace (BabySide.playSongTask_wake b')
       = BabySide.trace b ++ Songs.playSong BUZZER_PIN (i + 1)
    /\ BabySide.messageReceived (BabySide.playSongTask_wake b') = false.
Proof.
  intros Hi Hb.
  assert (Hlen : (length (list_ascii_of_string (ParentSide.song i))
                  < length (BabySide.incomingMessage b))%nat).
  { rewrite Hb. destruct (song_cases i Hi) as [->|[->| ->]]; vm_compute; lia. }
  eexists. split; [apply onDataReceived_fits; exact Hlen|].
  rewrite playSongTask_wake_pending by reflexivity.
  cbn [BabySide.incomingMessage BabySide.set_messageReceived
       BabySide.set_incomingMessage BabySide.emit BabySide.trace
       BabySide.messageReceived].
  rewrite cstr_app_NUL. split; [|reflexivity].
  destruct (song_cases i Hi) as [->|[->| ->]]; reflexivity.
Qed.

End Commands.

Section MonitorTrace.

Import Board ParentSide.

Lemma reset_trace (st : State) : trace (reset_alarm_flags st) = trace st.
Proof. reflexivity. Qed.

Lemma emitted_app (st st' : State) (evs : list Event) :
  trace st' = trace st ++ evs -> emitted st st' = evs.
Proof. intros H. unfold emitted. by rewrite H, drop_app_length. Qed.

End MonitorTrace.

(** Puts the trace of a state built by the display task in the form
    [trace st ++ evs]. *)
Ltac trace_form :=
  cbn [ParentSide.trace ParentSide.emit ParentSide.vTaskDelay_ms
       ParentSide.set_clock ParentSide.set_currLcdView ParentSide.set_cursorLine
       ParentSide.set_sensorOnTopLcdLineID ParentSide.set_songOnTopLcdLineID
       ParentSide.set_lastXInputTime ParentSide.set_lastYInputTime
       ParentSide.set_lastSwInputTime ParentSide.set_sensorValues
       ParentSide.moveCursor ParentSide.printSensorPreviews
       ParentSide.printSongPreviews ParentSide.send_song_to_baby];
  rewrite ?reset_trace;
  cbn [ParentSide.trace ParentSide.emit ParentSide.vTaskDelay_ms
       ParentSide.set_clock ParentSide.set_currLcdView ParentSide.set_cursorLine
       ParentSide.set_sensorOnTopLcdLineID ParentSide.set_songOnTopLcdLineID
       ParentSide.set_lastXInputTime ParentSide.set_lastYInputTime
       ParentSide.set_lastSwInputTime ParentSide.set_sensorValues];
  rewrite <- ?app_assoc.

Section MonitorSends.

Import Board ParentSide.

(** What a turn of the display task sends: nothing, or one song name;
    and what it does to the buzzer: nothing. *)
Lemma display_sends (io : Inputs) (st : State) :
  0 <= songOnTopLcdLineID st < 3 ->
  exists evs,
    trace (lcdDisplayTask_turn io st) = trace st ++ evs
    /\ buzzer_calls evs = []
    /\ (sent_payloads evs = []
        \/ (currLcdView st = SONG_VIEW
            /\ sent_payloads evs
               = [list_ascii_of_string (song (songOnTopLcdLineID st))])
        \/ (currLcdView st = ALARM
            /\ exists i, 0 <= i < 3
                         /\ sent_payloads evs = [list_ascii_of_string (song i)])).
Proof.
  intros Hg. unfold_display.
  destruct (currLcdView st) eqn:E; split_display; trace_form;
    (eexists; split; [reflexivity|]); (split; [reflexivity|]);
    cbn [sent_payloads flat_map app];
    first [ by left
          | right; left; split; [reflexivity|]; reflexivity
          | right; right; split; [reflexivity|];
            first [ exists 0; split; [lia|reflexivity]
                  | exists 1; split; [lia|reflexivity]
                  | exists 2; split; [lia|reflexivity] ] ].
Qed.

End MonitorSends.

Section MonitorSteps.

Import Board ParentSide.

Lemma check_trace (f : AlarmCheck) (v : Float32.float) (st : State) :
  trace (snd (call_triggerAlarm f v st)) = trace st
  \/ trace (snd (call_triggerAlarm f v st)) = trace st ++ [ LcdClear ].
Proof.
  destruct f; cbn [call_triggerAlarm];
    unfold checkNoise, checkTempurature, checkHumidity, checkMotion,
           checkWater, checkLight;
    match goal with |- context [if ?c then _ else _] => destruct c end;
    cbn; auto.
Qed.

Lemma receive_reading_trace (i : Z) (v : Float32.float) (st st' : State) :
  receive_reading i v st = Done st' ->
  trace st' = trace st \/ trace st' = trace st ++ [ LcdClear ].
Proof.
  unfold receive_reading.
  destruct (if 0 <=? i then sensorValues st !! Z.to_nat i else None) as [s|];
    [|discriminate].
  intros [= <-].
  exact (check_trace _ v
           (set_sensorValues (<[Z.to_nat i:=set_value v s]> (sensorValues st)) st)).
Qed.

Lemma receiveDataTask_trace (st st' : State) :
  receiveDataTask_turn st = Some (Done st') ->
  exists evs, trace st' = trace st ++ evs
              /\ buzzer_calls evs = [] /\ sent_payloads evs = [].
Proof.
  unfold receiveDataTask_turn.
  destruct (FreeRTOS.xQueueReceive _ _) as [item q| |]; try discriminate.
  unfold receiveDataTask_item.
  destruct (parse_reading item) as [[i v]|].
  - destruct (receive_reading i v _) as [st1|] eqn:E; [|discriminate].
    intros [= <-]. apply receive_reading_trace in E.
    cbn [vTaskDelay_ms emit trace set_clock].
    destruct E as [-> | ->]; cbn [trace set_sensorDataQueue];
      rewrite <- ?app_assoc; eexists; (split; [reflexivity|]); auto.
  - intros [= <-]. eexists. split; [reflexivity|]. auto.
Qed.

Lemma onDataRecv_trace (data : list ascii) (len : Z) (st st' : State) :
  onDataRecv data len st = Some st' -> trace st' = trace st.
Proof.
  unfold onDataRecv. intros H.
  destruct (CLib.memcpy _ _ _) as [buf|]; [|discriminate]. cbn in H.
  destruct (CLib.store _ _ _) as [buf'|]; [|discriminate]. cbn in H.
  injection H as <-.
  by destruct (FreeRTOS.xQueueSendFromISR _ _).
Qed.

(** What one step of the monitor adds to the trace, as far as the radio
    and the buzzer go. *)
Lemma step_emits (st st' : State) (a : Action) :
  0 <= songOnTopLcdLineID st < 3 ->
  step st a st' ->
  exists evs,
    trace st' = trace st ++ evs
    /\ buzzer_calls evs
       = (if is_buzz a && in_alarm st
          then [ Tone BUZZER_PIN 1000; NoTone BUZZER_PIN ] else [])
    /\ (sent_payloads evs = []
        \/ exists i, 0 <= i < 3
                     /\ sent_payloads evs = [ list_ascii_of_string (song i) ]).
Proof.
  intros Hg Hs. destruct Hs as [st data st' H|st st' H|st io|st|st ms H].
  - exists []. rewrite (onDataRecv_trace _ _ _ _ H), app_nil_r. auto.
  - destruct (receiveDataTask_trace _ _ H) as (evs & Ht & Hb & Hp).
    exists evs. auto.
  - destruct (display_sends io st Hg) as (evs & Ht & Hb & Hp).
    exists evs. split; [exact Ht|]. split; [exact Hb|].
    destruct Hp as [Hp|[[_ Hp]|[_ (i & Hi & Hp)]]]; eauto.
  - unfold buzzAlarmTask_wake. cbn [is_buzz andb].
    destruct (in_alarm st).
    + eexists. split; [trace_form; reflexivity|]. auto.
    + exists []. rewrite app_nil_r. auto.
  - exists []. cbn. rewrite app_nil_r. auto.
Qed.

End MonitorSteps.

Section SongCommand.

Import Board ParentSide.

Lemma monitor_debounceSw_accept (st : State) :
  fst (debounce (millis st) (lastSwInputTime st)) = true ->
  debounceSw st = (true, set_lastSwInputTime (Int32.wrap32 (millis st)) st).
Proof.
  intros H. unfold debounceSw.
  pose proof (debounce_accept_stamp _ _ H) as Hs.
  destruct (debounce (millis st) (lastSwInputTime st)) as [ok t].
  cbn in H, Hs. subst. reflexivity.
Qed.

(** The switch in the song menu opens the view of the song under the
    cursor. *)
Lemma song_menu_select (io : Inputs) (st : State) :
  currLcdView st = SONG_MENU ->
  sw io = false ->
  fst (debounce (millis st) (lastSwInputTime st)) = true ->
  currLcdView (lcdDisplayTask_turn io st) = SONG_VIEW
  /\ songOnTopLcdLineID (lcdDisplayTask_turn io st)
     = Z.rem (songOnTopLcdLineID st + cursorLine st) 3
  /\ cursorLine (lcdDisplayTask_turn io st) = 0.
Proof.
  intros Hv Hsw Hd. unfold lcdDisplayTask_turn. rewrite Hv.
  unfold printSongMenu. rewrite Hsw. cbn [negb and_then].
  rewrite monitor_debounceSw_accept by exact Hd.
  cbn -[Z.rem]. auto.
Qed.

(** The switch in the song view sends the name of the song on show and
    returns to the song menu. *)
Lemma song_view_send (io : Inputs) (st : State) :
  currLcdView st = SONG_VIEW ->
  sw io = false ->
  fst (debounce (millis st) (lastSwInputTime st)) = true ->
  sent_payloads (emitted st (lcdDisplayTask_turn io st))
  = [ list_ascii_of_string (song (songOnTopLcdLineID st)) ]
  /\ currLcdView (lcdDisplayTask_turn io st) = SONG_MENU
  /\ songOnTopLcdLineID (lcdDisplayTask_turn io st) = songOnTopLcdLineID st
  /\ cursorLine (lcdDisplayTask_turn io st) = 0.
Proof.
  intros Hv Hsw Hd. unfold lcdDisplayTask_turn. rewrite Hv.
  unfold printSongView. rewrite Hsw. cbn [negb and_then].
  rewrite monitor_debounceSw_accept by exact Hd.
  clear Hd. unfold and_then, debounceX.
  destruct (GO_LEFT (x_adc io));
    [match goal with
     | |- context [debounce ?a ?b] => destruct (debounce a b) as [[] ?]
     end|];
    (split; [erewrite emitted_app by (trace_form; reflexivity); reflexivity|]);
    cbn; auto.
Qed.

Lemma reachable_scroll (io : Inputs) (st : State) :
  reachable st -> reachable (scroll_after_second io st).
Proof.
  intros H. unfold scroll_after_second.
  eapply reachable_step; [eapply reachable_step; [exact H|apply step_display]|].
  apply step_elapse. lia.
Qed.

Lemma reachable_song_view_open : reachable song_view_open.
Proof.
  unfold song_view_open. cbn [foldl].
  do 4 apply reachable_scroll.
  change (set_clock 1000 init) with (set_clock (clock init + 1000) init).
  eapply reachable_step; [apply reachable_init|apply step_elapse; lia].
Qed.

End SongCommand.

(** X4. Choosing a song on the monitor plays that song in the nursery: the
    switch in the song menu opens the view of song [(top index + cursor
    line) mod 3]; the switch pressed again there, once the debounce window
    has passed, sends the name of that song and nothing else and returns to
    the song menu; and the sensor node that receives this name plays song
    number [sel + 1] of its three. *)
Theorem song_command_roundtrip
  (io1 io2 : Board.Inputs) (ms : Z) (st : ParentSide.State)
  (b : BabySide.State) :
  let sel := (ParentSide.songOnTopLcdLineID st + ParentSide.cursorLine st) mod 3 in
  let st1 := ParentSide.lcdDisplayTask_turn io1 st in
  let st2 := ParentSide.set_clock (ParentSide.clock st1 + ms) st1 in
  let st3 := ParentSide.lcdDisplayTask_turn io2 st2 in
  let name := list_ascii_of_string (ParentSide.song sel) in
  ParentSide.currLcdView st = ParentSide.SONG_MENU ->
  0 <= ParentSide.songOnTopLcdLineID st < 3 ->
  0 <= ParentSide.cursorLine st <= 1 ->
  Board.sw io1 = false ->
  fst (ParentSide.debounce (ParentSide.millis st)
         (ParentSide.lastSwInputTime st)) = true ->
  Board.sw io2 = false ->
  fst (ParentSide.debounce (ParentSide.millis st2)
         (ParentSide.lastSwInputTime st2)) = true ->
  length (BabySide.incomingMessage b) = 18%nat ->
  ParentSide.currLcdView st1 = ParentSide.SONG_VIEW
  /\ ParentSide.songOnTopLcdLineID st1 = sel
  /\ sent_payloads (emitted st st1) = []
  /\ sent_payloads (emitted st2 st3) = [ name ]
  /\ ParentSide.currLcdView st3 = ParentSide.SONG_MENU
  /\ ParentSide.songOnTopLcdLineID st3 = sel
  /\ exists b',
       BabySide.onDataReceived name (Z.of_nat (length name)) b = Some b'
       /\ BabySide.trace (BabySide.playSongTask_wake b')
          = BabySide.trace b ++ Songs.playSong Board.BUZZER_PIN (sel + 1).
Proof.
  intros sel st1 st2 st3 name Hv Hs Hc Hsw1 Hd1 Hsw2 Hd2 Hb.
  assert (Hsel : Z.rem (ParentSide.songOnTopLcdLineID st
                        + ParentSide.cursorLine st) 3 = sel)
    by (apply Z.rem_mod_nonneg; lia).
  assert (Hsel3 : 0 <= sel < 3) by (apply Z.mod_pos_bound; lia).
  destruct (song_menu_select io1 st Hv Hsw1 Hd1) as (Hv1 & Ht1 & Hc1).
  fold st1 in Hv1, Ht1, Hc1. rewrite Hsel in Ht1.
  assert (Hv2 : ParentSide.currLcdView st2 = ParentSide.SONG_VIEW) by exact Hv1.
  destruct (song_view_send io2 st2 Hv2 Hsw2 Hd2) as (Hp & Hv3 & Ht3 & Hc3).
  fold st3 in Hp, Hv3, Ht3, Hc3.
  change (ParentSide.songOnTopLcdLineID st2)
    with (ParentSide.songOnTopLcdLineID st1) in Hp, Ht3.
  rewrite Ht1 in Hp, Ht3.
  destruct (display_sends io1 st Hs) as (evs & Htr & _ & Hsent).
  fold st1 in Htr.
  destruct (song_delivered sel b Hsel3 Hb) as (b' & Hrecv & Hplay & _).
  repeat split; try assumption.
  - rewrite (emitted_app _ _ _ Htr).
    destruct Hsent as [Hn|[[Hx _]|[Hx _]]]; [exact Hn|congruence|congruence].
  - exists b'. split; assumption.
Qed.

Lemma song_command_roundtrip_witness :
  sent_payloads
    (emitted (ParentSide.set_clock 2000
                (ParentSide.lcdDisplayTask_turn press song_menu_top))
             (ParentSide.lcdDisplayTask_turn press
                (ParentSide.set_clock 2000
                   (ParentSide.lcdDisplayTask_turn press song_menu_top))))
  = [ list_ascii_of_string "Little Star" ].
Proof.
  assert (H := song_command_roundtrip press press 900 song_menu_top BabySide.init).
  cbv zeta in H.
  assert (H' := H eq_refl).
  assert (H2 : 0 <= ParentSide.songOnTopLcdLineID song_menu_top < 3)
    by (vm_compute; intuition congruence).
  assert (H3 : 0 <= ParentSide.cursorLine song_menu_top <= 1)
    by (vm_compute; intuition congruence).
  specialize (H' H2 H3 eq_refl eq_refl eq_refl eq_refl eq_refl).
  exact (proj1 (proj2 (proj2 (proj2 H')))).
Defined.

(** X5. Whatever a reachable monitor sends over the radio in a step is the
    name of one of the three songs, which the sensor node takes in whole
    into its 18-byte buffer and plays as one of its three songs: the monitor
    never makes the sensor node report an invalid selection. *)
Theorem monitor_commands_accepted
  (st st' : ParentSide.State) (a : ParentSide.Action) (b : BabySide.State) :
  ParentSide.reachable st ->
  ParentSide.step st a st' ->
  length (BabySide.incomingMessage b) = 18%nat ->
  forall p, p ∈ sent_payloads (emitted st st') ->
    p ∈ song_names
    /\ exists b' n,
         BabySide.onDataReceived p (Z.of_nat (length p)) b = Some b'
         /\ 1 <= n <= 3
         /\ BabySide.trace (BabySide.playSongTask_wake b')
            = BabySide.trace b ++ Songs.playSong Board.BUZZER_PIN n.
Proof.
  intros Hr Hs Hb p Hp.
  pose proof (reachable_inv st Hr) as (_ & _ & _ & Hg & _).
  destruct (step_emits st st' a Hg Hs) as (evs & Ht & _ & Hsent).
  rewrite (emitted_app _ _ _ Ht) in Hp.
  destruct Hsent as [Hn|(i & Hi & Hn)]; rewrite Hn in Hp.
  - by apply elem_of_nil in Hp.
  - apply list_elem_of_singleton in Hp. subst p.
    split; [by apply song_in_names|].
    destruct (song_delivered i b Hi Hb) as (b' & Hrecv & Hplay & _).
    exists b', (i + 1). repeat split; try assumption; lia.
Qed.

Lemma monitor_commands_accepted_witness :
  list_ascii_of_string "Mary's Lamb" ∈ song_names
  /\ exists b' n,
       BabySide.onDataReceived (list_ascii_of_string "Mary's Lamb") 11
         BabySide.init = Some b'
       /\ 1 <= n <= 3
       /\ BabySide.trace (BabySide.playSongTask_wake b')
          = BabySide.trace BabySide.init ++ Songs.playSong Board.BUZZER_PIN n.
Proof.
  refine (monitor_commands_accepted song_view_open
            (ParentSide.lcdDisplayTask_turn press song_view_open)
            (ParentSide.Display press) BabySide.init
            reachable_song_view_open (ParentSide.step_display _ _) _
            (list_ascii_of_string "Mary's Lamb") _).
  - reflexivity.
  - apply list_elem_of_In. vm_compute. left. reflexivity.
Defined.

Section MonitorReach.

Import Board FreeRTOS ParentSide.

Lemma reachable_radio (data : list ascii) (st : State) :
  reachable st -> reachable (radio data st).
Proof.
  intros H. unfold radio.
  destruct (onDataRecv data (Z.of_nat (length data)) st) as [st1|] eqn:E;
    [|exact H].
  eapply reachable_step; [exact H|]. by apply step_radio.
Qed.

Lemma reachable_receive (st : State) : reachable st -> reachable (receive st).
Proof.
  intros H. unfold receive.
  destruct (receiveDataTask_turn st) as [[st1|]|] eqn:E; try exact H.
  eapply reachable_step; [exact H|]. by apply step_receive.
Qed.

Lemma reachable_noise_alarm_delivered : reachable noise_alarm_delivered.
Proof. apply reachable_receive, reachable_radio, reachable_init. Qed.

Lemma reachable_flooded : reachable flooded.
Proof.
  unfold flooded. generalize 21%nat. intros n.
  induction n as [|n IH]; cbn [Nat.iter nat_rect];
    [apply reachable_init|by apply reachable_radio].
Qed.

(** The buzzer calls of the whole trace come in pairs. *)
Lemma reachable_buzzer (st : State) :
  reachable st ->
  exists n, buzzer_calls (trace st)
            = mjoin (replicate n [ Tone BUZZER_PIN 1000; NoTone BUZZER_PIN ]).
Proof.
  induction 1 as [|st a st' Hr [n IH] Hs]; [by exists 0%nat|].
  pose proof (reachable_inv st Hr) as (_ & _ & _ & Hg & _).
  destruct (step_emits st st' a Hg Hs) as (evs & Ht & Hb & _).
  rewrite Ht, buzzer_calls_app, IH, Hb.
  destruct (is_buzz a && in_alarm st).
  - exists (S n). rewrite replicate_S_end, join_app. reflexivity.
  - exists n. by rewrite app_nil_r.
Qed.

Lemma pairs_off (n : nat) :
  match last (mjoin (replicate n [ Tone BUZZER_PIN 1000; NoTone BUZZER_PIN ])) with
  | Some (Tone _ _) => true
  | _ => false
  end = false.
Proof.
  destruct n as [|n]; [reflexivity|].
  rewrite replicate_S_end, join_app.
  change (mjoin [[Tone BUZZER_PIN 1000; NoTone BUZZER_PIN]])
    with [Tone BUZZER_PIN 1000; NoTone BUZZER_PIN].
  by rewrite last_app.
Qed.

End MonitorReach.

(** X6. On the monitor the buzzer is driven by the buzzer task alone and
    only in the alarm view: a step adds a 1000 Hz tone followed by its
    [noTone] when it is a wake-up of the buzzer task in the alarm view, and
    no buzzer call otherwise; so the buzzer calls of a whole run are such
    pairs, and no step leaves the buzzer sounding. *)
Theorem monitor_buzzer_pulses
  (st st' : ParentSide.State) (a : ParentSide.Action) :
  ParentSide.reachable st ->
  ParentSide.step st a st' ->
  buzzer_calls (emitted st st')
  = (if is_buzz a && ParentSide.in_alarm st
     then [ Board.Tone Board.BUZZER_PIN 1000; Board.NoTone Board.BUZZER_PIN ]
     else [])
  /\ (exists n,
        buzzer_calls (ParentSide.trace st')
        = mjoin (replicate n [ Board.Tone Board.BUZZER_PIN 1000;
                               Board.NoTone Board.BUZZER_PIN ]))
  /\ buzzer_on (ParentSide.trace st) = false
  /\ buzzer_on (ParentSide.trace st') = false.
Proof.
  intros Hr Hs.
  pose proof (reachable_inv st Hr) as (_ & _ & _ & Hg & _).
  destruct (step_emits st st' a Hg Hs) as (evs & Ht & Hb & _).
  assert (Hr' : ParentSide.reachable st') by (eapply ParentSide.reachable_step; done).
  destruct (reachable_buzzer st Hr) as [n Hn].
  destruct (reachable_buzzer st' Hr') as [n' Hn'].
  split; [by rewrite (emitted_app _ _ _ Ht)|].
  split; [by exists n'|].
  unfold buzzer_on. rewrite Hn, Hn'. split; apply pairs_off.
Qed.

Lemma monitor_buzzer_pulses_witness :
  buzzer_calls (emitted noise_alarm_delivered
                  (ParentSide.buzzAlarmTask_wake noise_alarm_delivered))
  = [ Board.Tone 9 1000; Board.NoTone 9 ].
Proof.
  exact (proj1 (monitor_buzzer_pulses noise_alarm_delivered
                  (ParentSide.buzzAlarmTask_wake noise_alarm_delivered)
                  ParentSide.Buzz reachable_noise_alarm_delivered
                  (ParentSide.step_buzz _))).
Defined.

Section SongTables.

Import Board Songs.

(** With as many durations as notes, [playNotes] over the whole notes
    array sounds and stops every note, in order. *)
Lemma playNotes_buzzer (pin : Z) (notes durations : list Z) :
  length notes = length durations ->
  buzzer_calls (playNotes pin notes durations (length notes))
  = flat_map (fun f => [ Tone pin f; NoTone pin ]) notes.
Proof.
  unfold playNotes. revert durations.
  induction notes as [|f notes IH]; intros [|d durations] Hl;
    try discriminate; [reflexivity|].
  cbn [length take zip zip_with flat_map]. rewrite buzzer_calls_app, IH by (cbn in Hl; lia).
  reflexivity.
Qed.

Lemma song_tables (songNum : Z) :
  length (song_notes songNum) = length (song_durations songNum)
  /\ Forall (fun d => d <> 0) (song_durations songNum).
Proof.
  unfold song_notes, song_durations.
  destruct (songNum =? 1); [split; [reflexivity|by repeat constructor]|].
  destruct (songNum =? 2); [split; [reflexivity|by repeat constructor]|].
  destruct (songNum =? 3); [split; [reflexivity|by repeat constructor]|].
  split; [reflexivity|constructor].
Qed.

Lemma playSong_table (pin songNum : Z) :
  1 <= songNum <= 3 ->
  playSong pin songNum
  = playNotes pin (song_notes songNum) (song_durations songNum)
      (length (song_notes songNum)).
Proof.
  intros H. unfold playSong, song_notes, song_durations.
  destruct (Z.eqb_spec songNum 1); [reflexivity|].
  destruct (Z.eqb_spec songNum 2); [reflexivity|].
  destruct (Z.eqb_spec songNum 3); [reflexivity|]. lia.
Qed.

End SongTables.

(** X7. [playSong] reads its tables within their bounds and never divides
    by zero: each of the three songs has as many durations as notes and no
    duration is 0. It sounds every note of the song once, in order, each
    tone followed by its [noTone], so that the buzzer is silent when the
    song ends; a number other than 1, 2 and 3 makes no sound. *)
Theorem playSong_sounds_every_note (pin songNum : Z) :
  length (song_notes songNum) = length (song_durations songNum)
  /\ Forall (fun d => d <> 0) (song_durations songNum)
  /\ buzzer_calls (Songs.playSong pin songNum)
     = flat_map (fun f => [ Board.Tone pin f; Board.NoTone pin ])
                (song_notes songNum)
  /\ buzzer_on (Songs.playSong pin songNum) = false
  /\ (songNum < 1 \/ 3 < songNum ->
      Songs.playSong pin songNum
      = [ Board.SerialPrintln "Invalid selection. Please enter 1, 2, or 3." ]).
Proof.
  destruct (song_tables songNum) as [Hl Hd].
  split; [exact Hl|]. split; [exact Hd|].
  assert (Hb : buzzer_calls (Songs.playSong pin songNum)
               = flat_map (fun f => [ Board.Tone pin f; Board.NoTone pin ])
                          (song_notes songNum)).
  { destruct (Z.leb_spec 1 songNum) as [H1|H1];
      [destruct (Z.leb_spec songNum 3) as [H3|H3]|].
    - rewrite playSong_table by lia. by apply playNotes_buzzer.
    - unfold Songs.playSong, song_notes.
      destruct (Z.eqb_spec songNum 1); [lia|].
      destruct (Z.eqb_spec songNum 2); [lia|].
      destruct (Z.eqb_spec songNum 3); [lia|]. reflexivity.
    - unfold Songs.playSong, song_notes.
      destruct (Z.eqb_spec songNum 1); [lia|].
      destruct (Z.eqb_spec songNum 2); [lia|].
      destruct (Z.eqb_spec songNum 3); [lia|]. reflexivity. }
  split; [exact Hb|]. split.
  - unfold buzzer_on. rewrite Hb. clear.
    induction (song_notes songNum) as [|f [|g l] IH]; try reflexivity.
    exact IH.
  - intros H. unfold Songs.playSong.
    destruct (Z.eqb_spec songNum 1); [lia|].
    destruct (Z.eqb_spec songNum 2); [lia|].
    destruct (Z.eqb_spec songNum 3); [lia|]. reflexivity.
Qed.

Section MonitorQueue.

Import Board CLib FreeRTOS ParentSide.

Lemma display_sensorDataQueue (io : Inputs) (st : State) :
  sensorDataQueue (lcdDisplayTask_turn io st) = sensorDataQueue st.
Proof.
  unfold_display. destruct (currLcdView st); split_display; reflexivity.
Qed.

Lemma check_sensorDataQueue (f : AlarmCheck) (v : Float32.float) (st : State) :
  sensorDataQueue (snd (call_triggerAlarm f v st)) = sensorDataQueue st.
Proof.
  destruct f; cbn [call_triggerAlarm];
    unfold checkNoise, checkTempurature, checkHumidity, checkMotion,
           checkWater, checkLight;
    match goal with |- context [if ?c then _ else _] => destruct c end;
    reflexivity.
Qed.

Lemma receive_reading_queue (i : Z) (v : Float32.float) (st st' : State) :
  receive_reading i v st = Done st' -> sensorDataQueue st' = sensorDataQueue st.
Proof.
  unfold receive_reading.
  destruct (if 0 <=? i then sensorValues st !! Z.to_nat i else None) as [s|];
    [|discriminate].
  intros [= <-].
  exact (check_sensorDataQueue _ v
           (set_sensorValues (<[Z.to_nat i:=set_value v s]> (sensorValues st)) st)).
Qed.

Lemma receiveDataTask_queue (st st' : State) :
  receiveDataTask_turn st = Some (Done st') ->
  uxLength (sensorDataQueue st') = uxLength (sensorDataQueue st)
  /\ exists item, items (sensorDataQueue st) = item :: items (sensorDataQueue st').
Proof.
  unfold receiveDataTask_turn.
  destruct (xQueueReceive (sensorDataQueue st) portMAX_DELAY)
    as [item q| |] eqn:Eq; try discriminate.
  apply xQueueReceive_Received in Eq as [Hcap Hitems].
  unfold receiveDataTask_item.
  destruct (parse_reading item) as [[i v]|].
  - destruct (receive_reading i v _) as [st1|] eqn:E; [|discriminate].
    intros [= <-]. apply receive_reading_queue in E.
    cbn [vTaskDelay_ms emit set_clock sensorDataQueue]. rewrite E. cbn. eauto.
  - intros [= <-]. cbn. eauto.
Qed.

(** What the receive callback does to the buffer and to the queue: the
    buffer holds the message and its terminator, and a copy of the buffer
    goes to the back of the queue unless the queue is full. *)
Lemma onDataRecv_queue (data : list ascii) (len : Z) (st st' : State) :
  onDataRecv data len st = Some st' ->
  length (incomingMessage st') = length (incomingMessage st)
  /\ NUL ∈ incomingMessage st'
  /\ uxLength (sensorDataQueue st') = uxLength (sensorDataQueue st)
  /\ items (sensorDataQueue st')
     = if (length (items (sensorDataQueue st)) <? uxLength (sensorDataQueue st))%nat
       then items (sensorDataQueue st) ++ [ incomingMessage st' ]
       else items (sensorDataQueue st).
Proof.
  unfold onDataRecv. intros H.
  destruct (memcpy (incomingMessage st) data len) as [buf|] eqn:Ecpy;
    [|discriminate].
  cbn [mbind option_bind] in H.
  pose proof (memcpy_length _ _ _ _ Ecpy) as Hlen.
  unfold store in H.
  destruct (Z.leb_spec 0 len); [|discriminate].
  destruct (Z.ltb_spec len (Z.of_nat (length buf))); [|discriminate].
  cbn [andb mbind option_bind] in H. injection H as <-.
  assert (Hnul : NUL ∈ <[Z.to_nat len:=NUL]> buf).
  { apply (list_elem_of_lookup_2 _ (Z.to_nat len)).
    apply list_lookup_insert_eq. lia. }
  unfold xQueueSendFromISR, xQueueSend, is_full.
  cbn [sensorDataQueue set_incomingMessage].
  destruct (Nat.leb_spec (uxLength (sensorDataQueue st))
              (length (items (sensorDataQueue st))));
    destruct (Nat.ltb_spec (length (items (sensorDataQueue st)))
                (uxLength (sensorDataQueue st))); try lia;
    cbn; rewrite length_insert; auto.
Qed.

Lemma step_queue_ok (st st' : State) (a : Action) :
  queue_ok st -> step st a st' -> queue_ok st'.
Proof.
  intros (Hbuf & Hcap & Hlen & Hitems) Hs.
  destruct Hs as [st data st' H|st st' H|st io|st|st ms H].
  - destruct (onDataRecv_queue _ _ _ _ H) as (Hb & Hn & Hc & Hi).
    unfold queue_ok. rewrite Hb, Hc, Hi, Hcap.
    destruct (Nat.ltb_spec (length (items (sensorDataQueue st))) 20).
    + rewrite length_app, Forall_app, Forall_singleton. unfold item_ok.
      cbn. rewrite Hb. repeat split; try done; lia.
    + done.
  - destruct (receiveDataTask_queue _ _ H) as (Hc & item & Hi).
    assert (Hb : incomingMessage st' = incomingMessage st).
    { unfold receiveDataTask_turn in H.
      destruct (xQueueReceive (sensorDataQueue st) portMAX_DELAY)
        as [it q| |]; try discriminate.
      unfold receiveDataTask_item in H.
      destruct (parse_reading it) as [[i v]|].
      - destruct (receive_reading i v _) as [st1|] eqn:E; [|discriminate].
        injection H as <-. unfold receive_reading in E.
        destruct (if 0 <=? i then _ else None) as [s|]; [|discriminate].
        injection E as <-. cbn.
        destruct (triggerAlarm s); cbn [call_triggerAlarm];
          unfold checkNoise, checkTempurature, checkHumidity, checkMotion,
                 checkWater, checkLight;
          match goal with |- context [if ?c then _ else _] => destruct c end;
          reflexivity.
      - by injection H as <-. }
    unfold queue_ok. rewrite Hb, Hc. rewrite Hi in Hlen, Hitems.
    apply Forall_cons in Hitems as [_ Hitems]. cbn in Hlen.
    repeat split; try done; lia.
  - unfold queue_ok.
    by rewrite display_incomingMessage, display_sensorDataQueue.
  - unfold queue_ok, buzzAlarmTask_wake. by destruct (in_alarm st).
  - done.
Qed.

Lemma reachable_queue_ok (st : State) : reachable st -> queue_ok st.
Proof.
  induction 1 as [|st a st' Hr IH Hs].
  - repeat split; cbn; try lia. constructor.
  - by eapply step_queue_ok.
Qed.

End MonitorQueue.

(** X8. The receive queue of the monitor keeps its 20 slots and never
    holds more than 20 items; each item is a 10-byte copy of the receive
    buffer with a NUL in it, so that the receive task reads a string that
    ends inside the item. A message that arrives while the queue is full
    overwrites the buffer and is otherwise lost: the queue stays as it is;
    with room, the message goes to the back of the queue. *)
Theorem monitor_queue_bounded (st : ParentSide.State) :
  ParentSide.reachable st ->
  FreeRTOS.uxLength (ParentSide.sensorDataQueue st) = 20%nat
  /\ (length (FreeRTOS.items (ParentSide.sensorDataQueue st)) <= 20)%nat
  /\ Forall item_ok (FreeRTOS.items (ParentSide.sensorDataQueue st))
  /\ forall data len st',
       ParentSide.onDataRecv data len st = Some st' ->
       FreeRTOS.items (ParentSide.sensorDataQueue st')
       = if (length (FreeRTOS.items (ParentSide.sensorDataQueue st)) <? 20)%nat
         then FreeRTOS.items (ParentSide.sensorDataQueue st)
                ++ [ ParentSide.incomingMessage st' ]
         else FreeRTOS.items (ParentSide.sensorDataQueue st).
Proof.
  intros Hr. destruct (reachable_queue_ok st Hr) as (Hbuf & Hcap & Hlen & Hitems).
  repeat split; try done.
  intros data len st' H.
  destruct (onDataRecv_queue _ _ _ _ H) as (_ & _ & _ & Hi).
  by rewrite Hi, Hcap.
Qed.

Lemma monitor_queue_bounded_witness :
  (length (FreeRTOS.items (ParentSide.sensorDataQueue flooded)) <= 20)%nat
  /\ FreeRTOS.items (ParentSide.sensorDataQueue
                       (radio (list_ascii_of_string "0:4000.00") flooded))
     = FreeRTOS.items (ParentSide.sensorDataQueue flooded).
Proof.
  pose proof (monitor_queue_bounded flooded reachable_flooded)
    as (_ & Hlen & _ & Hfull).
  split; [exact Hlen|].
  exact (Hfull (list_ascii_of_string "0:4000.00") 9
           (radio (list_ascii_of_string "0:4000.00") flooded) eq_refl).
Defined.

Section SensorCommands.

Import Board CLib BabySide.

Lemma playSongTask_wake_split (b : State) :
  messageReceived b = true ->
  playSongTask_wake b = set_messageReceived false (playSongTask_select b).
Proof. intros H. unfold playSongTask_wake. by rewrite H. Qed.

Lemma playSongTask_select_trace (b : State) :
  trace (playSongTask_select b)
  = trace b ++ command_effect (cstr (incomingMessage b))
  /\ incomingMessage (playSongTask_select b) = incomingMessage b.
Proof.
  unfold playSongTask_select, command_effect.
  rewrite !strcmp_literal by reflexivity.
  repeat case_bool_decide; done.
Qed.

Lemma onDataReceived_Some_iff (d : list ascii) (b : State) :
  is_Some (onDataReceived d (Z.of_nat (length d)) b)
  <-> (length d < length (incomingMessage b))%nat.
Proof.
  split.
  - intros [b' H]. unfold onDataReceived in H.
    destruct (memcpy _ _ _) as [buf|] eqn:Ecpy; [|discriminate].
    cbn [mbind option_bind] in H.
    pose proof (memcpy_length _ _ _ _ Ecpy) as Hl.
    destruct (store buf _ NUL) as [buf'|] eqn:Est; [|discriminate].
    assert (Hs : is_Some (store buf (Z.of_nat (length d)) NUL)) by (by eexists).
    apply store_Some_iff in Hs. lia.
  - intros H. rewrite onDataReceived_fits by exact H. by eexists.
Qed.

End SensorCommands.

(** X9. The command buffer of the sensor node: a command of up to 17
    bytes is taken in whole, and one of 18 bytes or more would be written
    outside the 18-byte buffer. The next wake-up of the song task acts on
    the string received, plays the song it names or reports an invalid
    selection, and clears the flag, so that the command is acted on once. *)
Theorem sensor_command_buffer (d : list ascii) (b : BabySide.State) :
  length (BabySide.incomingMessage b) = 18%nat ->
  (is_Some (BabySide.onDataReceived d (Z.of_nat (length d)) b)
   <-> (length d <= 17)%nat)
  /\ forall b',
       BabySide.onDataReceived d (Z.of_nat (length d)) b = Some b' ->
       length (BabySide.incomingMessage b') = 18%nat
       /\ CLib.cstr (BabySide.incomingMessage b') = CLib.cstr d
       /\ BabySide.trace (BabySide.playSongTask_wake b')
          = BabySide.trace b ++ command_effect (CLib.cstr d)
       /\ BabySide.playSongTask_wake (BabySide.playSongTask_wake b')
          = BabySide.playSongTask_wake b'.
Proof.
  intros Hb. split.
  - rewrite onDataReceived_Some_iff, Hb. lia.
  - intros b' H.
    assert (Hlen : (length d < length (BabySide.incomingMessage b))%nat).
    { apply onDataReceived_Some_iff. by eexists. }
    rewrite onDataReceived_fits in H by exact Hlen. injection H as <-.
    cbn [BabySide.incomingMessage BabySide.set_messageReceived
         BabySide.set_incomingMessage].
    split.
    { rewrite length_app. cbn [length]. rewrite length_drop. lia. }
    split; [apply cstr_app_NUL|].
    rewrite playSongTask_wake_pending by reflexivity.
    cbn [BabySide.incomingMessage BabySide.set_messageReceived
         BabySide.set_incomingMessage BabySide.emit BabySide.trace].
    rewrite cstr_app_NUL. split; [reflexivity|].
    reflexivity.
Qed.

Lemma sensor_command_buffer_witness :
  is_Some (BabySide.onDataReceived (list_ascii_of_string "Wheels on Bus") 13
             BabySide.init)
  <-> (13 <= 17)%nat.
Proof.
  exact (proj1 (sensor_command_buffer (list_ascii_of_string "Wheels on Bus")
                  BabySide.init eq_refl)).
Defined.

(** X10. The sensor node keeps one command, not a queue of them. Of two
    commands that arrive before the song task wakes, only the second is
    acted on. A command that arrives while the song of the one before is
    playing is never acted on: the task clears the flag when the song ends,
    and its later wake-ups do nothing. *)
Theorem sensor_command_overwritten (d1 d2 : list ascii) (b : BabySide.State) :
  length (BabySide.incomingMessage b) = 18%nat ->
  (length d1 <= 17)%nat ->
  (length d2 <= 17)%nat ->
  exists b1,
    BabySide.onDataReceived d1 (Z.of_nat (length d1)) b = Some b1
    /\ (exists b2,
          BabySide.onDataReceived d2 (Z.of_nat (length d2)) b1 = Some b2
          /\ BabySide.trace (BabySide.playSongTask_wake b2)
             = BabySide.trace b ++ command_effect (CLib.cstr d2))
    /\ (exists b3,
          BabySide.onDataReceived d2 (Z.of_nat (length d2))
            (playSongTask_select b1) = Some b3
          /\ BabySide.messageReceived b3 = true
          /\ CLib.cstr (BabySide.incomingMessage b3) = CLib.cstr d2
          /\ BabySide.trace
               (BabySide.playSongTask_wake (BabySide.set_messageReceived false b3))
             = BabySide.trace b ++ command_effect (CLib.cstr d1)).
Proof.
  intros Hb H1 H2.
  assert (Hl1 : (length d1 < length (BabySide.incomingMessage b))%nat) by lia.
  eexists. split; [by apply onDataReceived_fits|].
  split.
  - eexists. split.
    + apply onDataReceived_fits.
      cbn [BabySide.incomingMessage BabySide.set_messageReceived
           BabySide.set_incomingMessage].
      rewrite length_app. cbn [length]. rewrite length_drop. lia.
    + rewrite playSongTask_wake_pending by reflexivity.
      cbn [BabySide.incomingMessage BabySide.set_messageReceived
           BabySide.set_incomingMessage BabySide.emit BabySide.trace].
      by rewrite cstr_app_NUL.
  - destruct (playSongTask_select_trace
                (BabySide.set_messageReceived true
                   (BabySide.set_incomingMessage
                      (d1 ++ CLib.NUL
                          :: drop (S (length d1)) (BabySide.incomingMessage b)) b)))
      as [Ht Hm].
    eexists. split.
    + apply onDataReceived_fits. rewrite Hm.
      cbn [BabySide.incomingMessage BabySide.set_messageReceived
           BabySide.set_incomingMessage].
      rewrite length_app. cbn [length]. rewrite length_drop. lia.
    + cbn [BabySide.incomingMessage BabySide.set_messageReceived
           BabySide.set_incomingMessage BabySide.messageReceived].
      split; [reflexivity|]. split; [apply cstr_app_NUL|].
      unfold BabySide.playSongTask_wake.
      cbn [BabySide.incomingMessage BabySide.set_messageReceived
           BabySide.set_incomingMessage BabySide.messageReceived BabySide.trace].
      rewrite Ht.
      cbn [BabySide.incomingMessage BabySide.set_messageReceived
           BabySide.set_incomingMessage BabySide.trace].
      by rewrite cstr_app_NUL.
Qed.

Lemma sensor_command_overwritten_witness :
  exists b1,
    BabySide.onDataReceived (list_ascii_of_string "Little Star") 11 BabySide.init
    = Some b1
    /\ (exists b2,
          BabySide.onDataReceived (list_ascii_of_string "Mary's Lamb") 11 b1
          = Some b2
          /\ BabySide.trace (BabySide.playSongTask_wake b2)
             = BabySide.trace BabySide.init
               ++ command_effect (CLib.cstr (list_ascii_of_string "Mary's Lamb")))
    /\ (exists b3,
          BabySide.onDataReceived (list_ascii_of_string "Mary's Lamb") 11
            (playSongTask_select b1) = Some b3
          /\ BabySide.messageReceived b3 = true
          /\ CLib.cstr (BabySide.incomingMessage b3)
             = CLib.cstr (list_ascii_of_string "Mary's Lamb")
          /\ BabySide.trace
               (BabySide.playSongTask_wake (BabySide.set_messageReceived false b3))
             = BabySide.trace BabySide.init
               ++ command_effect (CLib.cstr (list_ascii_of_string "Little Star"))).
Proof.
  apply (sensor_command_overwritten (list_ascii_of_string "Little Star")
           (list_ascii_of_string "Mary's Lamb") BabySide.init).
  - reflexivity.
  - vm_compute. lia.
  - vm_compute. lia.
Defined.

Section Sampling.

Import Board FreeRTOS BabySide.

Lemma run_app (st st1 st2 : State) (ls1 ls2 : list Label) :
  run st ls1 st1 -> run st1 ls2 st2 -> run st (ls1 ++ ls2) st2.
Proof.
  induction 1 as [|st l sta ls stb Hs Hr IH]; intros H2; [exact H2|].
  cbn. eapply run_cons; [exact Hs|]. by apply IH.
Qed.

Lemma run_snoc_inv (st st' : State) (ls : list Label) (l : Label) :
  run st (ls ++ [l]) st' -> exists st1, run st ls st1 /\ step st1 l st'.
Proof.
  revert st. induction ls as [|l0 ls IH]; intros st H; cbn in H.
  - inversion H as [|? ? st1 ? ? Hs Hr]; subst.
    inversion Hr; subst. exists st. split; [constructor|exact Hs].
  - inversion H as [|? ? st1 ? ? Hs Hr]; subst.
    destruct (IH _ Hr) as (st2 & Hr2 & Hs2).
    exists st2. split; [|exact Hs2]. eapply run_cons; eassumption.
Qed.

Lemma sampled_app (a b : list Label) : sampled (a ++ b) = sampled a ++ sampled b.
Proof. unfold sampled. apply flat_map_app. Qed.

Lemma pushed_app (a b : list Label) : pushed (a ++ b) = pushed a ++ pushed b.
Proof. unfold pushed. apply flat_map_app. Qed.

Lemma transmitted_app (a b : list Label) :
  transmitted (a ++ b) = transmitted a ++ transmitted b.
Proof. unfold transmitted. apply flat_map_app. Qed.

Lemma table_ids_init : table_ids sensorValues_init.
Proof. intros []; eexists; split; reflexivity. Qed.

Lemma idx_inj_baby (s t : sensorIDs) : idx s = idx t -> s = t.
Proof. destruct s, t; cbn; intros H; try reflexivity; discriminate. Qed.

Lemma table_ids_sample (tbl : list SensorInfo) (s : sensorIDs)
      (v : Float32.float) (r : SensorInfo) :
  table_ids tbl -> tbl !! idx s = Some r ->
  table_ids (<[idx s := set_value v r]> tbl).
Proof.
  intros Ht Hr t. destruct (Ht t) as (r' & Hr' & Hid).
  destruct (decide (idx s = idx t)) as [E|E].
  - exists (set_value v r). rewrite <- E. split.
    + apply list_lookup_insert_eq. by eapply lookup_lt_Some.
    + cbn [id set_value]. apply idx_inj_baby in E. subst t.
      congruence.
  - exists r'. split; [|exact Hid]. by rewrite list_lookup_insert_ne.
Qed.

Lemma next_pc_cases (k : nat) :
  (k < 6)%nat ->
  (k < 5 /\ next_pc k = AtRead (S k))%nat \/ (k = 5%nat /\ next_pc k = AtDelay).
Proof.
  intros H. unfold next_pc. cbn [length sampling_order].
  destruct (Nat.ltb_spec (S k) 6); [left|right]; split; try reflexivity; lia.
Qed.

Lemma mod6_succ (n k : nat) :
  (n mod 6 = k)%nat -> (k < 5)%nat -> (S n mod 6 = S k)%nat.
Proof.
  intros H Hk. pose proof (Nat.div_mod_eq n 6).
  symmetry. apply (Nat.mod_unique (S n) 6 (n / 6)); lia.
Qed.

Lemma mod6_wrap (n : nat) : (n mod 6 = 5)%nat -> (S n mod 6 = 0)%nat.
Proof.
  intros H. pose proof (Nat.div_mod_eq n 6).
  symmetry. apply (Nat.mod_unique (S n) 6 (S (n / 6))); lia.
Qed.

Lemma step_sample_inv (ls : list Label) (l : Label) (st st' : State) :
  queue_inv st -> sample_inv ls st -> step st l st' ->
  sample_inv (ls ++ [l]) st'.
Proof.
  intros (_ & _ & _ & Hpc) (Htbl & Hord & Hsent & Hpcs) Hstep.
  destruct Hstep as [st k s v r Hk Hs Hr | st k s r q Hk Hs Hr Hq
                     | st k s r Hk Hs Hr Hq | st Hk | st r q Hq];
    unfold sample_inv;
    rewrite ?sampled_app, ?pushed_app, ?transmitted_app;
    cbn [sampled pushed transmitted flat_map app samplingPc sensorValues trace
         set_samplingPc set_sensorValues set_sensorQueue emit];
    rewrite ?app_nil_r; rewrite Hk in Hpcs || idtac.
  - (* a sensor is read *)
    destruct Hpcs as [Hps Hlen].
    split; [by apply table_ids_sample|].
    split.
    { intros i s' v' Hi. apply lookup_app_Some in Hi as [Hi|[Hge Hi]].
      - by eapply Hord.
      - apply list_lookup_singleton_Some in Hi as [Hi0 [= <- <-]].
        replace i with (length (sampled ls)) by lia. by rewrite Hlen. }
    split; [exact Hsent|].
    split; [by rewrite <- Hps, length_map in Hlen|].
    exists (set_value v r). cbn [id set_value value].
    destruct (Htbl s) as (r' & Hr' & Hid). rewrite Hr in Hr'.
    injection Hr' as <-. rewrite Hid.
    split; [exact Hs|]. split.
    + apply list_lookup_insert_eq. by eapply lookup_lt_Some.
    + rewrite Hps. unfold reading_of. cbn. by rewrite Hid.
  - (* the reading is queued *)
    destruct Hpcs as [Hlen (r0 & Hs0 & Hr0 & Hsam)].
    rewrite Hs in Hs0. injection Hs0 as ->. rewrite Hr in Hr0.
    injection Hr0 as <-.
    split; [exact Htbl|]. split; [exact Hord|]. split; [exact Hsent|].
    rewrite map_app. cbn [map].
    rewrite Hk in Hpc. cbn in Hpc.
    assert (Hl : (length (sampled ls) = S (length (pushed ls)))%nat).
    { rewrite Hsam, length_app, length_map. cbn. lia. }
    destruct (next_pc_cases k Hpc) as [[Hk5 ->]|[-> ->]].
    + split; [by rewrite Hsam|]. rewrite Hl. by apply mod6_succ.
    + split; [by rewrite Hsam|]. rewrite Hl. by apply mod6_wrap.
  - (* the send never gives up *)
    exfalso. by eapply xQueueSend_forever.
  - (* the delay at the end of a round *)
    destruct Hpcs as [Hps Hlen].
    split; [exact Htbl|]. split; [exact Hord|].
    split; [by rewrite sent_payloads_app, Hsent, app_nil_r|].
    by split.
  - (* a reading is sent *)
    split; [exact Htbl|]. split; [exact Hord|].
    split; [by rewrite sent_payloads_app, Hsent, map_app|].
    exact Hpcs.
Qed.

Lemma run_sample_inv (ls : list Label) (st : State) :
  run init ls st -> queue_inv st /\ sample_inv ls st.
Proof.
  revert st. induction ls as [|l ls IH] using rev_ind; intros st Hrun.
  - inversion Hrun; subst. split; [apply queue_inv_init|].
    split; [apply table_ids_init|]. split; [by intros i s v Hi|].
    split; [reflexivity|]. by split.
  - apply run_snoc_inv in Hrun as (st1 & Hrun1 & Hstep).
    destruct (IH st1 Hrun1) as [Hq Hs].
    split; [by eapply step_queue_inv|by eapply step_sample_inv].
Qed.

End Sampling.

(** X11. What the sensor node sends is what it sampled, in the order it
    sampled it: the sampling task reads the sensors round robin in the order
    light, temperature, humidity, water, motion, noise; every sample is
    queued before the next sensor is read; and the messages sent over the
    radio are, in order, the texts ["<id>:<value>"] of the first samples of
    the run, none left out, repeated or reordered. At most one sample is
    not yet queued, and at most 10 more are queued and not yet sent. *)
Theorem samples_sent_in_order (ls : list BabySide.Label) (st : BabySide.State) :
  BabySide.run BabySide.init ls st ->
  (forall i s v, sampled ls !! i = Some (s, v) ->
                 BabySide.sampling_order !! (i mod 6)%nat = Some s)
  /\ map reading_of (BabySide.pushed ls)
     = take (length (BabySide.pushed ls)) (sampled ls)
  /\ map reading_of (BabySide.transmitted ls)
     = take (length (BabySide.transmitted ls)) (sampled ls)
  /\ sent_payloads (BabySide.trace st)
     = map BabySide.outgoingMessage (BabySide.transmitted ls)
  /\ (length (sampled ls) <= length (BabySide.pushed ls) + 1)%nat
  /\ (length (BabySide.pushed ls) <= length (BabySide.transmitted ls) + 10)%nat.
Proof.
  intros Hrun.
  destruct (run_sample_inv ls st Hrun) as [Hq (Htbl & Hord & Hsent & Hpc)].
  destruct (run_queue _ _ _ queue_inv_init Hrun) as (_ & _ & Hflow).
  cbn [BabySide.init BabySide.sensorQueue FreeRTOS.xQueueCreate FreeRTOS.items app]
    in Hflow.
  destruct Hq as (_ & Hlen & _ & _).
  assert (Hpre : map reading_of (BabySide.pushed ls)
                 = take (length (BabySide.pushed ls)) (sampled ls)
                 /\ (length (sampled ls) <= length (BabySide.pushed ls) + 1)%nat).
  { destruct (BabySide.samplingPc st) as [k|k|].
    - destruct Hpc as [Hps _]. rewrite <- Hps, length_map.
      split; [|lia]. symmetry. apply take_ge. by rewrite length_map.
    - destruct Hpc as [_ (r & _ & _ & Hsam)].
      rewrite Hsam, length_app, length_map. cbn [length].
      split; [|lia]. symmetry.
      rewrite <- (length_map reading_of (BabySide.pushed ls)).
      apply take_app_length.
    - destruct Hpc as [Hps _]. rewrite <- Hps, length_map.
      split; [|lia]. symmetry. apply take_ge. by rewrite length_map. }
  destruct Hpre as [Hpre Hone].
  split; [exact Hord|]. split; [exact Hpre|]. split.
  { rewrite Hflow, map_app, length_app in Hpre.
    apply (f_equal (take (length (BabySide.transmitted ls)))) in Hpre.
    rewrite <- (length_map reading_of (BabySide.transmitted ls)) in Hpre at 1.
    rewrite take_app_length in Hpre. rewrite Hpre, take_take. f_equal. lia. }
  split; [exact Hsent|]. split; [exact Hone|].
  rewrite Hflow, length_app. lia.
Qed.

Lemma samples_sent_in_order_witness :
  exists st,
    BabySide.run BabySide.init light_812_sent st
    /\ sent_payloads (BabySide.trace st)
       = map BabySide.outgoingMessage (BabySide.transmitted light_812_sent).
Proof.
  assert (Hrun : exists st, BabySide.run BabySide.init light_812_sent st).
  { eexists. unfold light_812_sent.
    repeat (eapply BabySide.run_cons; [econstructor; lazy; reflexivity|]).
    apply BabySide.run_nil. }
  destruct Hrun as [st Hrun]. exists st. split; [exact Hrun|].
  apply (samples_sent_in_order light_812_sent st Hrun).
Defined.

Section Delivery.

Import Board CLib FreeRTOS ParentSide.

Lemma onDataRecv_frame (data : list ascii) (len : Z) (st st' : State) :
  onDataRecv data len st = Some st' ->
  sensorValues st' = sensorValues st
  /\ currLcdView st' = currLcdView st
  /\ sensorOnTopLcdLineID st' = sensorOnTopLcdLineID st
  /\ clock st' = clock st.
Proof.
  unfold onDataRecv. intros H.
  destruct (memcpy _ _ _) as [buf|]; [|discriminate]. cbn in H.
  destruct (store _ _ _) as [buf'|]; [|discriminate]. cbn in H.
  injection H as <-.
  by destruct (xQueueSendFromISR _ _).
Qed.



End Delivery.



Section AlarmScreen.

Import Board CLib FreeRTOS ParentSide.

Lemma names_alter (g : SensorInfo -> SensorInfo) (i : nat) (l : list SensorInfo) :
  (forall s, name (g s) = name s) ->
  map name (alter g i l) = map name l.
Proof.
  intros Hg. revert i. induction l as [|s l IH]; intros [|i]; cbn; try done.
  - by rewrite Hg.
  - by rewrite IH.
Qed.

Lemma names_insert (v : Float32.float) (i : nat) (s : SensorInfo)
      (l : list SensorInfo) :
  l !! i = Some s ->
  map name (<[i:=set_value v s]> l) = map name l.
Proof.
  revert i. induction l as [|s0 l IH]; intros [|i] H; cbn in *; try done.
  - by injection H as ->.
  - by rewrite IH.
Qed.

Lemma names_reset (st : State) :
  map name (sensorValues (reset_alarm_flags st)) = map name (sensorValues st).
Proof.
  unfold reset_alarm_flags. generalize (seq 0 (Z.to_nat NUM_SENSORS)).
  intros l. revert st. induction l as [|i l IH]; intros st; [reflexivity|].
  cbn [foldl]. rewrite IH. cbn [sensorValues set_sensorValues].
  by apply names_alter.
Qed.

Lemma names_check (f : AlarmCheck) (v : Float32.float) (st : State) :
  map name (sensorValues (snd (call_triggerAlarm f v st)))
  = map name (sensorValues st).
Proof.
  destruct f; cbn [call_triggerAlarm];
    unfold checkNoise, checkTempurature, checkHumidity, checkMotion,
           checkWater, checkLight, raise_alarm;
    match goal with |- context [if ?c then _ else _] => destruct c end;
    cbn [snd sensorValues set_sensorValues set_currLcdView emit];
    by rewrite ?names_alter.
Qed.

Lemma names_display (io : Inputs) (st : State) :
  map name (sensorValues (lcdDisplayTask_turn io st)) = map name (sensorValues st).
Proof.
  unfold_display. destruct (currLcdView st); split_display;
    cbn [sensorValues vTaskDelay_ms emit set_clock set_currLcdView set_cursorLine
         set_sensorOnTopLcdLineID set_songOnTopLcdLineID set_lastXInputTime
         set_lastYInputTime set_lastSwInputTime moveCursor printSensorPreviews
         printSongPreviews send_song_to_baby];
    rewrite ?names_reset; reflexivity.
Qed.

Lemma step_names_ok (st st' : State) (a : Action) :
  names_ok st -> step st a st' -> names_ok st'.
Proof.
  unfold names_ok. intros Hn Hs.
  destruct Hs as [st data st' H|st st' H|st io|st|st ms H].
  - destruct (onDataRecv_frame _ _ _ _ H) as (-> & _). exact Hn.
  - unfold receiveDataTask_turn in H.
    destruct (xQueueReceive (sensorDataQueue st) portMAX_DELAY)
      as [it q| |]; try discriminate.
    unfold receiveDataTask_item in H.
    destruct (parse_reading it) as [[i v]|].
    + destruct (receive_reading i v _) as [st1|] eqn:E; [|discriminate].
      injection H as <-. unfold receive_reading in E.
      destruct (0 <=? i); [|discriminate].
      cbn [sensorValues set_sensorDataQueue] in E.
      destruct (sensorValues st !! Z.to_nat i) as [s|] eqn:Es; [|discriminate].
      injection E as <-.
      cbn [vTaskDelay_ms emit set_clock sensorValues].
      rewrite names_check. cbn [sensorValues set_sensorValues].
      by rewrite names_insert.
    + by injection H as <-.
  - by rewrite names_display.
  - unfold buzzAlarmTask_wake. by destruct (in_alarm st).
  - exact Hn.
Qed.

Lemma reachable_names_ok (st : State) : reachable st -> names_ok st.
Proof.
  induction 1 as [|st a st' Hr IH Hs]; [reflexivity|by eapply step_names_ok].
Qed.

(** With one flag set, the loop of [printAlarm] over the array collects
    the initial of that sensor. *)
Lemma one_flag_initials (k : sensorIDs) (st : State) :
  names_ok st ->
  alarm_flag k st = true ->
  (forall j, j <> k -> alarm_flag j st = false) ->
  sensorInitials st = sensor_initial k.
Proof.
  unfold names_ok. intros Hn Hk Hothers.
  destruct (sensorValues st) as [|s0 [|s1 [|s2 [|s3 [|s4 [|s5 [|s6 l]]]]]]] eqn:E;
    try discriminate.
  injection Hn as H0 H1 H2 H3 H4 H5.
  unfold sensorInitials. rewrite E.
  change (Z.to_nat NUM_SENSORS) with 6%nat. cbn [take foldr].
  unfold initial_of. rewrite H0, H1, H2, H3, H4, H5.
  assert (A0 : alarm_flag NOISE st = alarm s0) by (unfold alarm_flag; by rewrite E).
  assert (A1 : alarm_flag TEMP st = alarm s1) by (unfold alarm_flag; by rewrite E).
  assert (A2 : alarm_flag HUMIDITY st = alarm s2) by (unfold alarm_flag; by rewrite E).
  assert (A3 : alarm_flag MOTION st = alarm s3) by (unfold alarm_flag; by rewrite E).
  assert (A4 : alarm_flag WATER st = alarm s4) by (unfold alarm_flag; by rewrite E).
  assert (A5 : alarm_flag LIGHT st = alarm s5) by (unfold alarm_flag; by rewrite E).
  rewrite <- A0, <- A1, <- A2, <- A3, <- A4, <- A5.
  destruct k; rewrite Hk; rewrite !Hothers by discriminate; reflexivity.
Qed.

Lemma printAlarm_prints (io : Inputs) (st : State) :
  currLcdView st = ALARM ->
  LcdPrint (sensorInitials st) ∈ emitted st (lcdDisplayTask_turn io st).
Proof.
  intros Hv. unfold_display. rewrite Hv. split_display;
    (erewrite emitted_app by (trace_form; reflexivity));
    apply list_elem_of_In; cbn; auto 10.
Qed.

End AlarmScreen.

(** X13. The alarm screen names the sensor that raised the alarm. In the
    alarm view of a reachable monitor exactly one flag is set, and each turn
    of the display task prints under "Alarm caused by:" the initial of that
    sensor and no other, whatever other sensors have tripped since. *)
Theorem alarm_screen_names_sensor (io : Board.Inputs) (st : ParentSide.State) :
  ParentSide.reachable st ->
  ParentSide.currLcdView st = ParentSide.ALARM ->
  exists k,
    ParentSide.alarm_flag k st = true
    /\ (forall j, j <> k -> ParentSide.alarm_flag j st = false)
    /\ ParentSide.sensorInitials st = sensor_initial k
    /\ Board.LcdPrint "<Alarm caused by:"
         ∈ emitted st (ParentSide.lcdDisplayTask_turn io st)
    /\ Board.LcdPrint (sensor_initial k)
         ∈ emitted st (ParentSide.lcdDisplayTask_turn io st).
Proof.
  intros Hr Hv.
  pose proof (reachable_inv st Hr) as (_ & _ & _ & _ & _ & _ & Hone).
  destruct (Hone Hv) as (k & Hk & Hothers).
  pose proof (one_flag_initials k st (reachable_names_ok st Hr) Hk Hothers) as Hi.
  exists k. split; [exact Hk|]. split; [exact Hothers|]. split; [exact Hi|].
  split.
  - unfold_display. rewrite Hv. split_display;
      (erewrite emitted_app by (trace_form; reflexivity));
      apply list_elem_of_In; cbn; auto 10.
  - rewrite <- Hi. by apply printAlarm_prints.
Qed.

Lemma alarm_screen_names_sensor_witness :
  exists k,
    ParentSide.alarm_flag k noise_alarm_delivered = true
    /\ (forall j, j <> k -> ParentSide.alarm_flag j noise_alarm_delivered = false)
    /\ ParentSide.sensorInitials noise_alarm_delivered = sensor_initial k
    /\ Board.LcdPrint "<Alarm caused by:"
         ∈ emitted noise_alarm_delivered
             (ParentSide.lcdDisplayTask_turn push_up noise_alarm_delivered)
    /\ Board.LcdPrint (sensor_initial k)
         ∈ emitted noise_alarm_delivered
             (ParentSide.lcdDisplayTask_turn push_up noise_alarm_delivered).
Proof.
  apply (alarm_screen_names_sensor push_up noise_alarm_delivered
           reachable_noise_alarm_delivered).
  vm_compute. reflexivity.
Defined.



Section MenuCycle.

Import Board ParentSide.

(** An accepted page scroll down of the sensor menu, field by field, and
    the debounce of the same input a second later. *)
Lemma sensor_page_down_again (io : Inputs) (st : State) :
  currLcdView st = SENSOR_MENU ->
  cursorLine st = 1 ->
  sw io = true ->
  GO_LEFT (x_adc io) = false ->
  GO_DOWN (y_adc io) = true ->
  fst (debounce (millis st) (lastYInputTime st)) = true ->
  let st' := scroll_after_second io st in
  sensorOnTopLcdLineID st' = Z.rem (sensorOnTopLcdLineID st + 1) 6
  /\ songOnTopLcdLineID st' = songOnTopLcdLineID st
  /\ currLcdView st' = SENSOR_MENU
  /\ cursorLine st' = 1
  /\ fst (debounce (millis st') (lastYInputTime st')) = true.
Proof.
  intros Hv Hcur Hsw Hx Hdown Hd st'. subst st'. unfold scroll_after_second.
  display_turn Hv.
  rewrite Hsw, Hx, Hdown. cbn [negb and_then].
  accept_Y Hd. cbn -[Z.rem debounce]. rewrite Hcur. cbn -[Z.rem debounce].
  rewrite Hv, Hcur. repeat split; try reflexivity.
  change (fst (debounce (Int32.wrapu32 (clock st + 100 + 1000))
                (stamp (clock st))) = true).
  rewrite debounce_elapsed by (unfold Int32.half_modulus; lia).
  replace (clock st + 100 + 1000 - clock st) with 1100 by lia. reflexivity.
Qed.

Lemma sensor_page_downs (io : Inputs) (n : nat) (st : State) :
  currLcdView st = SENSOR_MENU ->
  cursorLine st = 1 ->
  0 <= sensorOnTopLcdLineID st < 6 ->
  sw io = true ->
  GO_LEFT (x_adc io) = false ->
  GO_DOWN (y_adc io) = true ->
  fst (debounce (millis st) (lastYInputTime st)) = true ->
  let st' := Nat.iter n (scroll_after_second io) st in
  sensorOnTopLcdLineID st' = (sensorOnTopLcdLineID st + Z.of_nat n) mod 6
  /\ songOnTopLcdLineID st' = songOnTopLcdLineID st
  /\ currLcdView st' = SENSOR_MENU
  /\ cursorLine st' = 1
  /\ fst (debounce (millis st') (lastYInputTime st')) = true.
Proof.
  intros Hv Hcur Hs Hsw Hx Hdown Hd.
  induction n as [|n IH]; cbn zeta.
  - cbn [Nat.iter nat_rect]. rewrite Z.add_0_r, Z.mod_small by lia. done.
  - cbn zeta in IH. destruct IH as (Ht & Hg & Hv' & Hc' & Hd').
    change (Nat.iter (S n) (scroll_after_second io) st)
      with (scroll_after_second io (Nat.iter n (scroll_after_second io) st)).
    destruct (sensor_page_down_again io _ Hv' Hc' Hsw Hx Hdown Hd')
      as (Ht2 & Hg2 & Hv2 & Hc2 & Hd2).
    cbn zeta in Ht2, Hg2, Hv2, Hc2, Hd2.
    rewrite Ht2, Hg2, Ht, Hg. repeat split; try done.
    rewrite Z.rem_mod_nonneg
      by (pose proof (Z.mod_pos_bound (sensorOnTopLcdLineID st + Z.of_nat n) 6);
          lia).
    rewrite Zplus_mod_idemp_l. f_equal. lia.
Qed.

End MenuCycle.

(** X15. The sensor menu of the monitor goes round. With the cursor on
    its second line, [n] downward inputs, each a second after the one
    before, are all accepted and move the top line [n] sensors down, modulo
    the six sensors: every sensor can be reached, and six scrolls lead back
    to the sensor one started from. View, cursor line and the top line of
    the song menu stay as they are. *)
Theorem sensor_menu_cycles (io : Board.Inputs) (n : nat) (st : ParentSide.State) :
  ParentSide.currLcdView st = ParentSide.SENSOR_MENU ->
  ParentSide.cursorLine st = 1 ->
  0 <= ParentSide.sensorOnTopLcdLineID st < 6 ->
  Board.sw io = true ->
  ParentSide.GO_LEFT (Board.x_adc io) = false ->
  ParentSide.GO_DOWN (Board.y_adc io) = true ->
  fst (ParentSide.debounce (ParentSide.millis st)
         (ParentSide.lastYInputTime st)) = true ->
  let after := fun m => Nat.iter m (scroll_after_second io) st in
  ParentSide.sensorOnTopLcdLineID (after n)
  = (ParentSide.sensorOnTopLcdLineID st + Z.of_nat n) mod 6
  /\ ParentSide.sensorOnTopLcdLineID (after 6%nat)
     = ParentSide.sensorOnTopLcdLineID st
  /\ ParentSide.songOnTopLcdLineID (after n) = ParentSide.songOnTopLcdLineID st
  /\ ParentSide.currLcdView (after n) = ParentSide.SENSOR_MENU
  /\ ParentSide.cursorLine (after n) = 1.
Proof.
  intros Hv Hcur Hs Hsw Hx Hdown Hd after. subst after. cbn beta.
  destruct (sensor_page_downs io n st Hv Hcur Hs Hsw Hx Hdown Hd)
    as (Ht & Hg & Hv' & Hc' & _).
  destruct (sensor_page_downs io 6 st Hv Hcur Hs Hsw Hx Hdown Hd)
    as (Ht6 & _).
  cbn zeta in Ht, Hg, Hv', Hc', Ht6.
  repeat split; try assumption.
  rewrite Ht6. change (Z.of_nat 6) with (1 * 6).
  rewrite Z_mod_plus_full. apply Z.mod_small. lia.
Qed.

Lemma sensor_menu_cycles_witness :
  ParentSide.sensorOnTopLcdLineID
    (Nat.iter 4 (scroll_after_second push_down) sensor_menu_line1)
  = (ParentSide.sensorOnTopLcdLineID sensor_menu_line1 + Z.of_nat 4) mod 6.
Proof.
  assert (H : 0 <= ParentSide.sensorOnTopLcdLineID sensor_menu_line1 < 6)
    by (vm_compute; intuition congruence).
  exact (proj1 (sensor_menu_cycles push_down 4 sensor_menu_line1
                  eq_refl eq_refl H eq_refl eq_refl eq_refl eq_refl)).
Defined.

Section Fields.

Import CLib.





End Fields.


Section Analog.

Lemma analog_all_ok :
  forallb analog_ok (map Z.of_nat (seq 0 4096)) = true.
Proof. vm_compute. reflexivity. Qed.

Lemma analog_ok_range (n : Z) : 0 <= n <= 4095 -> analog_ok n = true.
Proof.
  intros H. pose proof analog_all_ok as Hall.
  rewrite forallb_forall in Hall. apply Hall.
  replace n with (Z.of_nat (Z.to_nat n)) by lia.
  apply in_map, in_seq. lia.
Qed.

End Analog.

(** X17. The readings of the analog and digital pins go through exactly.
    For a value from 0 to 4095, the range of [analogRead], the message of the
    reading has at most 9 characters, so that it fits the 10-byte buffer of
    the monitor with its terminator; the monitor reads back the same sensor
    id and exactly the value sampled, nothing being lost in the two decimals
    of the text; and the check of the sensor compares it as the integer it
    is: noise and light trip above 3500, water above 300, motion at any
    value but 0. *)
Theorem analog_reading_exact
  (r : BabySide.SensorInfo) (k : ParentSide.sensorIDs) (n : Z) :
  0 <= n <= 4095 ->
  BabySide.value r = Float32.of_Z n ->
  ParentSide.id_num k = BabySide.id_num (BabySide.id r) ->
  (length (BabySide.outgoingMessage r) <= 9)%nat
  /\ (forall tail,
        ParentSide.parse_reading (BabySide.outgoingMessage r ++ CLib.NUL :: tail)
        = Some (ParentSide.id_num k, Float32.of_Z n))
  /\ ParentSide.spec_threshold k (Float32.of_Z n) = int_threshold k n.
Proof.
  intros Hn Hv Hid.
  pose proof (analog_ok_range n Hn) as Hok. unfold analog_ok in Hok.
  apply andb_prop in Hok as [Hok Hthr]. apply andb_prop in Hok as [Hlen Hround].
  apply Nat.leb_le in Hlen. apply bool_decide_eq_true in Hround.
  split; [|split].
  - unfold BabySide.outgoingMessage.
    destruct (String_int_id (BabySide.id r)) as (c & -> & _).
    rewrite Hv, !length_app. cbn [length]. lia.
  - intros tail. rewrite parse_outgoingMessage, Hv, Hround, Hid. reflexivity.
  - rewrite forallb_forall in Hthr.
    apply Bool.eqb_prop, Hthr. destruct k; cbn; auto 10.
Qed.

Lemma analog_reading_exact_witness :
  (length (BabySide.outgoingMessage (reading BabySide.NOISE (Float32.of_Z 4095)))
   <= 9)%nat
  /\ ParentSide.spec_threshold ParentSide.NOISE (Float32.of_Z 4095)
     = int_threshold ParentSide.NOISE 4095.
Proof.
  assert (H : 0 <= 4095 <= 4095) by lia.
  pose proof (analog_reading_exact (reading BabySide.NOISE (Float32.of_Z 4095))
                ParentSide.NOISE 4095 H eq_refl eq_refl) as (H1 & _ & H3).
  split; [exact H1|exact H3].
Defined.

Section TaskData.

Import Board CLib FreeRTOS ParentSide.

Lemma readings_alter (b : bool) (i : nat) (l : list SensorInfo) :
  map (fun s => (name s, value s)) (alter (set_alarm b) i l)
  = map (fun s => (name s, value s)) l.
Proof.
  revert i. induction l as [|s l IH]; intros [|i]; cbn; try done.
  by rewrite IH.
Qed.

Lemma readings_reset (st : State) : readings (reset_alarm_flags st) = readings st.
Proof.
  unfold readings, reset_alarm_flags. generalize (seq 0 (Z.to_nat NUM_SENSORS)).
  intros l. revert st. induction l as [|i l IH]; intros st; [reflexivity|].
  cbn [foldl]. rewrite IH. cbn [sensorValues set_sensorValues].
  apply readings_alter.
Qed.

Lemma readings_display (io : Inputs) (st : State) :
  readings (lcdDisplayTask_turn io st) = readings st.
Proof.
  unfold_display. destruct (currLcdView st); split_display;
    try reflexivity;
    match goal with
    | |- context [reset_alarm_flags ?s] =>
        change (readings (reset_alarm_flags s) = readings st);
        by rewrite readings_reset
    end.
Qed.

Lemma check_frame (f : AlarmCheck) (v : Float32.float) (st : State) :
  menu_state (snd (call_triggerAlarm f v st)) = menu_state st
  /\ incomingMessage (snd (call_triggerAlarm f v st)) = incomingMessage st
  /\ map name (sensorValues (snd (call_triggerAlarm f v st)))
     = map name (sensorValues st).
Proof.
  split; [|split; [|apply names_check]];
    destruct f; cbn [call_triggerAlarm];
    unfold checkNoise, checkTempurature, checkHumidity, checkMotion,
           checkWater, checkLight;
    match goal with |- context [if ?c then _ else _] => destruct c end;
    reflexivity.
Qed.

Lemma receiveDataTask_frame (st st' : State) :
  receiveDataTask_turn st = Some (Done st') ->
  menu_state st' = menu_state st
  /\ incomingMessage st' = incomingMessage st
  /\ map name (sensorValues st') = map name (sensorValues st).
Proof.
  unfold receiveDataTask_turn.
  destruct (xQueueReceive (sensorDataQueue st) portMAX_DELAY)
    as [it q| |]; try discriminate.
  unfold receiveDataTask_item.
  destruct (parse_reading it) as [[i v]|].
  - destruct (receive_reading i v _) as [st1|] eqn:E; [|discriminate].
    intros [= <-]. unfold receive_reading in E.
    destruct (0 <=? i); [|discriminate].
    cbn [sensorValues set_sensorDataQueue] in E.
    destruct (sensorValues st !! Z.to_nat i) as [s|] eqn:Es; [|discriminate].
    injection E as <-.
    match goal with
    | |- context [call_triggerAlarm ?f v ?s1] =>
        destruct (check_frame f v s1) as (Hm & Hb & Hn)
    end.
    split; [exact Hm|]. split; [exact Hb|].
    cbn [vTaskDelay_ms emit set_clock sensorValues]. rewrite Hn.
    cbn [sensorValues set_sensorValues]. by rewrite names_insert.
  - by intros [= <-].
Qed.

Lemma onDataRecv_frame_all (data : list ascii) (len : Z) (st st' : State) :
  onDataRecv data len st = Some st' ->
  sensorValues st' = sensorValues st
  /\ currLcdView st' = currLcdView st
  /\ menu_state st' = menu_state st
  /\ clock st' = clock st
  /\ trace st' = trace st.
Proof.
  unfold onDataRecv. intros H.
  destruct (memcpy _ _ _) as [buf|]; [|discriminate]. cbn in H.
  destruct (store _ _ _) as [buf'|]; [|discriminate]. cbn in H.
  injection H as <-.
  by destruct (xQueueSendFromISR _ _).
Qed.

End TaskData.

(** X18. Each task of the monitor keeps to its own data. The display task
    never changes a name or a value of the sensor array, the receive buffer
    or the receive queue (of the array it only clears flags); the receive
    task never changes the top indices, the cursor line, the debounce stamps,
    the buffer or a name; the receive callback changes the buffer and the
    queue and nothing else; the buzzer task changes nothing but the time and
    what sounds. *)
Theorem tasks_keep_to_their_data :
  (forall io st,
     readings (ParentSide.lcdDisplayTask_turn io st) = readings st
     /\ ParentSide.incomingMessage (ParentSide.lcdDisplayTask_turn io st)
        = ParentSide.incomingMessage st
     /\ ParentSide.sensorDataQueue (ParentSide.lcdDisplayTask_turn io st)
        = ParentSide.sensorDataQueue st)
  /\ (forall st st',
        ParentSide.receiveDataTask_turn st = Some (ParentSide.Done st') ->
        menu_state st' = menu_state st
        /\ ParentSide.incomingMessage st' = ParentSide.incomingMessage st
        /\ map ParentSide.name (ParentSide.sensorValues st')
           = map ParentSide.name (ParentSide.sensorValues st))
  /\ (forall data len st st',
        ParentSide.onDataRecv data len st = Some st' ->
        ParentSide.sensorValues st' = ParentSide.sensorValues st
        /\ ParentSide.currLcdView st' = ParentSide.currLcdView st
        /\ menu_state st' = menu_state st
        /\ ParentSide.clock st' = ParentSide.clock st
        /\ ParentSide.trace st' = ParentSide.trace st)
  /\ (forall st,
        ParentSide.sensorValues (ParentSide.buzzAlarmTask_wake st)
        = ParentSide.sensorValues st
        /\ ParentSide.currLcdView (ParentSide.buzzAlarmTask_wake st)
           = ParentSide.currLcdView st
        /\ menu_state (ParentSide.buzzAlarmTask_wake st) = menu_state st
        /\ ParentSide.incomingMessage (ParentSide.buzzAlarmTask_wake st)
           = ParentSide.incomingMessage st
        /\ ParentSide.sensorDataQueue (ParentSide.buzzAlarmTask_wake st)
           = ParentSide.sensorDataQueue st).
Proof.
  split; [|split; [|split]].
  - intros io st. split; [apply readings_display|].
    split; [apply display_incomingMessage|apply display_sensorDataQueue].
  - apply receiveDataTask_frame.
  - apply onDataRecv_frame_all.
  - intros st. unfold ParentSide.buzzAlarmTask_wake.
    by destruct (ParentSide.in_alarm st).
Qed.
